(** * gacha-map: a shallow embedding of the detour-discovery application

    The development follows the TypeScript sources:
    - [types.ts]                     : [Point], [Spot], [OverpassElement];
    - [services/overpassService.ts]  : module [OverpassService];
    - [App.tsx]                      : module [App].

    A TypeScript [number] is an IEEE-754 binary64 value and is modelled by
    Rocq's primitive [float], whose operations are the binary64 ones.  The
    transcendental functions of [Math] are not fixed by ECMAScript; they are
    a parameter of the development (class [MathEngine]), wrapped by the
    special cases that ECMA-262 does fix.  [Math.random] and the network are
    inputs of the functions that use them; exceptions are values ([JS.Exc]).

    Left out: the rendering components ([MapComponent], [ControlPanel]), the
    console output, the progress timer, the text of the Overpass query and of
    [debugInfo] (both kept as structured values), and [selectRandomSpots],
    which the application never calls and whose result depends on how the
    engine sorts with an inconsistent comparator. *)

From Stdlib Require Import Floats ZArith Bool Lia.
From Stdlib Require Uint63.
From stdpp Require Import gmap strings list pretty.

#[local] Set Warnings "-inexact-float".
#[local] Open Scope float_scope.

(** ** JavaScript values *)

Module JS.

(** [Math.PI], the double nearest to pi. *)
Definition PI : float := 0x1.921fb54442d18p+1.

(** A small non-negative integer as a [number]. *)
Definition ofNat (n : nat) : float := of_uint63 (Uint63.of_Z (Z.of_nat n)).

(** An integer as a [number] (used for scores, all far below 2^53). *)
Definition ofZ (z : Z) : float :=
  match z with
  | Z0 => 0
  | Zpos _ => of_uint63 (Uint63.of_Z z)
  | Zneg p => - of_uint63 (Uint63.of_Z (Zpos p))
  end.

(** Truthiness ([ToBoolean]) of the optional values the code tests. *)
Definition truthyNumber (x : float) : bool := negb (is_nan x || is_zero x).

Definition truthyString (s : option string) : bool :=
  match s with
  | Some s => negb (String.eqb s "")
  | None => false
  end.

Definition truthyBool (b : option bool) : bool :=
  match b with
  | Some b => b
  | None => false
  end.

(** [a || b] on optional strings: the first truthy operand, else the last. *)
Definition orString (a : option string) (b : string) : string :=
  match a with
  | Some s => if String.eqb s "" then b else s
  | None => b
  end.

(** [String.prototype.includes]. *)
Fixpoint includes (s sub : string) : bool :=
  String.prefix sub s ||
  match s with
  | EmptyString => false
  | String _ rest => includes rest sub
  end.

(** [Array.prototype.join] on strings. *)
Fixpoint join (sep : string) (parts : list string) : string :=
  match parts with
  | [] => EmptyString
  | [p] => p
  | p :: rest => (p ++ sep ++ join sep rest)%string
  end.

(** The implementation-approximated part of [Math]. *)
Class MathEngine := {
  sin_approx : float -> float;
  cos_approx : float -> float;
  atan2_approx : float -> float -> float
}.

Section Math.
Context {engine : MathEngine}.

(** [Math.sin].  ECMA-262: NaN and the zeros are returned as they are, the
    infinities give NaN. *)
Definition sin (x : float) : float :=
  match classify x with
  | NaN | PZero | NZero => x
  | PInf | NInf => nan
  | _ => sin_approx x
  end.

(** [Math.cos].  ECMA-262: NaN unless the argument is finite, 1 at the
    zeros. *)
Definition cos (x : float) : float :=
  match classify x with
  | NaN | PInf | NInf => nan
  | PZero | NZero => 1
  | _ => cos_approx x
  end.

(** [Math.atan2].  ECMA-262, the cases with an exact result: NaN
    operands, a zero [y] with [x] positive or [+0], a finite non-zero [y]
    with [x = +Infinity]. *)
Definition atan2 (y x : float) : float :=
  match classify y, classify x with
  | NaN, _ | _, NaN => nan
  | (PZero | NZero), (PZero | PNormal | PSubn | PInf) => y
  | (PNormal | PSubn), PInf => 0
  | (NNormal | NSubn), PInf => -0
  | _, _ => atan2_approx y x
  end.
End Math.

(** The integer a [number] denotes, when it is integer-valued. *)
Definition toInteger (x : float) : option Z :=
  match Prim2SF x with
  | S754_zero _ => Some 0%Z
  | S754_finite s m e =>
      if (0 <=? e)%Z then Some (cond_Zopp s (Z.pos m * 2 ^ e))
      else if (Z.pos m mod 2 ^ (- e) =? 0)%Z
           then Some (cond_Zopp s (Z.pos m / 2 ^ (- e)))
           else None
  | _ => None
  end.

(** [Number.isSafeInteger]: an integer between [-(2^53 - 1)] and
    [2^53 - 1]; the integer itself is returned. *)
Definition safeInteger (x : float) : option Z :=
  match toInteger x with
  | Some z => if (Z.abs z <=? 9007199254740991)%Z then Some z else None
  | None => None
  end.

(** Number formatting.  [Number.prototype.toFixed] is a parameter: only the
    name of a clicked point depends on it.  So is the text of a number that
    is not a safe integer: ECMA-262 asks for the fewest digits that read
    back as the number and leaves the last one open. *)
Class NumberFormat := {
  toFixed : float -> nat -> string;
  toString_shortest : float -> string
}.

(** [Number::toString] in radix 10, as a template literal applies it.
    ECMA-262 fixes the text of NaN, of the zeros, of the infinities and of
    every safe integer, whose digits are written out in full. *)
Definition numberToString {format : NumberFormat} (x : float) : string :=
  match safeInteger x with
  | Some z => pretty z
  | None =>
      match classify x with
      | NaN => "NaN"
      | PInf => "Infinity"
      | NInf => "-Infinity"
      | _ => toString_shortest x
      end
  end.

(** A thrown exception, and the computations that may throw. *)
Inductive Exc (A : Type) : Type :=
| Return (a : A)
| Throw (error : string).
Arguments Return {A} a.
Arguments Throw {A} error.

Definition bind {A B} (c : Exc A) (k : A -> Exc B) : Exc B :=
  match c with
  | Return a => k a
  | Throw e => Throw e
  end.

#[global] Instance Exc_ret : MRet Exc := @Return.
#[global] Instance Exc_bind : MBind Exc := fun A B k c => bind c k.

(** [try { c } catch (error) { handler(error) }]. *)
Definition tryCatch {A} (c : Exc A) (handler : string -> Exc A) : Exc A :=
  match c with
  | Return a => Return a
  | Throw e => handler e
  end.

End JS.

(** ** types.ts *)

Inductive Category : Set :=
| restaurant | tourist_attraction | gas_station | shop | cafe | all.

Inductive Stars : Set := Star1 | Star2 | Star3.

Definition starsValue (s : Stars) : Z :=
  match s with Star1 => 1 | Star2 => 2 | Star3 => 3 end.

(** The penalties a rating's debug text lists, in the order it lists them. *)
Inductive Penalty : Set :=
| RouteBackward
| RouteFar (distanceFromRoute : float)
| RouteSlightlyFar
| GeneralChain
| NearStart (distanceFromStart : float)
| NoOpeningHours
| NoPhone
| NoWebsite.

(** The content of [debugInfo]; the text itself (number formatting by
    [toFixed]) is not modelled. *)
Inductive DebugInfo : Set :=
| MajorChainFixed
| Scored (penalties : list Penalty) (score : float).

Module Point.
Record t : Set := mk {
  lat : float;
  lng : float;
  name : option string
}.
End Point.

Module Spot.
Record t : Set := mk {
  id : string;
  name : string;
  lat : float;
  lng : float;
  type : string;
  category : Category;
  description : option string;
  address : option string;
  phone : option string;
  website : option string;
  openingHours : option string;
  cuisine : option string;
  rating : option float;
  isChain : option bool;
  chainName : option string;
  isMajorChain : option bool;
  stars : option Stars;
  distanceFromRoute : option float;
  debugInfo : option DebugInfo
}.

(** A [Spot] is passed where a [Point] is expected (structural typing). *)
Definition asPoint (s : t) : Point.t :=
  Point.mk (lat s) (lng s) (Some (name s)).
End Spot.

Module OverpassElement.
Record t : Type := mk {
  type : string;
  id : float;
  lat : float;
  lon : float;
  tags : gmap string string
}.
End OverpassElement.

Record OverpassResponse : Type := {
  version : float;
  generator : string;
  elements : list OverpassElement.t
}.

(** ** services/overpassService.ts *)

Module OverpassService.

Record BoundingBox : Set := {
  south : float;
  west : float;
  north : float;
  east : float
}.

(** One [node[...](bbox);] line of the query: a tag key with, or without,
    a required value. *)
Record Selector : Set := {
  key : string;
  value : option string
}.

(** The Overpass QL request.  Its text is the fixed template
    [[out:json][timeout:25]; ( selectors ); out geom;], every selector
    scoped to [bbox]; the rendering of the numbers is not modelled. *)
Record OverpassQuery : Set := {
  timeout : Z;
  bbox : BoundingBox;
  selectors : list Selector
}.

(** What [fetch] gives back: a rejected promise (transport failure) is a
    [Throw]; otherwise a response, whose body may fail to parse. *)
Record HttpResponse : Type := {
  ok : bool;
  status : Z;
  json : JS.Exc OverpassResponse
}.

Definition Fetch : Type := OverpassQuery -> JS.Exc HttpResponse.

Record ChainInfo : Set := {
  chainIsChain : bool;
  chainChainName : option string;
  chainIsMajorChain : option bool
}.

Record Rating : Set := {
  ratingStars : Stars;
  ratingDebugInfo : DebugInfo
}.

Definition calculateMidPoint (start end_ : Point.t) : Point.t :=
  {| Point.lat := (Point.lat start + Point.lat end_) / 2;
     Point.lng := (Point.lng start + Point.lng end_) / 2;
     Point.name := None |}.

(** The body of the loop [for (let i = 1; i <= count; i++)], with [n]
    iterations left and the counter at [i]. *)
Fixpoint multipleMidPointsLoop (start end_ : Point.t) (count : float)
    (n : nat) (i : float) : list Point.t :=
  match n with
  | O => []
  | S n' =>
      let ratio := i / (count + 1) in
      {| Point.lat := Point.lat start + (Point.lat end_ - Point.lat start) * ratio;
         Point.lng := Point.lng start + (Point.lng end_ - Point.lng start) * ratio;
         Point.name := None |}
      :: multipleMidPointsLoop start end_ count n' (i + 1)
  end.

Definition calculateMultipleMidPoints (start end_ : Point.t)
    (count : nat) : list Point.t :=
  multipleMidPointsLoop start end_ (JS.ofNat count) count 1.

(** The body of the loop [for (let i = 0; i < count; i++)], with [n]
    iterations left and the counter at [i]. *)
Fixpoint nearDestinationLoop (start end_ : Point.t) (count : float)
    (n : nat) (i : float) : list Point.t :=
  match n with
  | O => []
  | S n' =>
      let ratio := (i + 1) / (count + 1) in
      {| Point.lat := Point.lat start + (Point.lat end_ - Point.lat start) * ratio;
         Point.lng := Point.lng start + (Point.lng end_ - Point.lng start) * ratio;
         Point.name := None |}
      :: nearDestinationLoop start end_ count n' (i + 1)
  end.

Definition calculateNearDestinationPoints (start end_ : Point.t)
    (count : nat) : list Point.t :=
  nearDestinationLoop start end_ (JS.ofNat count) count 0.

Definition selectorsFor (category : Category) : list Selector :=
  match category with
  | restaurant =>
      [ {| key := "amenity"; value := Some "restaurant" |};
        {| key := "amenity"; value := Some "fast_food" |} ]
  | cafe =>
      [ {| key := "amenity"; value := Some "cafe" |} ]
  | tourist_attraction =>
      [ {| key := "tourism"; value := Some "attraction" |};
        {| key := "tourism"; value := Some "museum" |} ]
  | gas_station =>
      [ {| key := "amenity"; value := Some "fuel" |} ]
  | shop =>
      [ {| key := "shop"; value := None |} ]
  | all =>
      [ {| key := "amenity"; value := Some "restaurant" |};
        {| key := "amenity"; value := Some "cafe" |};
        {| key := "amenity"; value := Some "fast_food" |};
        {| key := "tourism"; value := Some "attraction" |};
        {| key := "tourism"; value := Some "museum" |};
        {| key := "amenity"; value := Some "fuel" |};
        {| key := "shop"; value := None |} ]
  end.

Definition buildOverpassQuery (box : BoundingBox) (category : Category)
    : OverpassQuery :=
  {| timeout := 25; bbox := box; selectors := selectorsFor category |}.

Definition determineCategory (tags : gmap string string) : Category :=
  if bool_decide (tags !! "amenity" = Some "restaurant")
     || bool_decide (tags !! "amenity" = Some "fast_food") then restaurant
  else if bool_decide (tags !! "amenity" = Some "cafe") then cafe
  else if bool_decide (tags !! "tourism" = Some "attraction")
          || bool_decide (tags !! "tourism" = Some "museum")
  then tourist_attraction
  else if bool_decide (tags !! "amenity" = Some "fuel") then gas_station
  else if JS.truthyString (tags !! "shop") then shop
  else restaurant.

(** [if (tag) parts.push(text)]. *)
Definition pushIf (tag : option string) (text : string -> string)
    (parts : list string) : list string :=
  match tag with
  | Some s => if JS.truthyString tag then parts ++ [text s] else parts
  | None => parts
  end.

Definition generateDescription (tags : gmap string string) : string :=
  let parts := [] in
  let parts := pushIf (tags !! "amenity") id parts in
  let parts := pushIf (tags !! "tourism") id parts in
  let parts := pushIf (tags !! "cuisine") (String.append "料理: ") parts in
  let parts := pushIf (tags !! "shop") (String.append "店舗: ") parts in
  JS.join " | " parts.

Definition extractAddress (tags : gmap string string) : string :=
  if JS.truthyString (tags !! "addr:full")
  then JS.orString (tags !! "addr:full") ""
  else
    let addressParts := [] in
    let addressParts := pushIf (tags !! "addr:housenumber") id addressParts in
    let addressParts := pushIf (tags !! "addr:street") id addressParts in
    let addressParts := pushIf (tags !! "addr:city") id addressParts in
    JS.join " " addressParts.

Definition majorChains : list string :=
  [ "マクドナルド"; "McDonald"; "松屋"; "すき家"; "ガスト"; "Gusto";
    "サイゼリヤ"; "ケンタッキー"; "KFC"; "バーガーキング"; "Burger King";
    "セブン-イレブン"; "7-Eleven"; "ファミリーマート"; "FamilyMart";
    "ローソン"; "Lawson"; "ココス"; "COCO'S"; "ジョナサン";
    "デニーズ"; "Denny's"; "びっくりドンキー"; "はなまるうどん"; "丸亀製麺" ].

Definition isMajorChain (chainName : string) : bool :=
  existsb (fun major => JS.includes chainName major) majorChains.

Definition commonChains : list string :=
  [ "マクドナルド"; "McDonald"; "スターバックス"; "Starbucks";
    "セブン-イレブン"; "7-Eleven"; "ファミリーマート"; "FamilyMart";
    "ローソン"; "Lawson"; "すき家"; "松屋"; "ガスト"; "Gusto";
    "サイゼリヤ"; "ドトール"; "Doutor"; "タリーズ"; "Tully's";
    "ケンタッキー"; "KFC"; "バーガーキング"; "Burger King";
    "モスバーガー"; "MOS BURGER"; "ココス"; "COCO'S";
    "ジョナサン"; "デニーズ"; "Denny's"; "びっくりドンキー";
    "はなまるうどん"; "丸亀製麺"; "やよい軒"; "大戸屋" ].

Definition detectChain (tags : gmap string string) : ChainInfo :=
  if JS.truthyString (tags !! "brand") then
    let brand := JS.orString (tags !! "brand") "" in
    {| chainIsChain := true; chainChainName := Some brand;
       chainIsMajorChain := Some (isMajorChain brand) |}
  else if JS.truthyString (tags !! "operator") then
    let operator := JS.orString (tags !! "operator") "" in
    {| chainIsChain := true; chainChainName := Some operator;
       chainIsMajorChain := Some (isMajorChain operator) |}
  else
    let name := JS.orString (tags !! "name") "" in
    match find (fun chain => JS.includes name chain) commonChains with
    | Some chain =>
        {| chainIsChain := true; chainChainName := Some chain;
           chainIsMajorChain := Some (isMajorChain chain) |}
    | None =>
        {| chainIsChain := false; chainChainName := None;
           chainIsMajorChain := Some false |}
    end.

(** [a || b || c || 'other'] on the type tags. *)
Definition spotType (tags : gmap string string) : string :=
  JS.orString (tags !! "amenity")
    (JS.orString (tags !! "tourism") (JS.orString (tags !! "shop") "other")).

Definition convertElement {format : JS.NumberFormat}
    (element : OverpassElement.t) : Spot.t :=
  let tags := OverpassElement.tags element in
  let chainInfo := detectChain tags in
  {| Spot.id := (OverpassElement.type element ++ "_"
                 ++ JS.numberToString (OverpassElement.id element))%string;
     Spot.name := JS.orString (tags !! "name") "Unknown";
     Spot.lat := OverpassElement.lat element;
     Spot.lng := OverpassElement.lon element;
     Spot.type := spotType tags;
     Spot.category := determineCategory tags;
     Spot.description := Some (generateDescription tags);
     Spot.address := Some (extractAddress tags);
     Spot.phone := tags !! "phone";
     Spot.website := tags !! "website";
     Spot.openingHours := tags !! "opening_hours";
     Spot.cuisine := tags !! "cuisine";
     Spot.rating := None;
     Spot.isChain := Some (chainIsChain chainInfo);
     Spot.chainName := chainChainName chainInfo;
     Spot.isMajorChain := chainIsMajorChain chainInfo;
     Spot.stars := None;
     Spot.distanceFromRoute := None;
     Spot.debugInfo := None |}.

Definition convertToSpots {format : JS.NumberFormat}
    (elements : list OverpassElement.t) : list Spot.t :=
  map convertElement
    (filter (fun element =>
               Is_true (JS.truthyString (OverpassElement.tags element !! "name")))
            elements).

Definition calculateDistanceFromRoute (spot startPoint endPoint : Point.t)
    : float :=
  let A := Point.lat endPoint - Point.lat startPoint in
  let B := Point.lng startPoint - Point.lng endPoint in
  let C := Point.lng endPoint * Point.lat startPoint
           - Point.lng startPoint * Point.lat endPoint in
  let distance :=
    abs (A * Point.lng spot + B * Point.lat spot + C) / sqrt (A * A + B * B) in
  distance * 111.

Definition isBackward (spot startPoint endPoint : Point.t) : bool :=
  let routeVector_lat := Point.lat endPoint - Point.lat startPoint in
  let routeVector_lng := Point.lng endPoint - Point.lng startPoint in
  let spotVector_lat := Point.lat spot - Point.lat startPoint in
  let spotVector_lng := Point.lng spot - Point.lng startPoint in
  let dotProduct :=
    routeVector_lat * spotVector_lat + routeVector_lng * spotVector_lng in
  let routeLengthSq :=
    routeVector_lat * routeVector_lat + routeVector_lng * routeVector_lng in
  if dotProduct <? 0 then
    let spotLengthSq :=
      spotVector_lat * spotVector_lat + spotVector_lng * spotVector_lng in
    let backwardThreshold := routeLengthSq * 0.04 in
    backwardThreshold <? spotLengthSq
  else
    let endToSpotVector_lat := Point.lat spot - Point.lat endPoint in
    let endToSpotVector_lng := Point.lng spot - Point.lng endPoint in
    let endBackwardDot :=
      routeVector_lat * endToSpotVector_lat
      + routeVector_lng * endToSpotVector_lng in
    if 0 <? endBackwardDot then
      let endSpotLengthSq :=
        endToSpotVector_lat * endToSpotVector_lat
        + endToSpotVector_lng * endToSpotVector_lng in
      let endBackwardThreshold := routeLengthSq * 0.04 in
      endBackwardThreshold <? endSpotLengthSq
    else false.

(** The search radius as the source computes it from [distance]. *)
Definition searchRadiusFor (distance : float) : float :=
  if distance <=? 1 then 1500
  else if distance <=? 3 then 2000
  else if distance <=? 10 then 3000
  else if distance <=? 20 then 5000
  else 7000.

(** The random draws of a shuffle: [rnd i] is the value of
    [Math.floor(Math.random() * (i + 1))] at counter [i], an integer of
    [0..i] since [Math.random()] lies in [0, 1). *)
Definition Draws : Set := forall i : nat, fin (S i).

(** [[a[i], a[j]] = [a[j], a[i]]].  Both indices are within the array at
    every use (lemma [swap_in_bounds] below); outside, the model leaves the
    array as it is. *)
Definition swap {A} (i j : nat) (a : list A) : list A :=
  match a !! i, a !! j with
  | Some ai, Some aj => <[j := ai]> (<[i := aj]> a)
  | _, _ => a
  end.

(** The Fisher-Yates loop [for (let i = length - 1; i > 0; i--)] of both
    selection functions, at counter [i]. *)
Fixpoint shuffleFrom {A} (rnd : Draws) (i : nat) (shuffled : list A)
    : list A :=
  match i with
  | O => shuffled
  | S i' => shuffleFrom rnd i' (swap i (fin_to_nat (rnd i)) shuffled)
  end.

Definition selectRandomMidPoints (rnd : Draws)
    (midPoints : list Point.t) (count : nat) : list Point.t :=
  if (length midPoints <=? count)%nat then midPoints
  else
    let shuffled := shuffleFrom rnd (length midPoints - 1) midPoints in
    take count shuffled.

Definition selectRandomSpotsWithoutRating (rnd : Draws)
    (spots : list Spot.t) (count : nat) : list Spot.t :=
  if (length spots <=? count)%nat then spots
  else
    let shuffled := shuffleFrom rnd (length spots - 1) spots in
    take count shuffled.

Section WithMath.
Context {engine : JS.MathEngine} {format : JS.NumberFormat}.

Definition calculateBoundingBox (center : Point.t) (radiusMeters : float)
    : BoundingBox :=
  let latDegreeInMeters := 111000 in
  let lngDegreeInMeters :=
    latDegreeInMeters * JS.cos ((Point.lat center * JS.PI) / 180) in
  let latDelta := radiusMeters / latDegreeInMeters in
  let lngDelta := radiusMeters / lngDegreeInMeters in
  {| south := Point.lat center - latDelta;
     west := Point.lng center - lngDelta;
     north := Point.lat center + latDelta;
     east := Point.lng center + lngDelta |}.

Definition calculateDistance (point1 point2 : Point.t) : float :=
  let R := 6371 in
  let dLat := (Point.lat point2 - Point.lat point1) * JS.PI / 180 in
  let dLng := (Point.lng point2 - Point.lng point1) * JS.PI / 180 in
  let a :=
    JS.sin (dLat / 2) * JS.sin (dLat / 2)
    + JS.cos (Point.lat point1 * JS.PI / 180)
      * JS.cos (Point.lat point2 * JS.PI / 180)
      * JS.sin (dLng / 2) * JS.sin (dLng / 2) in
  let c := 2 * JS.atan2 (sqrt a) (sqrt (1 - a)) in
  R * c.

Definition calculateSearchRadius (startPoint endPoint : Point.t) : float :=
  let distance := calculateDistance startPoint endPoint in
  searchRadiusFor distance.

(** [searchSpots]; its own [catch] logs the error and throws it again. *)
Definition searchSpots (fetch : Fetch) (startPoint endPoint : Point.t)
    (radius : float) (category : Category) : JS.Exc (list Spot.t) :=
  JS.tryCatch
    (let midPoint := calculateMidPoint startPoint endPoint in
     let box := calculateBoundingBox midPoint radius in
     let query := buildOverpassQuery box category in
     response ← fetch query;
     if negb (ok response)
     then JS.Throw ("Overpass API error: " ++ pretty (status response))%string
     else
       data ← json response;
       mret (convertToSpots (elements data)))
    (fun error => JS.Throw error).

(** The penalties of [calculateSpotRating], kept apart from the running
    score: each step subtracts from [score] and appends to the trace. *)
Definition applyPenalty (applies : bool) (points : float) (penalty : Penalty)
    (acc : float * list Penalty) : float * list Penalty :=
  if applies then (fst acc - points, snd acc ++ [penalty]) else acc.

Definition calculateSpotRating (spot : Spot.t) (startPoint endPoint : Point.t)
    : Rating :=
  let acc := (100, []) in
  if JS.truthyBool (Spot.isMajorChain spot) then
    {| ratingStars := Star1; ratingDebugInfo := MajorChainFixed |}
  else
    let isBackward_ := isBackward (Spot.asPoint spot) startPoint endPoint in
    let acc := applyPenalty isBackward_ 40 RouteBackward acc in
    let distanceFromRoute :=
      match Spot.distanceFromRoute spot with
      | Some d => if JS.truthyNumber d then d else 0
      | None => 0
      end in
    let acc :=
      if 2.5 <? distanceFromRoute
      then applyPenalty true 30 (RouteFar distanceFromRoute) acc
      else if 1.8 <? distanceFromRoute
      then applyPenalty true 20 RouteSlightlyFar acc
      else acc in
    let acc :=
      applyPenalty (JS.truthyBool (Spot.isChain spot)) 20 GeneralChain acc in
    let distanceFromStart := calculateDistance (Spot.asPoint spot) startPoint in
    let acc :=
      applyPenalty (distanceFromStart <=? 0.3) 25 (NearStart distanceFromStart)
        acc in
    let acc :=
      applyPenalty (negb (JS.truthyString (Spot.openingHours spot))) 10
        NoOpeningHours acc in
    let acc :=
      applyPenalty (negb (JS.truthyString (Spot.phone spot))) 10 NoPhone acc in
    let acc :=
      applyPenalty (negb (JS.truthyString (Spot.website spot))) 10 NoWebsite
        acc in
    let score := fst acc in
    let stars :=
      if 70 <=? score then Star3
      else if 30 <=? score then Star2
      else Star1 in
    {| ratingStars := stars; ratingDebugInfo := Scored (snd acc) score |}.

Definition withDistanceFromRoute (spot : Spot.t) (d : float) : Spot.t :=
  {| Spot.id := Spot.id spot; Spot.name := Spot.name spot;
     Spot.lat := Spot.lat spot; Spot.lng := Spot.lng spot;
     Spot.type := Spot.type spot; Spot.category := Spot.category spot;
     Spot.description := Spot.description spot;
     Spot.address := Spot.address spot; Spot.phone := Spot.phone spot;
     Spot.website := Spot.website spot;
     Spot.openingHours := Spot.openingHours spot;
     Spot.cuisine := Spot.cuisine spot; Spot.rating := Spot.rating spot;
     Spot.isChain := Spot.isChain spot; Spot.chainName := Spot.chainName spot;
     Spot.isMajorChain := Spot.isMajorChain spot;
     Spot.stars := Spot.stars spot;
     Spot.distanceFromRoute := Some d;
     Spot.debugInfo := Spot.debugInfo spot |}.

Definition withRating (spot : Spot.t) (r : Rating) : Spot.t :=
  {| Spot.id := Spot.id spot; Spot.name := Spot.name spot;
     Spot.lat := Spot.lat spot; Spot.lng := Spot.lng spot;
     Spot.type := Spot.type spot; Spot.category := Spot.category spot;
     Spot.description := Spot.description spot;
     Spot.address := Spot.address spot; Spot.phone := Spot.phone spot;
     Spot.website := Spot.website spot;
     Spot.openingHours := Spot.openingHours spot;
     Spot.cuisine := Spot.cuisine spot; Spot.rating := Spot.rating spot;
     Spot.isChain := Spot.isChain spot; Spot.chainName := Spot.chainName spot;
     Spot.isMajorChain := Spot.isMajorChain spot;
     Spot.stars := Some (ratingStars r);
     Spot.distanceFromRoute := Spot.distanceFromRoute spot;
     Spot.debugInfo := Some (ratingDebugInfo r) |}.

Definition addRatingsToSpots (spots : list Spot.t)
    (startPoint endPoint : Point.t) : list Spot.t :=
  map (fun spot =>
         let distanceFromRoute :=
           calculateDistanceFromRoute (Spot.asPoint spot) startPoint endPoint in
         let updatedSpot := withDistanceFromRoute spot distanceFromRoute in
         let rating := calculateSpotRating updatedSpot startPoint endPoint in
         withRating updatedSpot rating)
      spots.

End WithMath.

End OverpassService.

(** ** App.tsx *)

Module App.

Inductive Toast : Set :=
| ToastStartSet        (* info: start point set, click the destination next *)
| ToastEndSet          (* success: destination set *)
| ToastAlreadySet      (* warning: both set, use the reset button *)
| ToastNotFound        (* warning: no spot around this route *)
| ToastRollError       (* error: search failed, retry later *)
| ToastResetGuide.     (* info: click the map to set the start point *)

(** The component state the handlers read and write, and the toasts they
    have raised so far.  The popup callback and the progress timer are not
    modelled. *)
Record State : Type := {
  startPoint : option Point.t;
  endPoint : option Point.t;
  gachaSpots : list Spot.t;
  allGachaHistory : list Spot.t;
  isLoading : bool;
  selectedCategory : Category;
  toasts : list Toast
}.

(** The [useState] initial values. *)
Definition initialState : State :=
  {| startPoint :=
       Some {| Point.lat := 35.6896; Point.lng := 139.6917;
               Point.name := Some "新宿駅" |};
     endPoint :=
       Some {| Point.lat := 35.6580; Point.lng := 139.7016;
               Point.name := Some "渋谷駅" |};
     gachaSpots := [];
     allGachaHistory := [];
     isLoading := false;
     selectedCategory := restaurant;
     toasts := [] |}.

(** What one roll draws from outside: the random indices of the two
    shuffles and the behaviour of the network at each request. *)
Record RollEnv : Type := {
  rndMidPoints : OverpassService.Draws;
  rndSpots : OverpassService.Draws;
  network : nat -> OverpassService.Fetch
}.

(** [Array.prototype.findIndex]: -1 when no element satisfies [p]. *)
Fixpoint findIndexFrom {A} (p : A -> bool) (a : list A) (i : nat) : Z :=
  match a with
  | [] => (-1)%Z
  | x :: rest => if p x then Z.of_nat i else findIndexFrom p rest (S i)
  end.

Definition findIndex {A} (p : A -> bool) (a : list A) : Z :=
  findIndexFrom p a 0.

(** [Array.prototype.filter] with the callback's [index] argument. *)
Fixpoint filterFrom {A} (p : A -> nat -> bool) (a : list A) (i : nat)
    : list A :=
  match a with
  | [] => []
  | x :: rest =>
      if p x i then x :: filterFrom p rest (S i) else filterFrom p rest (S i)
  end.

(** [allSpots.filter((spot, index, self) =>
       index === self.findIndex(s => s.id === spot.id))]. *)
Definition uniqueSpots (allSpots : list Spot.t) : list Spot.t :=
  filterFrom
    (fun spot index =>
       (Z.of_nat index
        =? findIndex (fun s => String.eqb (Spot.id s) (Spot.id spot)) allSpots)%Z)
    allSpots 0.

(** [setAllGachaHistory(prev => ...)]. *)
Definition mergeHistory (prev selectedSpots : list Spot.t) : list Spot.t :=
  let newSpots :=
    List.filter
      (fun spot =>
         negb (existsb (fun existingSpot =>
                          String.eqb (Spot.id existingSpot) (Spot.id spot))
                       prev))
      selectedSpots in
  prev ++ newSpots.

Definition setPoints (st : State) (s e : option Point.t) : State :=
  {| startPoint := s; endPoint := e;
     gachaSpots := gachaSpots st; allGachaHistory := allGachaHistory st;
     isLoading := isLoading st; selectedCategory := selectedCategory st;
     toasts := toasts st |}.

Definition setSpots (st : State) (spots history : list Spot.t) : State :=
  {| startPoint := startPoint st; endPoint := endPoint st;
     gachaSpots := spots; allGachaHistory := history;
     isLoading := isLoading st; selectedCategory := selectedCategory st;
     toasts := toasts st |}.

Definition setIsLoading (st : State) (b : bool) : State :=
  {| startPoint := startPoint st; endPoint := endPoint st;
     gachaSpots := gachaSpots st; allGachaHistory := allGachaHistory st;
     isLoading := b; selectedCategory := selectedCategory st;
     toasts := toasts st |}.

Definition setSelectedCategory (st : State) (c : Category) : State :=
  {| startPoint := startPoint st; endPoint := endPoint st;
     gachaSpots := gachaSpots st; allGachaHistory := allGachaHistory st;
     isLoading := isLoading st; selectedCategory := c;
     toasts := toasts st |}.

Definition toast (st : State) (t : Toast) : State :=
  {| startPoint := startPoint st; endPoint := endPoint st;
     gachaSpots := gachaSpots st; allGachaHistory := allGachaHistory st;
     isLoading := isLoading st; selectedCategory := selectedCategory st;
     toasts := toasts st ++ [t] |}.

Section WithEngine.
Context {engine : JS.MathEngine} {format : JS.NumberFormat}.

Definition handleMapClick (lat lng : float) (st : State) : State :=
  let point :=
    {| Point.lat := lat; Point.lng := lng;
       Point.name :=
         Some (JS.toFixed lat 4 ++ ", " ++ JS.toFixed lng 4)%string |} in
  match startPoint st with
  | None => toast (setPoints st (Some point) (endPoint st)) ToastStartSet
  | Some _ =>
      match endPoint st with
      | None => toast (setPoints st (startPoint st) (Some point)) ToastEndSet
      | Some _ => toast st ToastAlreadySet
      end
  end.

Definition handleReset (st : State) : State :=
  toast (setSpots (setPoints st None None) [] []) ToastResetGuide.

(** The loop over the selected mid points, request number [k] next.  Each
    iteration is its own [try]/[catch]: a failed search leaves [allSpots]
    as it was. *)
Fixpoint collectSpots (net : nat -> OverpassService.Fetch)
    (searchRadius : float) (category : Category)
    (selectedMidPoints : list Point.t) (k : nat) (allSpots : list Spot.t)
    : JS.Exc (list Spot.t) :=
  match selectedMidPoints with
  | [] => mret allSpots
  | midPoint :: rest =>
      allSpots' ←
        JS.tryCatch
          (spots ← OverpassService.searchSpots (net k) midPoint midPoint
                     searchRadius category;
           mret (allSpots ++ spots))
          (fun _ => mret allSpots);
      collectSpots net searchRadius category rest (S k) allSpots'
  end.

(** The body of the outer [try] of [handleGachaRoll]. *)
Definition rollBody (env : RollEnv) (start end_ : Point.t) (st : State)
    : JS.Exc State :=
  let searchRadius := OverpassService.calculateSearchRadius start end_ in
  let allMidPoints :=
    OverpassService.calculateNearDestinationPoints start end_ 5 in
  let selectedMidPoints :=
    OverpassService.selectRandomMidPoints (rndMidPoints env) allMidPoints 3 in
  allSpots ← collectSpots (network env) searchRadius (selectedCategory st)
               selectedMidPoints 0 [];
  let uniqueSpots_ := uniqueSpots allSpots in
  let ratedSpots :=
    OverpassService.addRatingsToSpots uniqueSpots_ start end_ in
  let selectedSpots :=
    OverpassService.selectRandomSpotsWithoutRating (rndSpots env) ratedSpots 3 in
  if (length selectedSpots =? 0)%nat
  then mret (toast st ToastNotFound)
  else mret (setSpots st selectedSpots
               (mergeHistory (allGachaHistory st) selectedSpots)).

Definition handleGachaRoll (env : RollEnv) (st : State) : State :=
  match startPoint st, endPoint st with
  | Some start, Some end_ =>
      let st := setSpots (setIsLoading st true) [] (allGachaHistory st) in
      let st :=
        match rollBody env start end_ st with
        | JS.Return st' => st'
        | JS.Throw _ => toast st ToastRollError
        end in
      setIsLoading st false
  | _, _ => st
  end.

End WithEngine.

End App.

(** ** A reference engine

    The theorems below hold for every [MathEngine] and [NumberFormat].  To
    run the model on concrete inputs this module supplies one of each: short
    Taylor polynomials, accurate for the small angles of a city route, the
    fixed-point printing of [toFixed] (round half up on the exact value of
    the double), and the shortest digits of [Number::toString], the nearest
    ones where several are as short. *)

Module Reference.

Definition sinPoly (x : float) : float :=
  let x2 := x * x in
  x * (1 - x2 / 6 * (1 - x2 / 20 * (1 - x2 / 42))).

Definition cosPoly (x : float) : float :=
  let x2 := x * x in
  let c := 1 - x2 / 2 * (1 - x2 / 12 * (1 - x2 / 30)) in
  if c <=? 1 then (if -1 <=? c then c else -1) else 1.

Definition atan2Poly (y x : float) : float :=
  let t := y / (sqrt (x * x + y * y) + x) in
  let t2 := t * t in
  2 * (t * (1 - t2 / 3 * (1 - t2 * 3 / 5))).

#[global] Instance engine : JS.MathEngine :=
  {| JS.sin_approx := sinPoly;
     JS.cos_approx := cosPoly;
     JS.atan2_approx := atan2Poly |}.

(** [n] printed with [f] digits after the point. *)
Definition withPoint (n : Z) (f : nat) : string :=
  let digits := pretty n in
  let padded :=
    (String.concat "" (replicate (S f - String.length digits) "0") ++ digits)%string in
  let k := String.length padded in
  if (f =? 0)%nat then padded
  else (String.substring 0 (k - f) padded ++ "."
        ++ String.substring (k - f) f padded)%string.

(** The integer nearest to [m * 2^e * 10^f], the larger one at a tie. *)
Definition scaled (m : positive) (e : Z) (f : nat) : Z :=
  let a := (Z.pos m * 10 ^ Z.of_nat f)%Z in
  match e with
  | Zneg p => ((2 * a + 2 ^ Z.pos p) / 2 ^ (Z.pos p + 1))%Z
  | _ => (a * 2 ^ e)%Z
  end.

Definition toFixedDigits (x : float) (f : nat) : string :=
  match Prim2SF x with
  | S754_nan => "NaN"
  | S754_infinity s => if s then "-Infinity" else "Infinity"
  | S754_zero _ => withPoint 0 f
  | S754_finite s m e =>
      ((if s then "-" else "") ++ withPoint (scaled m e f) f)%string
  end.

(** The shortest digits of [m * 2^e].  Everything is measured in units of
    [2^(e-2)], where the number is [4m] and the decimals that read back as
    it lie from [4m - below] to [4m + 2], the ends included when [m] is
    even. *)
Definition below (m : positive) (e : Z) : Z :=
  if (Z.pos m =? 2 ^ 52)%Z && (-1074 <? e)%Z then 1%Z else 2%Z.

(** [s * 10^p] compared with [u] units of [2^(e-2)]. *)
Definition compareWith (s p u e : Z) : comparison :=
  (s * 10 ^ Z.max p 0 * 2 ^ Z.max (2 - e) 0
   ?= u * 10 ^ Z.max (- p) 0 * 2 ^ Z.max (e - 2) 0)%Z.

Definition readsBack (m : positive) (e : Z) (s p : Z) : bool :=
  let low := compareWith s p (4 * Z.pos m - below m e) e in
  let high := compareWith s p (4 * Z.pos m + 2) e in
  let closed := Z.even (Z.pos m) in
  match low, high with
  | Gt, Lt => true
  | Eq, _ | _, Eq => closed
  | _, _ => false
  end.

(** The [n] with [10^(n-1) <= m * 2^e < 10^n], searched upwards. *)
Fixpoint magnitudeFrom (fuel : nat) (m : positive) (e n : Z) : Z :=
  match fuel with
  | O => n
  | S fuel =>
      match compareWith 1 n (4 * Z.pos m) e with
      | Gt => n
      | _ => magnitudeFrom fuel m e (n + 1)%Z
      end
  end.

Definition magnitude (m : positive) (e : Z) : Z :=
  magnitudeFrom 640 m e (-330).

(** The largest [s] with [s * 10^p <= m * 2^e]. *)
Definition digitsBelow (m : positive) (e p : Z) : Z :=
  (Z.pos m * 2 ^ Z.max e 0 * 10 ^ Z.max (- p) 0
   / (2 ^ Z.max (- e) 0 * 10 ^ Z.max p 0))%Z.

(** Of [s * 10^p] and [(s + 1) * 10^p], whether the second is nearer to
    [m * 2^e]; at equal distance the even one is. *)
Definition upperNearer (m : positive) (e s p : Z) : bool :=
  match compareWith (2 * s + 1) p (8 * Z.pos m) e with
  | Lt => true
  | Eq => Z.odd s
  | Gt => false
  end.

(** The digits [s] and the exponent [n] of the text, with [k] digits tried
    first and more digits while none reads back. *)
Fixpoint shortestFrom (fuel : nat) (m : positive) (e n k : Z) : Z * Z :=
  let p := (n - k)%Z in
  let s := digitsBelow m e p in
  let lower := readsBack m e s p in
  let upper := readsBack m e (s + 1) p in
  let found (s : Z) := if (s =? 10 ^ k)%Z then (s / 10, n + 1)%Z else (s, n) in
  if lower && upper
  then found (if upperNearer m e s p then s + 1 else s)%Z
  else if lower then found s
  else if upper then found (s + 1)%Z
  else
    match fuel with
    | O => (s, n)
    | S fuel => shortestFrom fuel m e n (k + 1)%Z
    end.

Definition zeros (n : Z) : string :=
  String.concat "" (replicate (Z.to_nat n) "0").

(** The text of the digits [s] with exponent [n], in plain or in
    exponential form. *)
Definition layout (s n : Z) : string :=
  let digits := pretty s in
  let k := Z.of_nat (String.length digits) in
  if (k <=? n)%Z && (n <=? 21)%Z then (digits ++ zeros (n - k))%string
  else if (0 <? n)%Z && (n <=? 21)%Z
  then (String.substring 0 (Z.to_nat n) digits ++ "."
        ++ String.substring (Z.to_nat n) (Z.to_nat (k - n)) digits)%string
  else if (-6 <? n)%Z && (n <=? 0)%Z
  then ("0." ++ zeros (- n) ++ digits)%string
  else
    let exponent :=
      ((if (n - 1 <? 0)%Z then "-" else "+") ++ pretty (Z.abs (n - 1)))%string in
    if (k =? 1)%Z then (digits ++ "e" ++ exponent)%string
    else (String.substring 0 1 digits ++ "."
          ++ String.substring 1 (Z.to_nat (k - 1)) digits ++ "e" ++ exponent)%string.

Definition toStringDigits (x : float) : string :=
  match Prim2SF x with
  | S754_nan => "NaN"
  | S754_infinity s => if s then "-Infinity" else "Infinity"
  | S754_zero _ => "0"
  | S754_finite s m e =>
      let '(digits, n) := shortestFrom 17 m e (magnitude m e) 1 in
      ((if s then "-" else "") ++ layout digits n)%string
  end.

#[global] Instance format : JS.NumberFormat :=
  {| JS.toFixed := toFixedDigits;
     JS.toString_shortest := toStringDigits |}.

End Reference.

(** ** The vocabulary of the statements

    The notions of the specification, written from its words, and the
    conditions under which its statements are proved. *)

Module Spec.

(** The three-star heuristic of the specification: the facts it names
    about a spot, the score and the stars they give. *)
Record Facts : Set := {
  backward : bool;
  routeOver2500m : bool;
  routeOver1800m : bool;
  chain : bool;
  nearStart : bool;
  noOpeningHours : bool;
  noPhone : bool;
  noWebsite : bool
}.

Definition score (f : Facts) : Z :=
  (100
   - (if backward f then 40 else 0)
   - (if routeOver2500m f then 30 else if routeOver1800m f then 20 else 0)
   - (if chain f then 20 else 0)
   - (if nearStart f then 25 else 0)
   - (if noOpeningHours f then 10 else 0)
   - (if noPhone f then 10 else 0)
   - (if noWebsite f then 10 else 0))%Z.

Definition stars (score : Z) : Stars :=
  if (70 <=? score)%Z then Star3
  else if (30 <=? score)%Z then Star2
  else Star1.

(** A distance, when the spot has one, exceeds [km]. *)
Definition exceeds (distance : option float) (km : float) : bool :=
  match distance with
  | Some d => km <? d
  | None => false
  end.

(** An optional text is missing: absent, or present and empty. *)
Definition missing (text : option string) : bool :=
  match text with
  | Some s => bool_decide (s = ""%string)
  | None => true
  end.

Definition factsOf {engine : JS.MathEngine} (spot : Spot.t)
    (startPoint endPoint : Point.t) : Facts :=
  {| backward := OverpassService.isBackward (Spot.asPoint spot) startPoint endPoint;
     routeOver2500m := exceeds (Spot.distanceFromRoute spot) 2.5;
     routeOver1800m := exceeds (Spot.distanceFromRoute spot) 1.8;
     chain := bool_decide (Spot.isChain spot = Some true);
     nearStart :=
       OverpassService.calculateDistance (Spot.asPoint spot) startPoint <=? 0.3;
     noOpeningHours := missing (Spot.openingHours spot);
     noPhone := missing (Spot.phone spot);
     noWebsite := missing (Spot.website spot) |}.

Definition noPenalty : Facts :=
  {| backward := false; routeOver2500m := false; routeOver1800m := false;
     chain := false; nearStart := false; noOpeningHours := false;
     noPhone := false; noWebsite := false |}.

(** The score a rating was computed from, when it was scored. *)
Definition scoreOf (r : OverpassService.Rating) : option float :=
  match OverpassService.ratingDebugInfo r with
  | Scored _ score => Some score
  | MajorChainFixed => None
  end.

(** The point at parameter [t] of the straight segment, in raw
    latitude and longitude. *)
Definition pointAt (start end_ : Point.t) (t : float) : Point.t :=
  {| Point.lat := Point.lat start + (Point.lat end_ - Point.lat start) * t;
     Point.lng := Point.lng start + (Point.lng end_ - Point.lng start) * t;
     Point.name := None |}.

(** The tag rules the category is derived from: an amenity of restaurant,
    fast_food, cafe or fuel, a tourism of attraction or museum, or a shop
    tag. *)
Definition recognized (tags : gmap string string) : Prop :=
  tags !! "amenity" = Some "restaurant"%string
  \/ tags !! "amenity" = Some "fast_food"%string
  \/ tags !! "amenity" = Some "cafe"%string
  \/ tags !! "amenity" = Some "fuel"%string
  \/ tags !! "tourism" = Some "attraction"%string
  \/ tags !! "tourism" = Some "museum"%string
  \/ is_Some (tags !! "shop").

(** Deduplication by identifier as the specification words it: walk the
    list and keep a spot when its identifier has not been seen before. *)
Fixpoint firstOccurrences (seen : list string) (spots : list Spot.t)
    : list Spot.t :=
  match spots with
  | [] => []
  | spot :: rest =>
      if bool_decide (Spot.id spot ∈ seen)
      then firstOccurrences seen rest
      else spot :: firstOccurrences (seen ++ [Spot.id spot]) rest
  end.

(** The value of a loop counter started at [i] after [k] increments. *)
Fixpoint counter (i : float) (k : nat) : float :=
  match k with
  | O => i
  | S k' => counter (i + 1) k'
  end.

(** A number that is neither NaN nor an infinity. *)
Definition finite (x : float) : bool :=
  match classify x with
  | NaN | PInf | NInf => false
  | _ => true
  end.

(** Coordinates that are numbers: a finite longitude, and a latitude whose
    angle in radians is finite as the distance computes it, which is every
    latitude up to about 5.7e307 in magnitude. *)
Definition finiteCoordinates (p : Point.t) : bool :=
  finite (Point.lat p * JS.PI / 180) && finite (Point.lng p).

(** What the engines in use provide beyond ECMA-262: an odd sine, and a
    cosine within -1..1 on finite arguments. *)
Definition sinOdd (engine : JS.MathEngine) : Prop :=
  forall x, JS.sin_approx (- x) = - JS.sin_approx x.

Definition cosInRange (engine : JS.MathEngine) : Prop :=
  forall x, finite x = true ->
    (-1 <=? JS.cos_approx x) = true /\ (JS.cos_approx x <=? 1) = true.

(** The point a click at [(lat, lng)] reports. *)
Definition clickedPoint {format : JS.NumberFormat} (lat lng : float)
    : Point.t :=
  {| Point.lat := lat; Point.lng := lng;
     Point.name := Some (JS.toFixed lat 4 ++ ", " ++ JS.toFixed lng 4)%string |}.

(** A sequence of clicks, each at a pair of coordinates. *)
Definition clickAll {format : JS.NumberFormat} (clicks : list (float * float))
    (st : App.State) : App.State :=
  foldl (fun st click => App.handleMapClick (fst click) (snd click) st)
        st clicks.

(** What one search contributes to a roll: its spots, or nothing when it
    failed. *)
Definition contribution (result : JS.Exc (list Spot.t)) : list Spot.t :=
  match result with
  | JS.Return spots => spots
  | JS.Throw _ => []
  end.

(** The candidates of a roll: the contributions of the searches around the
    selected points, in order; request [k] is the first. *)
Fixpoint aggregated {engine : JS.MathEngine} {format : JS.NumberFormat}
    (net : nat -> OverpassService.Fetch) (searchRadius : float)
    (category : Category) (selectedMidPoints : list Point.t) (k : nat)
    : list Spot.t :=
  match selectedMidPoints with
  | [] => []
  | midPoint :: rest =>
      contribution (OverpassService.searchSpots (net k) midPoint midPoint
                      searchRadius category)
      ++ aggregated net searchRadius category rest (S k)
  end.

(** The query [searchSpots] sends for a point, a radius and a category. *)
Definition queryFor {engine : JS.MathEngine} (startPoint endPoint : Point.t)
    (radius : float) (category : Category) : OverpassService.OverpassQuery :=
  OverpassService.buildOverpassQuery
    (OverpassService.calculateBoundingBox
       (OverpassService.calculateMidPoint startPoint endPoint) radius)
    category.

(** The spots a roll shows, from its candidates. *)
Definition shownSpots {engine : JS.MathEngine} (env : App.RollEnv)
    (start end_ : Point.t) (candidates : list Spot.t) : list Spot.t :=
  OverpassService.selectRandomSpotsWithoutRating (App.rndSpots env)
    (OverpassService.addRatingsToSpots (App.uniqueSpots candidates) start end_)
    3.

(** The positions of a list of [n] items that a selection of [k] of them
    takes, in the order taken: the shuffle run on the positions themselves. *)
Definition drawnPositions (rnd : OverpassService.Draws) (n k : nat)
    : list nat :=
  take k (OverpassService.shuffleFrom rnd (n - 1) (seq 0 n)).


(** A number of magnitude at most 2^1022 (about 4.5e307): its double is
    still a finite number. *)
Definition moderate (x : float) : bool :=
  (-0x1p1022 <=? x) && (x <=? 0x1p1022).

(** The tag filter of a query line: [["k"="v"]] holds of an element whose
    tag [k] is [v], [["k"]] of an element that has the tag [k]. *)
Definition matches (tags : gmap string string)
    (selector : OverpassService.Selector) : Prop :=
  match OverpassService.value selector with
  | Some v => tags !! OverpassService.key selector = Some v
  | None => is_Some (tags !! OverpassService.key selector)
  end.

(** The points a penalty of the debug trace stands for. *)
Definition points (p : Penalty) : nat :=
  match p with
  | RouteBackward => 40
  | RouteFar _ => 30
  | RouteSlightlyFar => 20
  | GeneralChain => 20
  | NearStart _ => 25
  | NoOpeningHours | NoPhone | NoWebsite => 10
  end.

(** What the user does on the page: a click on the map, the reset
    button, the gacha button (with what the roll draws from outside), the
    category menu.  Each action is handled to its end before the next. *)
Inductive Event : Type :=
| Click (lat lng : float)
| Reset
| Roll (env : App.RollEnv)
| ChooseCategory (category : Category).

Definition handle {engine : JS.MathEngine} {format : JS.NumberFormat}
    (st : App.State) (event : Event) : App.State :=
  match event with
  | Click lat lng => App.handleMapClick lat lng st
  | Reset => App.handleReset st
  | Roll env => App.handleGachaRoll env st
  | ChooseCategory category => App.setSelectedCategory st category
  end.

Definition run {engine : JS.MathEngine} {format : JS.NumberFormat}
    (events : list Event) (st : App.State) : App.State :=
  foldl handle st events.

(** A spot that went through [addRatingsToSpots]: it has its stars, its
    distance from the route and its debug text. *)
Definition rated (spot : Spot.t) : Prop :=
  is_Some (Spot.stars spot)
  /\ is_Some (Spot.distanceFromRoute spot)
  /\ is_Some (Spot.debugInfo spot).

(** The candidates of a roll from [start] to [end_] in state [st]: what
    the searches around the selected sample points contribute. *)
Definition candidates {engine : JS.MathEngine} {format : JS.NumberFormat}
    (env : App.RollEnv)
    (st : App.State) (start end_ : Point.t) : list Spot.t :=
  aggregated (App.network env)
    (OverpassService.calculateSearchRadius start end_)
    (App.selectedCategory st)
    (OverpassService.selectRandomMidPoints (App.rndMidPoints env)
       (OverpassService.calculateNearDestinationPoints start end_ 5) 3)
    0.

(** What the page relies on when it renders a state: nothing is loading,
    at most three spots are shown, shown spots and history have no repeated
    identifier, every shown spot is in the history, and all of them are
    rated. *)
Definition consistent (st : App.State) : Prop :=
  App.isLoading st = false
  /\ (length (App.gachaSpots st) <= 3)%nat
  /\ NoDup (map Spot.id (App.gachaSpots st))
  /\ NoDup (map Spot.id (App.allGachaHistory st))
  /\ (forall i : string,
        i ∈ map Spot.id (App.gachaSpots st) ->
        i ∈ map Spot.id (App.allGachaHistory st))
  /\ Forall rated (App.gachaSpots st)
  /\ Forall rated (App.allGachaHistory st).

End Spec.

(** ** Sample data

    Concrete inputs on which the statements below are run. *)

Module Samples.

Definition shinjuku : Point.t :=
  {| Point.lat := 35.6896; Point.lng := 139.6917; Point.name := Some "新宿駅" |}.

Definition shibuya : Point.t :=
  {| Point.lat := 35.6580; Point.lng := 139.7016; Point.name := Some "渋谷駅" |}.

(** A point whose latitude is not a number. *)
Definition nowhere : Point.t :=
  {| Point.lat := nan; Point.lng := 0; Point.name := None |}.

(** A point with a finite latitude far outside the globe. *)
Definition faraway : Point.t :=
  {| Point.lat := 1e308; Point.lng := 0; Point.name := None |}.

Definition spotWith (id name : string) (lat lng : float)
    (isChain isMajorChain : option bool) (phone website openingHours : option string)
    : Spot.t :=
  {| Spot.id := id; Spot.name := name; Spot.lat := lat; Spot.lng := lng;
     Spot.type := "cafe"; Spot.category := cafe;
     Spot.description := Some "cafe"; Spot.address := Some "";
     Spot.phone := phone; Spot.website := website;
     Spot.openingHours := openingHours; Spot.cuisine := None;
     Spot.rating := None; Spot.isChain := isChain; Spot.chainName := None;
     Spot.isMajorChain := isMajorChain; Spot.stars := None;
     Spot.distanceFromRoute := None; Spot.debugInfo := None |}.

(** An independent cafe half way along the route, fully documented. *)
Definition kissaten : Spot.t :=
  spotWith "node_1" "喫茶店" 35.6738 139.6967 (Some false) (Some false)
    (Some "03-0000-0000") (Some "https://example.org") (Some "Mo-Su 08:00-20:00").

(** A major chain at the same place. *)
Definition burgerChain : Spot.t :=
  spotWith "node_2" "McDonald's" 35.6738 139.6967 (Some true) (Some true)
    None None None.

(** An independent cafe north of Shinjuku station, behind the start of
    the route to Shibuya. *)
Definition behindStart : Spot.t :=
  spotWith "node_3" "裏の喫茶" 35.72 139.6917 (Some false) (Some false)
    (Some "03-0000-0001") (Some "https://example.org/ura") (Some "Mo-Fr 09:00-18:00").

(** An API element: a named cafe. *)
Definition cafeElement (id : float) (name : string) (lat lon : float)
    : OverpassElement.t :=
  {| OverpassElement.type := "node"; OverpassElement.id := id;
     OverpassElement.lat := lat; OverpassElement.lon := lon;
     OverpassElement.tags :=
       {[ "name" := name; "amenity" := "cafe"%string ]} |}.

(** An API element of a major chain, recognisable by its name only. *)
Definition burgerElement : OverpassElement.t :=
  {| OverpassElement.type := "node"; OverpassElement.id := 7;
     OverpassElement.lat := 35.6738; OverpassElement.lon := 139.6967;
     OverpassElement.tags :=
       {[ "name" := "McDonald's 新宿店"%string;
          "amenity" := "fast_food"%string;
          "opening_hours" := "24/7"%string ]} |}.

Definition okResponse (elements : list OverpassElement.t)
    : OverpassService.HttpResponse :=
  {| OverpassService.ok := true; OverpassService.status := 200;
     OverpassService.json :=
       JS.Return {| version := 0.6; generator := "Overpass API";
                    elements := elements |} |}.

(** A network whose second request is refused by the transport and whose
    other requests each return one cafe. *)
Definition flakyNetwork (k : nat) : OverpassService.Fetch :=
  fun _ =>
    match k with
    | 1%nat => JS.Throw "TypeError: Failed to fetch"
    | _ =>
        JS.Return
          (okResponse [cafeElement (JS.ofNat k) "喫茶" 35.6738 139.6967])
    end.

(** A network that answers every request with status 429. *)
Definition busyNetwork (k : nat) : OverpassService.Fetch :=
  fun _ =>
    JS.Return
      {| OverpassService.ok := false; OverpassService.status := 429;
         OverpassService.json := JS.Throw "SyntaxError" |}.

(** Draws that always give position 0. *)
Definition zeroDraws : OverpassService.Draws := fun i => 0%fin.

Definition flakyRoll : App.RollEnv :=
  {| App.rndMidPoints := zeroDraws; App.rndSpots := zeroDraws;
     App.network := flakyNetwork |}.

Definition busyRoll : App.RollEnv :=
  {| App.rndMidPoints := zeroDraws; App.rndSpots := zeroDraws;
     App.network := busyNetwork |}.

End Samples.

(** ** Magnitudes of binary64 values *)

Module Magnitude.

(** A zero, or a finite value whose exponent is at most [k]. *)
Definition bexp (x : spec_float) (k : Z) : Prop :=
  match x with
  | S754_zero _ => True
  | S754_finite _ _ e => (e <= k)%Z
  | _ => False
  end.

Definition within (x : float) (k : Z) : Prop := bexp (Prim2SF x) k.

End Magnitude.

(** ** Signs of binary64 values *)

Module Sign.

(** NaN, or a value (zero, finite or infinite) whose sign bit is [s]. *)
Definition signed (s : bool) (x : spec_float) : Prop :=
  match x with
  | S754_nan => True
  | S754_zero s' | S754_infinity s' | S754_finite s' _ _ => s' = s
  end.

(** NaN, a zero of either sign, or a value whose sign bit is [s]. *)
Definition zeroOrSigned (s : bool) (x : spec_float) : Prop :=
  match x with
  | S754_nan | S754_zero _ => True
  | S754_infinity s' | S754_finite s' _ _ => s' = s
  end.

(** NaN or a zero. *)
Definition zeroOrNaN (x : spec_float) : Prop :=
  match x with
  | S754_nan | S754_zero _ => True
  | _ => False
  end.

End Sign.

(** * Properties *)

(** ** Binary64 arithmetic

    Facts about the primitive operations, derived from their
    specification in [SpecFloat]: comparisons, the symmetry of rounding
    under a change of sign, and bounds that exclude overflow. *)

Module FloatFacts.
Import Magnitude.

(** Comparison *)
Lemma SFcompare_antisym x y :
  SFcompare y x = option_map CompOpp (SFcompare x y).
Proof.
  destruct x as [sx|sx| |sx mx ex], y as [sy|sy| |sy my ey]; simpl;
    try reflexivity; try (destruct sx; reflexivity); try (destruct sy; reflexivity);
    try (destruct sx, sy; reflexivity).
  f_equal. destruct sx, sy; simpl; try reflexivity.
  - rewrite (Z.compare_antisym ey ex). destruct (ey ?= ex)%Z; simpl; try reflexivity.
    rewrite (Pos.compare_cont_antisym mx my Eq). simpl.
    destruct (Pos.compare_cont Eq mx my); reflexivity.
  - rewrite (Z.compare_antisym ey ex). destruct (ey ?= ex)%Z; simpl; try reflexivity.
    rewrite (Pos.compare_cont_antisym mx my Eq). reflexivity.
Qed.

Lemma ltb_leb_false a b : (a <? b) = true -> (b <=? a) = false.
Proof.
  rewrite ltb_spec, leb_spec. unfold SFltb, SFleb.
  rewrite (SFcompare_antisym (Prim2SF a) (Prim2SF b)).
  destruct (SFcompare (Prim2SF a) (Prim2SF b)) as [[]|]; simpl; congruence.
Qed.

Lemma leb_false_ltb a d : (a <=? a) = true -> (d <=? d) = true ->
  (d <=? a) = false -> (a <? d) = true.
Proof.
  rewrite !leb_spec, ltb_spec. unfold SFltb, SFleb.
  rewrite (SFcompare_antisym (Prim2SF d) (Prim2SF a)).
  destruct (SFcompare (Prim2SF d) (Prim2SF a)) as [[]|] eqn:E; simpl; try congruence.
  intros Ha Hd _. exfalso.
  destruct (Prim2SF a), (Prim2SF d); simpl in *; try discriminate;
   repeat match goal with s : bool |- _ => destruct s end; discriminate.
Qed.

Lemma leb_refl_of_leb d b : (d <=? b) = true -> (d <=? d) = true.
Proof.
  rewrite !leb_spec. unfold SFleb.
  destruct (Prim2SF d) as [s|s| |s m e], (Prim2SF b); simpl; try congruence;
    try (destruct s; reflexivity).
  all: destruct s; simpl; rewrite ?Z.compare_refl, ?Pos.compare_cont_refl; reflexivity.
Qed.

(** The comparisons of [SFcompare], one case after the other. *)
Ltac compare_cases :=
  repeat match goal with
  | H : context [Pos.compare_cont Eq ?x ?y] |- _ =>
      change (Pos.compare_cont Eq x y) with (Pos.compare x y) in H
  | |- context [Pos.compare_cont Eq ?x ?y] =>
      change (Pos.compare_cont Eq x y) with (Pos.compare x y)
  end;
  repeat match goal with
  | H : context [(?x ?= ?y)%Z] |- _ => destruct (Z.compare_spec x y); simpl in H
  | |- context [(?x ?= ?y)%Z] => destruct (Z.compare_spec x y); simpl
  | H : context [(?x ?= ?y)%positive] |- _ =>
      destruct (Pos.compare_spec x y); simpl in H
  | |- context [(?x ?= ?y)%positive] => destruct (Pos.compare_spec x y); simpl
  end;
  try discriminate; try reflexivity; try lia.

Lemma SFleb_trans a b c :
  SFleb a b = true -> SFleb b c = true -> SFleb a c = true.
Proof.
  unfold SFleb.
  destruct a as [sa|sa| |sa ma ea], b as [sb|sb| |sb mb eb],
    c as [sc|sc| |sc mc ec]; simpl;
    try discriminate; try reflexivity;
    repeat match goal with s : bool |- _ => destruct s end; simpl;
    try discriminate; try reflexivity;
    intros H1 H2; compare_cases.
Qed.

Lemma leb_trans a b c :
  (a <=? b) = true -> (b <=? c) = true -> (a <=? c) = true.
Proof. rewrite !leb_spec. apply SFleb_trans. Qed.

Lemma leb_false_below a b d :
  (a <=? b) = true -> (d <=? b) = false -> (d <=? a) = false.
Proof.
  intros Hab Hdb. destruct (d <=? a) eqn:Hda; [|reflexivity].
  now rewrite (leb_trans d a b Hda Hab) in Hdb.
Qed.

(** Sign symmetry of rounding *)
Lemma binary_round_aux_opp s m e l :
  binary_round_aux prec emax (negb s) m e l
  = SFopp (binary_round_aux prec emax s m e l).
Proof.
  unfold binary_round_aux.
  destruct (shr_fexp prec emax m e l) as [mrs' e'].
  destruct (shr_fexp prec emax _ e' loc_Exact) as [mrs'' e''].
  destruct (shr_m mrs''); try reflexivity.
  destruct (e'' <=? emax - prec)%Z; reflexivity.
Qed.

Lemma binary_round_opp s m e :
  binary_round prec emax (negb s) m e = SFopp (binary_round prec emax s m e).
Proof.
  unfold binary_round.
  destruct (shl_align m e _) as [mz ez]. apply binary_round_aux_opp.
Qed.

Lemma SFopp_involutive x : SFopp (SFopp x) = x.
Proof. destruct x; simpl; rewrite ?negb_involutive; reflexivity. Qed.

Lemma SFmul_comm x y : SF64mul x y = SF64mul y x.
Proof.
  destruct x as [sx|sx| |sx mx ex], y as [sy|sy| |sy my ey]; simpl;
    rewrite ?(xorb_comm sx sy); try reflexivity.
  now rewrite Pos.mul_comm, Z.add_comm.
Qed.

Lemma SFmul_opp_l x y : SF64mul (SFopp x) y = SFopp (SF64mul x y).
Proof.
  destruct x as [sx|sx| |sx mx ex], y as [sy|sy| |sy my ey]; simpl;
    rewrite <- ?negb_xorb_l; try reflexivity.
  apply binary_round_aux_opp.
Qed.

Lemma SFdiv_opp_l x y : SF64div (SFopp x) y = SFopp (SF64div x y).
Proof.
  destruct x as [sx|sx| |sx mx ex], y as [sy|sy| |sy my ey]; simpl;
    rewrite <- ?negb_xorb_l; try reflexivity.
  destruct (SFdiv_core_binary prec emax _ ex _ ey) as [[mz ez] lz].
  apply binary_round_aux_opp.
Qed.

Lemma SFsub_antisym x y :
  SF64sub x y = SFopp (SF64sub y x)
  \/ (SF64sub x y = S754_zero false /\ SF64sub y x = S754_zero false).
Proof.
  destruct x as [sx|sx| |sx mx ex], y as [sy|sy| |sy my ey];
    try (left; reflexivity);
    try (destruct sx, sy; simpl; auto; fail);
    try (left; simpl; rewrite ?negb_involutive; reflexivity).
  unfold SF64sub, SFsub. rewrite (Z.min_comm ey ex).
  set (ez := Z.min ex ey).
  set (a := cond_Zopp sx (Z.pos (fst (shl_align mx ex ez)))).
  set (b := cond_Zopp sy (Z.pos (fst (shl_align my ey ez)))).
  replace (b - a)%Z with (- (a - b))%Z by lia.
  destruct (a - b)%Z as [|p|p]; simpl.
  - right; split; reflexivity.
  - left. apply (binary_round_opp true).
  - left. change false with (negb true). rewrite binary_round_opp.
    now rewrite SFopp_involutive.
Qed.

Lemma opp_involutive x : - - x = x.
Proof. apply Prim2SF_inj. rewrite !opp_spec. apply SFopp_involutive. Qed.

Lemma mul_comm x y : x * y = y * x.
Proof. apply Prim2SF_inj. rewrite !mul_spec. apply SFmul_comm. Qed.

Lemma mul_opp_l x y : (- x) * y = - (x * y).
Proof. apply Prim2SF_inj. rewrite opp_spec, !mul_spec, opp_spec. apply SFmul_opp_l. Qed.

Lemma mul_opp_r x y : x * (- y) = - (x * y).
Proof. rewrite mul_comm, mul_opp_l. f_equal. apply mul_comm. Qed.

Lemma mul_opp_opp x y : (- x) * (- y) = x * y.
Proof. rewrite mul_opp_l, mul_opp_r. apply opp_involutive. Qed.

Lemma div_opp_l x y : (- x) / y = - (x / y).
Proof. apply Prim2SF_inj. rewrite opp_spec, !div_spec, opp_spec. apply SFdiv_opp_l. Qed.

Lemma sub_antisym x y : x - y = - (y - x) \/ (x - y = 0 /\ y - x = 0).
Proof.
  destruct (SFsub_antisym (Prim2SF x) (Prim2SF y)) as [H|[H1 H2]].
  - left. apply Prim2SF_inj. now rewrite opp_spec, !sub_spec.
  - right. split; apply Prim2SF_inj; rewrite sub_spec; assumption.
Qed.



Lemma digits2_pos_size p : digits2_pos p = Pos.size p.
Proof. induction p; simpl; congruence. Qed.

Lemma Zdigits2_log2 m : (0 < m)%Z -> Zdigits2 m = (Z.log2 m + 1)%Z.
Proof.
  destruct m as [|p|p]; try lia. intros _. simpl. rewrite digits2_pos_size.
  destruct p; simpl; lia.
Qed.

Lemma Zdigits2_nonneg m : (0 <= Zdigits2 m)%Z.
Proof. destruct m; simpl; lia. Qed.

Lemma Zdigits2_mono a b : (0 <= a <= b)%Z -> (Zdigits2 a <= Zdigits2 b)%Z.
Proof.
  intros [Ha Hab]. destruct (Z.eq_dec a 0%Z) as [->|Hne].
  - apply Zdigits2_nonneg.
  - rewrite !Zdigits2_log2 by lia. pose proof (Z.log2_le_mono a b Hab). lia.
Qed.

Lemma Zdigits2_lt_pow2 m k : (0 <= m < 2 ^ k)%Z -> (0 <= k)%Z -> (Zdigits2 m <= k)%Z.
Proof.
  intros [Hm Hlt] Hk. destruct (Z.eq_dec m 0%Z) as [->|Hne]; [simpl; lia|].
  rewrite Zdigits2_log2 by lia.
  assert (Z.log2 m < k)%Z by (apply Z.log2_lt_pow2; lia). lia.
Qed.

Lemma Zdigits2_pow2_gt m : (0 < m)%Z -> (m < 2 ^ Zdigits2 m)%Z.
Proof.
  intros Hm. rewrite Zdigits2_log2 by lia.
  pose proof (Z.log2_spec m Hm). replace (Z.log2 m + 1)%Z with (Z.succ (Z.log2 m)) by lia. lia.
Qed.

Lemma Zdigits2_succ m : (0 <= m)%Z -> (Zdigits2 (m + 1) <= Zdigits2 m + 1)%Z.
Proof.
  intros Hm. destruct (Z.eq_dec m 0%Z) as [->|Hne]; [simpl; lia|].
  apply Z.le_trans with (Zdigits2 (2 * m)).
  - apply Zdigits2_mono. lia.
  - rewrite !Zdigits2_log2 by lia. rewrite Z.log2_double by lia. lia.
Qed.

Lemma shr_1_bound r : (0 <= shr_m r)%Z -> (0 <= shr_m (shr_1 r) <= shr_m r)%Z.
Proof.
  destruct r as [m r s]. simpl. intros Hm.
  destruct m as [|[p|p|]|p]; simpl; lia.
Qed.

Lemma iter_shr_1_bound p : forall r,
  (0 <= shr_m r)%Z -> (0 <= shr_m (SpecFloat.iter_pos shr_1 p r) <= shr_m r)%Z.
Proof.
  induction p as [p IH|p IH|]; intros r Hr; simpl.
  - pose proof (shr_1_bound r Hr) as H1.
    pose proof (IH (shr_1 r) (proj1 H1)) as H2.
    pose proof (IH _ (proj1 H2)) as H3. lia.
  - pose proof (IH r Hr) as H2.
    pose proof (IH _ (proj1 H2)) as H3. lia.
  - apply shr_1_bound, Hr.
Qed.

Lemma shr_record_of_loc_m m l : shr_m (shr_record_of_loc m l) = m.
Proof. destruct l as [|[]]; reflexivity. Qed.

Lemma shr_fexp_bound m e l mrs e' :
  (0 <= m)%Z -> shr_fexp prec emax m e l = (mrs, e') ->
  (0 <= shr_m mrs <= m)%Z /\ (e' <= Z.max e (fexp prec emax (Zdigits2 m + e)))%Z.
Proof.
  intros Hm. unfold shr_fexp, shr.
  destruct (fexp prec emax (Zdigits2 m + e) - e)%Z as [|p|p] eqn:E; intros [= <- <-].
  - rewrite shr_record_of_loc_m. lia.
  - pose proof (iter_shr_1_bound p (shr_record_of_loc m l)) as H.
    rewrite shr_record_of_loc_m in H. specialize (H Hm). lia.
  - rewrite shr_record_of_loc_m. lia.
Qed.

Lemma round_nearest_even_bound m l :
  (0 <= m)%Z -> (m <= round_nearest_even m l <= m + 1)%Z.
Proof. intros Hm. destruct l as [|[]]; simpl; try lia. destruct (Z.even m); lia. Qed.

(** Rounding a mantissa of at most [D] digits at an exponent of at most [K]
    gives a zero or a finite value, as long as the bound [K'] fits. *)
Lemma binary_round_aux_bexp s m e l D K K' :
  (0 <= m)%Z -> (Zdigits2 m <= D)%Z -> (53 <= D)%Z -> (e <= K)%Z ->
  (emin + D - 52 <= K')%Z -> (K + 2 * D - 105 <= K')%Z -> (K' <= emax - prec)%Z ->
  bexp (binary_round_aux prec emax s m e l) K'.
Proof.
  intros Hm HD H53 He Hmin HK Hmax. unfold binary_round_aux.
  destruct (shr_fexp prec emax m e l) as [mrs1 e1] eqn:E1.
  destruct (shr_fexp_bound _ _ _ _ _ Hm E1) as [Hm1 He1].
  set (m2 := round_nearest_even (shr_m mrs1) (loc_of_shr_record mrs1)).
  pose proof (round_nearest_even_bound (shr_m mrs1) (loc_of_shr_record mrs1) (proj1 Hm1)) as Hm2.
  fold m2 in Hm2.
  destruct (shr_fexp prec emax m2 e1 loc_Exact) as [mrs2 e2] eqn:E2.
  assert (0 <= m2)%Z as Hm2' by lia.
  destruct (shr_fexp_bound _ _ _ _ _ Hm2' E2) as [Hm3 He2].
  assert (Zdigits2 (shr_m mrs1) <= D)%Z as Hd1.
  { etransitivity; [apply Zdigits2_mono|exact HD]. lia. }
  assert (Zdigits2 m2 <= D + 1)%Z as Hd2.
  { etransitivity; [apply Zdigits2_mono with (b := (shr_m mrs1 + 1)%Z); lia|].
    pose proof (Zdigits2_succ (shr_m mrs1) (proj1 Hm1)). lia. }
  pose proof (Zdigits2_nonneg m) as Hd0.
  unfold fexp, emin, prec, emax in *.
  assert (e2 <= K')%Z as Hfin by lia.
  destruct (shr_m mrs2) as [|p|p] eqn:E3; simpl; try lia.
  replace (e2 <=? 1024 - 53)%Z with true by (symmetry; apply Z.leb_le; lia).
  simpl. exact Hfin.
Qed.


Lemma bounded_digits m e :
  bounded prec emax m e = true -> (Z.pos (digits2_pos m) <= 53)%Z.
Proof.
  unfold bounded, canonical_mantissa, fexp, emin, prec, emax.
  intros H. apply andb_prop in H as [H _]. apply Z.eqb_eq in H. lia.
Qed.

Lemma bounded_lt_pow2 m e :
  bounded prec emax m e = true -> (Z.pos m < 2 ^ 53)%Z.
Proof.
  intros H. apply bounded_digits in H.
  pose proof (Zdigits2_pow2_gt (Z.pos m) eq_refl) as Hlt. simpl in Hlt.
  eapply Z.lt_le_trans; [exact Hlt|]. apply Z.pow_le_mono_r; lia.
Qed.

Lemma bexp_weaken x k k' : bexp x k -> (k <= k')%Z -> bexp x k'.
Proof. destruct x; simpl; auto; lia. Qed.

Lemma SFmul_bexp x y kx ky k' :
  valid_binary x = true -> valid_binary y = true ->
  bexp x kx -> bexp y ky ->
  (kx + ky + 107 <= k')%Z -> (emin + 54 <= k')%Z -> (k' <= emax - prec)%Z ->
  bexp (SF64mul x y) k'.
Proof.
  intros Vx Vy Hx Hy Hk Hmin Hmax.
  destruct x as [sx|sx| |sx mx ex], y as [sy|sy| |sy my ey]; simpl in *;
    try exact I; try contradiction.
  apply bounded_lt_pow2 in Vx, Vy.
  apply binary_round_aux_bexp with (D := 106%Z) (K := (kx + ky)%Z); try lia.
  apply Zdigits2_lt_pow2; [|lia]. split; [lia|].
  change (2 ^ 106)%Z with (2 ^ 53 * 2 ^ 53)%Z. rewrite Pos2Z.inj_mul. nia.
Qed.

Lemma SFdiv_bexp x sy my ey kx k' :
  valid_binary x = true -> bounded prec emax my ey = true ->
  bexp x kx ->
  (kx - ey + 107 <= k')%Z -> (emin + 54 <= k')%Z -> (k' <= emax - prec)%Z ->
  bexp (SF64div x (S754_finite sy my ey)) k'.
Proof.
  intros Vx Vy Hx Hk Hmin Hmax.
  destruct x as [sx|sx| |sx mx ex]; simpl in *; try exact I; try contradiction.
  pose proof (bounded_digits _ _ Vx) as Dx. pose proof (bounded_digits _ _ Vy) as Dy.
  unfold SFdiv_core_binary.
  set (d1 := Zdigits2 (Z.pos mx)). set (d2 := Zdigits2 (Z.pos my)).
  set (e' := Z.min (fexp prec emax (d1 + ex - (d2 + ey))) (ex - ey)).
  set (sh := (ex - ey - e')%Z).
  set (m' := match sh with Z.pos _ => Z.shiftl (Z.pos mx) sh | 0%Z => Z.pos mx | Z.neg _ => 0%Z end).
  assert (0 <= sh)%Z as Hsh by (unfold sh, e'; lia).
  assert (d1 <= 53 /\ d2 <= 53 /\ 0 < d1 /\ 0 < d2)%Z as (Hd1 & Hd2 & Hd1' & Hd2').
  { unfold d1, d2; simpl; lia. }
  assert (d1 + sh <= 106)%Z as Hds.
  { unfold sh, e', fexp, emin, prec, emax. lia. }
  assert (0 <= m' < 2 ^ 106)%Z as Hm'.
  { assert (m' = Z.pos mx * 2 ^ sh)%Z as ->.
    { unfold m'. destruct sh as [|p|p] eqn:E;
        [ rewrite Z.mul_1_r; reflexivity | apply Z.shiftl_mul_pow2; lia | lia ]. }
    pose proof (Zdigits2_pow2_gt (Z.pos mx) eq_refl) as Hlt. fold d1 in Hlt.
    assert (0 < 2 ^ sh)%Z by (apply Z.pow_pos_nonneg; lia).
    split; [lia|].
    apply Z.lt_le_trans with (2 ^ d1 * 2 ^ sh)%Z; [nia|].
    rewrite <- Z.pow_add_r by lia. apply Z.pow_le_mono_r; lia. }
  pose proof (Z_div_mod m' (Z.pos my) eq_refl) as Hdiv.
  destruct (Z.div_eucl m' (Z.pos my)) as [q r]. destruct Hdiv as [Hq Hr].
  assert (0 <= q <= m')%Z as Hqb by nia.
  apply binary_round_aux_bexp with (D := 106%Z) (K := (kx - ey)%Z); try lia.
  apply Zdigits2_lt_pow2; lia.
Qed.

Lemma SFleb_bexp x mc ec :
  SFleb x (S754_finite false mc ec) = true ->
  SFleb (S754_finite true mc ec) x = true ->
  bexp x ec.
Proof.
  unfold SFleb. destruct x as [s|s| |s m e]; simpl; try discriminate; try (intros; exact I).
  - destruct s; discriminate.
  - destruct s; intros H1 H2.
    + destruct (Z.compare_spec ec e); simpl in *; [lia | discriminate | lia].
    + destruct (Z.compare_spec e ec); simpl in *; [lia | lia | discriminate].
Qed.

Lemma SFsub_diag x k : bexp x k -> SF64sub x x = S754_zero false.
Proof.
  destruct x as [s|s| |s m e]; simpl; try contradiction; intros _.
  - destruct s; reflexivity.
  - unfold SF64sub, SFsub. rewrite Z.sub_diag. reflexivity.
Qed.

(** The same facts on primitive floats. *)

Lemma mul_within x y kx ky k' :
  within x kx -> within y ky ->
  (kx + ky + 107 <= k')%Z -> (emin + 54 <= k')%Z -> (k' <= emax - prec)%Z ->
  within (x * y) k'.
Proof.
  unfold within. rewrite mul_spec. intros.
  eapply SFmul_bexp; eauto using Prim2SF_valid.
Qed.

Lemma div_within x y sy my ey kx k' :
  Prim2SF y = S754_finite sy my ey ->
  within x kx ->
  (kx - ey + 107 <= k')%Z -> (emin + 54 <= k')%Z -> (k' <= emax - prec)%Z ->
  within (x / y) k'.
Proof.
  unfold within. rewrite div_spec. intros Hy. pose proof (Prim2SF_valid y) as Vy.
  rewrite Hy in *. intros. eapply SFdiv_bexp; eauto using Prim2SF_valid.
Qed.

Lemma leb_within x c mc ec :
  Prim2SF c = S754_finite false mc ec ->
  (x <=? c) = true -> (- c <=? x) = true -> within x ec.
Proof.
  unfold within. rewrite !leb_spec, opp_spec. intros ->. apply SFleb_bexp.
Qed.

Lemma sub_diag x k : within x k -> x - x = 0.
Proof.
  intros H. apply Prim2SF_inj. rewrite sub_spec. eapply SFsub_diag, H.
Qed.

End FloatFacts.

(** ** The rating heuristic *)

Module RatingFacts.
Import FloatFacts.

Lemma ltb_nan_r k d : is_nan d = true -> (k <? d) = false.
Proof.
  unfold is_nan. rewrite FloatAxioms.eqb_spec, ltb_spec. unfold SFeqb, SFltb.
  destruct (Prim2SF d) as [s|s| |s m e]; simpl.
  - discriminate.
  - destruct s; discriminate.
  - intros _. destruct (Prim2SF k); reflexivity.
  - destruct s; rewrite Z.compare_refl, Pos.compare_cont_refl; discriminate.
Qed.

Lemma ltb_zero_r k d : is_zero d = true -> (k <? d) = (k <? 0).
Proof.
  unfold is_zero. rewrite FloatAxioms.eqb_spec, !ltb_spec. unfold SFeqb, SFltb.
  change (Prim2SF zero) with (S754_zero false). change (Prim2SF 0) with (S754_zero false).
  destruct (Prim2SF d) as [s|s| |s m e]; simpl; try discriminate.
  - intros _. destruct (Prim2SF k); reflexivity.
  - destruct s; discriminate.
  - destruct s; discriminate.
Qed.

(** [spot.distanceFromRoute || 0] exceeds a positive bound exactly when
    the field does. *)
Lemma exceeds_or_zero (o : option float) (km : float) :
  (km <? 0) = false ->
  (km <? match o with
         | Some d => if JS.truthyNumber d then d else 0
         | None => 0
         end) = Spec.exceeds o km.
Proof.
  intros Hkm. destruct o as [d|]; simpl; [|exact Hkm].
  unfold JS.truthyNumber. destruct (is_nan d) eqn:Hnan; simpl.
  - now rewrite Hkm, (ltb_nan_r km d Hnan).
  - destruct (is_zero d) eqn:Hzero; simpl; [|reflexivity].
    symmetry. exact (ltb_zero_r km d Hzero).
Qed.

Lemma missing_not_truthy (o : option string) :
  negb (JS.truthyString o) = Spec.missing o.
Proof.
  destruct o as [s|]; simpl; [|reflexivity]. rewrite negb_involutive.
  destruct (String.eqb_spec s ""); [now rewrite bool_decide_eq_true_2|
                                     now rewrite bool_decide_eq_false_2].
Qed.

Lemma chain_truthy (o : option bool) :
  JS.truthyBool o = bool_decide (o = Some true).
Proof. destruct o as [[]|]; reflexivity. Qed.

End RatingFacts.

(** C1: for a spot that is not flagged as a major chain, the rating is the
    one the heuristic of the specification gives: the score starts at 100 and
    loses 40 when the spot is backward of the route, 30 when its distance from
    the route exceeds 2.5 km and otherwise 20 when it exceeds 1.8 km, 20 for a
    chain, 25 within 0.3 km of the start, 10 for each of missing opening
    hours, phone and website; the stars are 3 from 70 points, 2 from 30 and
    1 below.  With no penalty the score is 100 and the spot has 3 stars. *)
Theorem rating_follows_heuristic {engine : JS.MathEngine}
    (spot : Spot.t) (startPoint endPoint : Point.t) :
  Spot.isMajorChain spot <> Some true ->
  let rating := OverpassService.calculateSpotRating spot startPoint endPoint in
  let facts := Spec.factsOf spot startPoint endPoint in
  Spec.scoreOf rating = Some (JS.ofZ (Spec.score facts))
  /\ OverpassService.ratingStars rating = Spec.stars (Spec.score facts)
  /\ (facts = Spec.noPenalty ->
      Spec.scoreOf rating = Some 100
      /\ OverpassService.ratingStars rating = Star3).
Proof.
  intros Hmajor rating facts.
  assert (Spec.scoreOf rating = Some (JS.ofZ (Spec.score facts))
          /\ OverpassService.ratingStars rating = Spec.stars (Spec.score facts))
    as [Hscore Hstars].
  { subst rating facts.
    unfold OverpassService.calculateSpotRating, Spec.factsOf.
    rewrite RatingFacts.chain_truthy.
    rewrite bool_decide_eq_false_2 by exact Hmajor.
    rewrite !RatingFacts.exceeds_or_zero by reflexivity.
    rewrite !RatingFacts.missing_not_truthy, RatingFacts.chain_truthy.
    unfold Spec.score, Spec.scoreOf; cbn [Spec.backward Spec.routeOver2500m
      Spec.routeOver1800m Spec.chain Spec.nearStart Spec.noOpeningHours
      Spec.noPhone Spec.noWebsite].
    repeat match goal with
    | |- context [OverpassService.isBackward ?a ?b ?c] =>
        destruct (OverpassService.isBackward a b c)
    | |- context [Spec.exceeds ?o ?km] => destruct (Spec.exceeds o km)
    | |- context [bool_decide ?P] => destruct (bool_decide P)
    | |- context [PrimFloat.leb (OverpassService.calculateDistance ?a ?b) ?c] =>
        destruct (PrimFloat.leb (OverpassService.calculateDistance a b) c)
    | |- context [Spec.missing ?o] => destruct (Spec.missing o)
    end;
      split; reflexivity. }
  repeat split; try assumption.
  - rewrite Hscore, H. reflexivity.
  - rewrite Hstars, H. reflexivity.
Qed.

(** The independent cafe of the samples has no penalty: 100 points and 3
    stars. *)
Lemma rating_follows_heuristic_witness :
  Spot.isMajorChain Samples.kissaten <> Some true
  /\ Spec.factsOf Samples.kissaten Samples.shinjuku Samples.shibuya
     = Spec.noPenalty
  /\ Spec.scoreOf (OverpassService.calculateSpotRating Samples.kissaten
                     Samples.shinjuku Samples.shibuya) = Some 100
  /\ OverpassService.ratingStars
       (OverpassService.calculateSpotRating Samples.kissaten
          Samples.shinjuku Samples.shibuya) = Star3.
Proof.
  assert (Spot.isMajorChain Samples.kissaten <> Some true) as Hmajor
    by discriminate.
  assert (Spec.factsOf Samples.kissaten Samples.shinjuku Samples.shibuya
          = Spec.noPenalty) as Hfacts by (vm_compute; reflexivity).
  split; [exact Hmajor|]. split; [exact Hfacts|].
  exact (proj2 (proj2 (rating_follows_heuristic Samples.kissaten
                         Samples.shinjuku Samples.shibuya Hmajor)) Hfacts).
Defined.

(** C2: a spot flagged as a major chain is rated exactly 1 star, whatever
    its other attributes and whatever the start and end points. *)
Theorem major_chain_one_star {engine : JS.MathEngine}
    (spot : Spot.t) (startPoint endPoint : Point.t) :
  Spot.isMajorChain spot = Some true ->
  OverpassService.calculateSpotRating spot startPoint endPoint
  = {| OverpassService.ratingStars := Star1;
       OverpassService.ratingDebugInfo := MajorChainFixed |}.
Proof.
  intros Hmajor. unfold OverpassService.calculateSpotRating.
  now rewrite Hmajor.
Qed.

Lemma major_chain_one_star_witness :
  Spot.isMajorChain Samples.burgerChain = Some true
  /\ starsValue
       (OverpassService.ratingStars
          (OverpassService.calculateSpotRating Samples.burgerChain
             Samples.shinjuku Samples.shibuya)) = 1%Z.
Proof.
  split; [reflexivity|].
  rewrite (major_chain_one_star Samples.burgerChain Samples.shinjuku
             Samples.shibuya eq_refl).
  reflexivity.
Defined.

(** ** The search radius *)

Module RadiusFacts.
Import FloatFacts.

(** A distance that is at most [b] and not at most [a] is above [a]. *)
Lemma above_of_not_below (a b d : float) :
  (a <=? a) = true -> (d <=? a) = false -> (d <=? b) = true -> (a <? d) = true.
Proof.
  intros Ha Hda Hdb. apply leb_false_ltb; try assumption.
  apply leb_refl_of_leb with b. exact Hdb.
Qed.

(** Outside a tier and below its upper bound, the distance is below the
    lower bound of the tier. *)
Lemma not_in_tier (a b d : float) :
  (a <=? a) = true -> (d <=? a) = false -> ((a <? d) && (d <=? b)) = false ->
  (d <=? b) = false.
Proof.
  intros Ha Hda Htier. destruct (d <=? b) eqn:Hdb; [|reflexivity].
  rewrite (above_of_not_below a b d Ha Hda Hdb) in Htier. discriminate.
Qed.

End RadiusFacts.

(** C3: the search radius is a step function of the Haversine distance [d]
    between start and end, in km: 1500 m up to 1, 2000 m above 1 and up to 3,
    3000 m above 3 and up to 10, 5000 m above 10 and up to 20, and 7000 m
    otherwise (above 20, and for a distance that is not a number); 0.5, 2,
    5, 15 and 25 km give 1500, 2000, 3000, 5000 and 7000 m. *)
Theorem search_radius_step_function :
  (forall d : float,
     let radius := OverpassService.searchRadiusFor d in
     ((d <=? 1) = true -> radius = 1500)
     /\ ((1 <? d) = true -> (d <=? 3) = true -> radius = 2000)
     /\ ((3 <? d) = true -> (d <=? 10) = true -> radius = 3000)
     /\ ((10 <? d) = true -> (d <=? 20) = true -> radius = 5000)
     /\ ((20 <? d) = true -> radius = 7000)
     /\ ((d <=? 1) = false ->
         ((1 <? d) && (d <=? 3)) = false ->
         ((3 <? d) && (d <=? 10)) = false ->
         ((10 <? d) && (d <=? 20)) = false ->
         radius = 7000))
  /\ (forall (engine : JS.MathEngine) (startPoint endPoint : Point.t),
        OverpassService.calculateSearchRadius startPoint endPoint
        = OverpassService.searchRadiusFor
            (OverpassService.calculateDistance startPoint endPoint))
  /\ OverpassService.searchRadiusFor 0.5 = 1500
  /\ OverpassService.searchRadiusFor 2 = 2000
  /\ OverpassService.searchRadiusFor 5 = 3000
  /\ OverpassService.searchRadiusFor 15 = 5000
  /\ OverpassService.searchRadiusFor 25 = 7000.
Proof.
  split; [|repeat split; reflexivity].
  intros d radius. subst radius. unfold OverpassService.searchRadiusFor.
  repeat split.
  - intros ->. reflexivity.
  - intros Hlo Hhi. rewrite (FloatFacts.ltb_leb_false _ _ Hlo), Hhi. reflexivity.
  - intros Hlo Hhi.
    pose proof (FloatFacts.ltb_leb_false _ _ Hlo) as H3.
    pose proof (FloatFacts.leb_false_below 1 3 d eq_refl H3) as H1.
    rewrite H1, H3, Hhi. reflexivity.
  - intros Hlo Hhi.
    pose proof (FloatFacts.ltb_leb_false _ _ Hlo) as H10.
    pose proof (FloatFacts.leb_false_below 3 10 d eq_refl H10) as H3.
    pose proof (FloatFacts.leb_false_below 1 3 d eq_refl H3) as H1.
    rewrite H1, H3, H10, Hhi. reflexivity.
  - intros Hlo.
    pose proof (FloatFacts.ltb_leb_false _ _ Hlo) as H20.
    pose proof (FloatFacts.leb_false_below 10 20 d eq_refl H20) as H10.
    pose proof (FloatFacts.leb_false_below 3 10 d eq_refl H10) as H3.
    pose proof (FloatFacts.leb_false_below 1 3 d eq_refl H3) as H1.
    rewrite H1, H3, H10, H20. reflexivity.
  - intros H1 T3 T10 T20.
    pose proof (RadiusFacts.not_in_tier 1 3 d eq_refl H1 T3) as H3.
    pose proof (RadiusFacts.not_in_tier 3 10 d eq_refl H3 T10) as H10.
    pose proof (RadiusFacts.not_in_tier 10 20 d eq_refl H10 T20) as H20.
    rewrite H1, H3, H10, H20. reflexivity.
Qed.

(** ** The sample points of a roll *)

(** The loop of [calculateNearDestinationPoints] visits the counters
    [i], [i + 1], ... and puts, at each, the point of the segment at
    parameter [(counter + 1) / (count + 1)]. *)
Lemma nearDestinationLoop_points (start end_ : Point.t) (count : float)
    (n : nat) : forall i : float,
  OverpassService.nearDestinationLoop start end_ count n i
  = map (fun k => Spec.pointAt start end_
                    ((Spec.counter i k + 1) / (count + 1)))
        (seq 0 n).
Proof.
  induction n as [|n IH]; intros i; [reflexivity|].
  cbn [OverpassService.nearDestinationLoop seq map]. f_equal.
  rewrite IH, <- seq_shift, map_map. reflexivity.
Qed.


(** C4: the 5 sample points of a roll are the points of the straight
    segment from start to end, in raw latitude and longitude, at the
    parameters 1/6, 2/6, 3/6, 4/6 and 5/6: point [i] has latitude
    [start.lat + (end.lat - start.lat) * i/6], and likewise for the
    longitude. *)
Theorem sample_points_on_segment (start end_ : Point.t) :
  OverpassService.calculateNearDestinationPoints start end_ 5
  = [ Spec.pointAt start end_ (1 / 6);
      Spec.pointAt start end_ (2 / 6);
      Spec.pointAt start end_ (3 / 6);
      Spec.pointAt start end_ (4 / 6);
      Spec.pointAt start end_ (5 / 6) ].
Proof.
  unfold OverpassService.calculateNearDestinationPoints.
  rewrite nearDestinationLoop_points.
  cbn [seq map Spec.counter].
  reflexivity.
Qed.

(** ** Categories *)

Lemma determineCategory_cases (tags : gmap string string) :
  In (OverpassService.determineCategory tags)
     [restaurant; cafe; tourist_attraction; gas_station; shop].
Proof.
  unfold OverpassService.determineCategory.
  repeat match goal with
  | |- context [if ?b then _ else _] => destruct b
  end; simpl; tauto.
Qed.

Lemma determineCategory_default (tags : gmap string string) :
  ~ Spec.recognized tags ->
  OverpassService.determineCategory tags = restaurant.
Proof.
  unfold Spec.recognized. intros Hnone.
  unfold OverpassService.determineCategory.
  rewrite !bool_decide_eq_false_2 by tauto. simpl.
  destruct (tags !! "shop") as [s|] eqn:Hshop; [|reflexivity].
  exfalso. apply Hnone. repeat right. now exists s.
Qed.

Lemma convertToSpots_In {format : JS.NumberFormat}
    (elements : list OverpassElement.t) (spot : Spot.t) :
  In spot (OverpassService.convertToSpots elements) ->
  exists element,
    In element elements
    /\ JS.truthyString (OverpassElement.tags element !! "name") = true
    /\ spot = OverpassService.convertElement element.
Proof.
  unfold OverpassService.convertToSpots. rewrite in_map_iff.
  intros (element & <- & Hin). exists element.
  apply list_elem_of_In, list_elem_of_filter in Hin as [Hname Hin].
  repeat split; [now apply list_elem_of_In | now apply Is_true_eq_true].
Qed.

(** C10: the category derived from the tags of an API element is one of
    restaurant, cafe, tourist_attraction, gas_station and shop, never
    [all]; tags that match none of the rules give restaurant; so every spot
    made from API results has a category other than [all]. *)
Theorem category_never_all :
  (forall tags : gmap string string,
     In (OverpassService.determineCategory tags)
        [restaurant; cafe; tourist_attraction; gas_station; shop]
     /\ OverpassService.determineCategory tags <> all)
  /\ (forall tags : gmap string string,
        ~ Spec.recognized tags ->
        OverpassService.determineCategory tags = restaurant)
  /\ (forall (format : JS.NumberFormat) (elements : list OverpassElement.t)
             (spot : Spot.t),
        In spot (OverpassService.convertToSpots elements) ->
        Spot.category spot <> all).
Proof.
  assert (forall tags, OverpassService.determineCategory tags <> all) as Hne.
  { intros tags Heq. pose proof (determineCategory_cases tags) as Hin.
    rewrite Heq in Hin. simpl in Hin.
    repeat destruct Hin as [Hin|Hin]; try discriminate; contradiction. }
  repeat split.
  - apply determineCategory_cases.
  - apply Hne.
  - apply determineCategory_default.
  - intros format elements spot Hin.
    apply convertToSpots_In in Hin as (element & _ & _ & ->).
    apply Hne.
Qed.

(** Tags that match no rule, and a shop tag without a value, give the
    default category. *)
Example category_by_default :
  OverpassService.determineCategory {[ "leisure" := "park"%string ]}
  = restaurant
  /\ OverpassService.determineCategory {[ "shop" := ""%string ]} = restaurant
  /\ OverpassService.determineCategory {[ "shop" := "bakery"%string ]} = shop.
Proof. repeat split. Qed.

(** An element named after a major chain becomes a restaurant spot that
    is flagged as a chain and as a major chain, and is rated 1 star; an
    element without a name is dropped. *)
Example major_chain_detected :
  let unnamed :=
    {| OverpassElement.type := "node"; OverpassElement.id := 8;
       OverpassElement.lat := 35.67; OverpassElement.lon := 139.69;
       OverpassElement.tags := {[ "amenity" := "cafe"%string ]} |} in
  map (fun spot =>
         (Spot.id spot, Spot.category spot, Spot.chainName spot,
          Spot.isMajorChain spot, Spot.stars spot))
      (OverpassService.addRatingsToSpots
         (OverpassService.convertToSpots [Samples.burgerElement; unnamed])
         Samples.shinjuku Samples.shibuya)
  = [("node_7"%string, restaurant, Some "McDonald"%string, Some true,
      Some Star1)].
Proof. reflexivity. Qed.

(** ** Deduplication by identifier *)

Module DedupFacts.

Section FindIndex.
Context {A : Type} (p : A -> bool).

Lemma findIndexFrom_range (a : list A) : forall k,
  App.findIndexFrom p a k = (-1)%Z
  \/ (Z.of_nat k <= App.findIndexFrom p a k < Z.of_nat (k + length a))%Z.
Proof.
  induction a as [|x a IH]; intros k; simpl; [now left|].
  destruct (p x); [right; lia|].
  destruct (IH (S k)) as [->|H]; [now left|right; lia].
Qed.

(** Past a prefix without a match, the search goes on in the rest. *)
Lemma findIndexFrom_skip (pre l : list A) (k : nat) :
  Forall (fun y => p y = false) pre ->
  App.findIndexFrom p (pre ++ l) k = App.findIndexFrom p l (k + length pre).
Proof.
  intros Hpre. revert k.
  induction Hpre as [|y pre Hy _ IH]; intros k; simpl.
  - now rewrite Nat.add_0_r.
  - rewrite Hy, IH. f_equal. lia.
Qed.

(** A match in a prefix is found inside the prefix. *)
Lemma findIndexFrom_prefix (pre l : list A) (k : nat) :
  Exists (fun y => p y = true) pre ->
  (Z.of_nat k <= App.findIndexFrom p (pre ++ l) k < Z.of_nat (k + length pre))%Z.
Proof.
  intros Hpre. revert k.
  induction Hpre as [y pre Hy|y pre _ IH]; intros k; simpl.
  - rewrite Hy. lia.
  - destruct (p y); [lia|]. specialize (IH (S k)). lia.
Qed.

(** The index found is the first one: nothing before it matches. *)
Lemma findIndexFrom_first (a : list A) : forall k i,
  App.findIndexFrom p a k = Z.of_nat (k + i) ->
  forall j y, (j < i)%nat -> a !! j = Some y -> p y = false.
Proof.
  induction a as [|x a IH]; intros k i Hfound j y Hj Hy; [discriminate|].
  simpl in Hfound. destruct (p x) eqn:Hx.
  - lia.
  - destruct i as [|i]; [lia|].
    destruct j as [|j]; simpl in Hy.
    + now injection Hy as <-.
    + apply (IH (S k) i) with j; [|lia|exact Hy].
      rewrite Hfound. f_equal. lia.
Qed.

End FindIndex.

Lemma filterFrom_In {A} (p : A -> nat -> bool) (a : list A) (x : A) : forall k,
  In x (App.filterFrom p a k) <->
  exists i, a !! i = Some x /\ p x (k + i)%nat = true.
Proof.
  induction a as [|y a IH]; intros k; simpl.
  - split; [contradiction|]. now intros (i & Hi & _).
  - assert (In x (App.filterFrom p a (S k)) <->
            exists i, a !! i = Some x /\ p x (k + S i)%nat = true) as IH'.
    { rewrite IH. setoid_rewrite <- Nat.add_succ_comm. reflexivity. }
    split.
    + intros Hin.
      assert (y = x /\ p y k = true \/ In x (App.filterFrom p a (S k)))
        as [[-> Hp]|Hin'].
      { destruct (p y k) eqn:Hp; [destruct Hin as [->|]|]; auto. }
      * exists 0%nat. now rewrite Nat.add_0_r.
      * apply IH' in Hin' as (i & Hi & Hp). now exists (S i).
    + intros ([|i] & Hi & Hp); simpl in Hi.
      * injection Hi as ->. rewrite Nat.add_0_r in Hp. rewrite Hp. now left.
      * assert (In x (App.filterFrom p a (S k))) by (apply IH'; eauto).
        destruct (p y k); [now right|assumption].
Qed.

(** Only the set of identifiers seen matters to the walk. *)
Lemma firstOccurrences_seen (spots : list Spot.t) : forall seen seen',
  (forall i : string, i ∈ seen <-> i ∈ seen') ->
  Spec.firstOccurrences seen spots = Spec.firstOccurrences seen' spots.
Proof.
  induction spots as [|x spots IH]; intros seen seen' Hsame; [reflexivity|].
  simpl. rewrite (bool_decide_ext _ _ (Hsame (Spot.id x))).
  destruct (bool_decide (Spot.id x ∈ seen')); [now apply IH|].
  f_equal. apply IH. intros i. rewrite !elem_of_app, Hsame. reflexivity.
Qed.

(** The source's filter is the walk of the specification: with the spots
    [pre] already passed, a spot is kept when no spot of [pre] has its
    identifier. *)
Lemma filterFrom_firstOccurrences (rest : list Spot.t) : forall pre,
  App.filterFrom
    (fun spot index =>
       (Z.of_nat index
        =? App.findIndex (fun s => String.eqb (Spot.id s) (Spot.id spot))
             (pre ++ rest))%Z)
    rest (length pre)
  = Spec.firstOccurrences (map Spot.id pre) rest.
Proof.
  induction rest as [|x rest IH]; intros pre; [reflexivity|].
  cbn [App.filterFrom Spec.firstOccurrences].
  specialize (IH (pre ++ [x])).
  rewrite <- app_assoc, length_app, Nat.add_1_r, map_app in IH. simpl in IH.
  rewrite IH. unfold App.findIndex.
  set (same := fun s => String.eqb (Spot.id s) (Spot.id x)).
  destruct (decide (Spot.id x ∈ map Spot.id pre)) as [Hseen|Hnew].
  - rewrite bool_decide_eq_true_2 by exact Hseen.
    assert (Exists (fun y => same y = true) pre) as Hex.
    { apply Exists_exists. apply list_elem_of_In, in_map_iff in Hseen
        as (y & Hid & Hy).
      exists y. split; [now apply list_elem_of_In|].
      unfold same. rewrite Hid. apply String.eqb_refl. }
    pose proof (findIndexFrom_prefix same pre (x :: rest) 0 Hex) as Hlt.
    replace (Z.of_nat (length pre) =? _)%Z with false.
    + apply firstOccurrences_seen. intros i. rewrite elem_of_app.
      rewrite list_elem_of_singleton. split; [|tauto].
      now intros [Hi| ->].
    + symmetry. apply Z.eqb_neq. simpl in Hlt. lia.
  - rewrite bool_decide_eq_false_2 by exact Hnew.
    assert (Forall (fun y => same y = false) pre) as Hall.
    { apply Forall_forall. intros y Hy. unfold same.
      apply String.eqb_neq. intros Hid. apply Hnew.
      rewrite <- Hid. apply list_elem_of_In, in_map. now apply list_elem_of_In. }
    rewrite (findIndexFrom_skip same pre (x :: rest) 0 Hall). simpl.
    unfold same at 1. rewrite String.eqb_refl, Z.eqb_refl. reflexivity.
Qed.

Lemma uniqueSpots_firstOccurrences (allSpots : list Spot.t) :
  App.uniqueSpots allSpots = Spec.firstOccurrences [] allSpots.
Proof. exact (filterFrom_firstOccurrences allSpots []). Qed.

End DedupFacts.

Module WalkFacts.

Lemma firstOccurrences_sublist (spots : list Spot.t) : forall seen,
  sublist (Spec.firstOccurrences seen spots) spots.
Proof.
  induction spots as [|x spots IH]; intros seen; simpl; [constructor|].
  destruct (bool_decide (Spot.id x ∈ seen)).
  - apply sublist_cons, IH.
  - apply sublist_skip, IH.
Qed.

Lemma firstOccurrences_ids (spots : list Spot.t) : forall seen (i : string),
  i ∈ map Spot.id (Spec.firstOccurrences seen spots)
  <-> i ∈ map Spot.id spots /\ i ∉ seen.
Proof.
  induction spots as [|x spots IH]; intros seen i; simpl.
  - rewrite elem_of_nil. tauto.
  - destruct (bool_decide_reflect (Spot.id x ∈ seen)) as [Hseen|Hnew].
    + rewrite IH, elem_of_cons. split; [tauto|].
      intros [[->|Hi] Hn]; [contradiction|tauto].
    + simpl. rewrite !elem_of_cons, IH, elem_of_app, list_elem_of_singleton.
      destruct (decide (i = Spot.id x)) as [->|Hne]; tauto.
Qed.

Lemma firstOccurrences_NoDup (spots : list Spot.t) : forall seen,
  NoDup (map Spot.id (Spec.firstOccurrences seen spots)).
Proof.
  induction spots as [|x spots IH]; intros seen; simpl; [constructor|].
  destruct (bool_decide (Spot.id x ∈ seen)); [apply IH|].
  simpl. constructor; [|apply IH].
  rewrite firstOccurrences_ids, elem_of_app, list_elem_of_singleton. tauto.
Qed.

End WalkFacts.

(** C5: deduplication by identifier keeps exactly the first occurrence of
    each identifier: the identifiers of the output are those of the input,
    each once; a kept spot is the first spot of the input with its
    identifier; and the output is in the order of the input.  The input is
    any list, in particular the concatenation of the lists returned for two
    sample points. *)
Theorem dedupe_keeps_first_occurrence (allSpots : list Spot.t) :
  let unique := App.uniqueSpots allSpots in
  NoDup (map Spot.id unique)
  /\ (forall i : string, i ∈ map Spot.id unique <-> i ∈ map Spot.id allSpots)
  /\ (forall spot, In spot unique ->
        exists k,
          allSpots !! k = Some spot
          /\ forall j other, (j < k)%nat -> allSpots !! j = Some other ->
               Spot.id other <> Spot.id spot)
  /\ sublist unique allSpots
  /\ unique = Spec.firstOccurrences [] allSpots.
Proof.
  intros unique. subst unique.
  rewrite DedupFacts.uniqueSpots_firstOccurrences.
  split; [apply WalkFacts.firstOccurrences_NoDup|].
  split.
  { intros i. rewrite WalkFacts.firstOccurrences_ids, elem_of_nil. tauto. }
  split; [|split; [apply WalkFacts.firstOccurrences_sublist|reflexivity]].
  intros spot Hin.
  rewrite <- DedupFacts.uniqueSpots_firstOccurrences in Hin.
  apply DedupFacts.filterFrom_In in Hin as (k & Hk & Hfirst).
  exists k. split; [exact Hk|]. intros j other Hj Hother.
  apply Z.eqb_eq in Hfirst. symmetry in Hfirst.
  apply String.eqb_neq.
  exact (DedupFacts.findIndexFrom_first _ allSpots 0 k Hfirst j other Hj Hother).
Qed.

(** Two result lists that share the identifier [node_1]: the merged set
    has it once, from the first list. *)
Example dedupe_shared_identifier :
  let first := [Samples.kissaten; Samples.burgerChain] in
  let second :=
    [Samples.spotWith "node_1" "別の名前" 35.67 139.69 None None None None None] in
  App.uniqueSpots (first ++ second) = first.
Proof. reflexivity. Qed.

(** ** Random selection *)

Module ShuffleFacts.

Section Shuffle.
Context {A : Type}.
Implicit Types (l : list A) (rnd : OverpassService.Draws).

Lemma swap_Permutation i j l : OverpassService.swap i j l ≡ₚ l.
Proof.
  unfold OverpassService.swap.
  destruct (l !! i) as [ai|] eqn:Hi; [|reflexivity].
  destruct (l !! j) as [aj|] eqn:Hj; [|reflexivity].
  now apply Permutation_insert_swap.
Qed.

Lemma shuffleFrom_Permutation rnd i : forall l,
  OverpassService.shuffleFrom rnd i l ≡ₚ l.
Proof.
  induction i as [|i IH]; intros l; simpl; [reflexivity|].
  rewrite IH. apply swap_Permutation.
Qed.

Lemma shuffleFrom_length rnd i l :
  length (OverpassService.shuffleFrom rnd i l) = length l.
Proof. apply Permutation_length, shuffleFrom_Permutation. Qed.

Lemma draw_le rnd i : (fin_to_nat (rnd i) <= i)%nat.
Proof. pose proof (fin_to_nat_lt (rnd i)). lia. Qed.

(** At a counter within the array, with a draw of [0..i], both reads of
    the swap hit an element: the array is neither read nor written outside
    its bounds. *)
Lemma swap_in_bounds l i j :
  (i < length l)%nat -> (j <= i)%nat ->
  exists ai aj,
    l !! i = Some ai /\ l !! j = Some aj
    /\ OverpassService.swap i j l = <[j:=ai]> (<[i:=aj]> l).
Proof.
  intros Hi Hj.
  destruct (lookup_lt_is_Some_2 l i Hi) as [ai Hai].
  destruct (lookup_lt_is_Some_2 l j ltac:(lia)) as [aj Haj].
  exists ai, aj. unfold OverpassService.swap. now rewrite Hai, Haj.
Qed.

(** A swap acts on the positions alone: lists related item by item stay
    related. *)
Lemma swap_Forall2 {B} (R : A -> B -> Prop) i j l (k : list B) :
  Forall2 R l k ->
  Forall2 R (OverpassService.swap i j l) (OverpassService.swap i j k).
Proof.
  intros Hlk. unfold OverpassService.swap.
  destruct (l !! i) as [ai|] eqn:Hi.
  - destruct (Forall2_lookup_l _ _ _ _ _ Hlk Hi) as (bi & Hbi & Ri).
    rewrite Hbi.
    destruct (l !! j) as [aj|] eqn:Hj.
    + destruct (Forall2_lookup_l _ _ _ _ _ Hlk Hj) as (bj & Hbj & Rj).
      rewrite Hbj. now repeat apply Forall2_insert.
    + apply lookup_ge_None in Hj. rewrite (Forall2_length _ _ _ Hlk) in Hj.
      apply lookup_ge_None in Hj. now rewrite Hj.
  - apply lookup_ge_None in Hi. rewrite (Forall2_length _ _ _ Hlk) in Hi.
    apply lookup_ge_None in Hi. now rewrite Hi.
Qed.

Lemma shuffleFrom_Forall2 {B} (R : A -> B -> Prop) rnd i :
  forall l (k : list B),
  Forall2 R l k ->
  Forall2 R (OverpassService.shuffleFrom rnd i l)
            (OverpassService.shuffleFrom rnd i k).
Proof.
  induction i as [|i IH]; intros l k Hlk; simpl; [exact Hlk|].
  apply IH, swap_Forall2, Hlk.
Qed.

(** Every item sits at its own position. *)
Lemma own_positions l :
  Forall2 (fun x p => l !! p = Some x) l (seq 0 (length l)).
Proof.
  apply Forall2_same_length_lookup_2; [now rewrite length_seq|].
  intros i x p Hx Hp. apply lookup_seq in Hp as [-> _]. exact Hx.
Qed.

End Shuffle.

(** The shape both selection functions share. *)
Definition selected {A} (rnd : OverpassService.Draws) (l : list A)
    (count : nat) : list A :=
  if (length l <=? count)%nat then l
  else take count (OverpassService.shuffleFrom rnd (length l - 1) l).

Lemma selected_all {A} (rnd : OverpassService.Draws) (l : list A) count :
  (length l <= count)%nat -> selected rnd l count = l.
Proof.
  intros Hle. unfold selected. now rewrite (proj2 (Nat.leb_le _ _) Hle).
Qed.

Lemma selected_some {A} (rnd : OverpassService.Draws) (l : list A) count :
  (count < length l)%nat ->
  let positions := Spec.drawnPositions rnd (length l) count in
  length (selected rnd l count) = count
  /\ (exists perm, perm ≡ₚ l /\ selected rnd l count = take count perm)
  /\ length positions = count
  /\ NoDup positions
  /\ Forall2 (fun x p => l !! p = Some x) (selected rnd l count) positions.
Proof.
  intros Hlt positions. subst positions. unfold selected, Spec.drawnPositions.
  rewrite (proj2 (Nat.leb_gt _ _) Hlt).
  repeat split.
  - rewrite length_take, shuffleFrom_length. lia.
  - eexists. split; [apply shuffleFrom_Permutation|reflexivity].
  - rewrite length_take.
    rewrite shuffleFrom_length, length_seq. lia.
  - eapply sublist_NoDup; [|apply sublist_take].
    rewrite shuffleFrom_Permutation. apply NoDup_seq.
  - apply Forall2_take, shuffleFrom_Forall2, own_positions.
Qed.

End ShuffleFacts.

(** C6: random selection of [count] sample points, or of [count] final
    spots, returns its input unchanged when that has at most [count] items;
    otherwise it returns exactly [count] items, the first [count] of a
    permutation of the input, taken from [count] distinct positions.  The
    positions depend on the length of the input and on the draws only: no
    rating is read. *)
Theorem random_selection (rnd : OverpassService.Draws) (count : nat) :
  (forall midPoints : list Point.t,
     let selected :=
       OverpassService.selectRandomMidPoints rnd midPoints count in
     ((length midPoints <= count)%nat -> selected = midPoints)
     /\ ((count < length midPoints)%nat ->
         let positions :=
           Spec.drawnPositions rnd (length midPoints) count in
         length selected = count
         /\ (exists perm, perm ≡ₚ midPoints /\ selected = take count perm)
         /\ length positions = count
         /\ NoDup positions
         /\ Forall2 (fun x p => midPoints !! p = Some x) selected positions))
  /\ (forall spots : list Spot.t,
        let selected :=
          OverpassService.selectRandomSpotsWithoutRating rnd spots count in
        ((length spots <= count)%nat -> selected = spots)
        /\ ((count < length spots)%nat ->
            let positions := Spec.drawnPositions rnd (length spots) count in
            length selected = count
            /\ (exists perm, perm ≡ₚ spots /\ selected = take count perm)
            /\ length positions = count
            /\ NoDup positions
            /\ Forall2 (fun x p => spots !! p = Some x) selected positions)).
Proof.
  split.
  - intros midPoints selected. subst selected.
    change (OverpassService.selectRandomMidPoints rnd midPoints count)
      with (ShuffleFacts.selected rnd midPoints count).
    split; [apply ShuffleFacts.selected_all|apply ShuffleFacts.selected_some].
  - intros spots selected. subst selected.
    change (OverpassService.selectRandomSpotsWithoutRating rnd spots count)
      with (ShuffleFacts.selected rnd spots count).
    split; [apply ShuffleFacts.selected_all|apply ShuffleFacts.selected_some].
Qed.

(** With draws that are all 0, the 5 sample points of the default route
    give the points at 2/6, 3/6 and 4/6. *)
Example select_three_of_five :
  OverpassService.selectRandomMidPoints Samples.zeroDraws
    (OverpassService.calculateNearDestinationPoints
       Samples.shinjuku Samples.shibuya 5) 3
  = [ Spec.pointAt Samples.shinjuku Samples.shibuya (2 / 6);
      Spec.pointAt Samples.shinjuku Samples.shibuya (3 / 6);
      Spec.pointAt Samples.shinjuku Samples.shibuya (4 / 6) ]
  /\ Spec.drawnPositions Samples.zeroDraws 5 3 = [1; 2; 3]%nat.
Proof. split; reflexivity. Qed.

(** ** Map clicks *)

Module ClickFacts.

Section Clicks.
Context {format : JS.NumberFormat}.

Lemma click_sets_start (st : App.State) (lat lng : float) :
  App.startPoint st = None ->
  App.startPoint (App.handleMapClick lat lng st)
  = Some (Spec.clickedPoint lat lng)
  /\ App.endPoint (App.handleMapClick lat lng st) = App.endPoint st.
Proof. intros Hs. unfold App.handleMapClick. rewrite Hs. now split. Qed.

Lemma click_sets_end (st : App.State) (lat lng : float) (s : Point.t) :
  App.startPoint st = Some s -> App.endPoint st = None ->
  App.startPoint (App.handleMapClick lat lng st) = Some s
  /\ App.endPoint (App.handleMapClick lat lng st)
     = Some (Spec.clickedPoint lat lng).
Proof.
  intros Hs He. unfold App.handleMapClick. rewrite Hs, He. now split.
Qed.

Lemma click_when_both_set (st : App.State) (lat lng : float) (s e : Point.t) :
  App.startPoint st = Some s -> App.endPoint st = Some e ->
  App.handleMapClick lat lng st = App.toast st App.ToastAlreadySet.
Proof. intros Hs He. unfold App.handleMapClick. now rewrite Hs, He. Qed.

(** Any number of clicks while both points are set changes neither. *)
Lemma clicks_when_both_set (clicks : list (float * float)) :
  forall (st : App.State) (s e : Point.t),
  App.startPoint st = Some s -> App.endPoint st = Some e ->
  App.startPoint (Spec.clickAll clicks st) = Some s
  /\ App.endPoint (Spec.clickAll clicks st) = Some e
  /\ App.gachaSpots (Spec.clickAll clicks st) = App.gachaSpots st
  /\ App.allGachaHistory (Spec.clickAll clicks st) = App.allGachaHistory st.
Proof.
  induction clicks as [|[lat lng] clicks IH]; intros st s e Hs He; [easy|].
  unfold Spec.clickAll in *. cbn [foldl fst snd].
  rewrite (click_when_both_set st lat lng s e Hs He).
  apply (IH (App.toast st App.ToastAlreadySet) s e); assumption.
Qed.

End Clicks.

End ClickFacts.

(** C7, as amended: from the state the reset action leaves, the first
    click sets the start point, the second click sets the end point, and
    every further click while both are set leaves start and end unchanged
    until reset clears them again.  The application itself starts with both
    points set, so until the first reset every click is of the last kind. *)
Theorem map_click_state_machine {format : JS.NumberFormat} :
  (forall st, App.startPoint (App.handleReset st) = None
              /\ App.endPoint (App.handleReset st) = None)
  /\ (forall st lat lng,
        App.startPoint st = None ->
        App.startPoint (App.handleMapClick lat lng st)
        = Some (Spec.clickedPoint lat lng)
        /\ App.endPoint (App.handleMapClick lat lng st) = App.endPoint st)
  /\ (forall st lat lng s,
        App.startPoint st = Some s -> App.endPoint st = None ->
        App.startPoint (App.handleMapClick lat lng st) = Some s
        /\ App.endPoint (App.handleMapClick lat lng st)
           = Some (Spec.clickedPoint lat lng))
  /\ (forall st lat lng s e,
        App.startPoint st = Some s -> App.endPoint st = Some e ->
        App.startPoint (App.handleMapClick lat lng st) = Some s
        /\ App.endPoint (App.handleMapClick lat lng st) = Some e)
  /\ (forall st first second further,
        let st' :=
          Spec.clickAll (first :: second :: further) (App.handleReset st) in
        App.startPoint st' = Some (Spec.clickedPoint (fst first) (snd first))
        /\ App.endPoint st'
           = Some (Spec.clickedPoint (fst second) (snd second)))
  /\ (forall clicks,
        App.startPoint (Spec.clickAll clicks App.initialState)
        = App.startPoint App.initialState
        /\ App.endPoint (Spec.clickAll clicks App.initialState)
           = App.endPoint App.initialState).
Proof.
  split; [now intros st|].
  split; [intros; now apply ClickFacts.click_sets_start|].
  split; [intros; now apply ClickFacts.click_sets_end|].
  split.
  { intros st lat lng s e Hs He.
    now rewrite (ClickFacts.click_when_both_set st lat lng s e Hs He). }
  split.
  - intros st [lat1 lng1] [lat2 lng2] further st'. subst st'.
    unfold Spec.clickAll. cbn [foldl fst snd].
    set (st0 := App.handleReset st).
    destruct (ClickFacts.click_sets_start st0 lat1 lng1 eq_refl) as [Hs1 He1].
    destruct (ClickFacts.click_sets_end _ lat2 lng2 _ Hs1 He1) as [Hs2 He2].
    destruct (ClickFacts.clicks_when_both_set further _ _ _ Hs2 He2)
      as (Hs & He & _).
    now split.
  - intros clicks.
    destruct (ClickFacts.clicks_when_both_set clicks App.initialState
                _ _ eq_refl eq_refl) as (Hs & He & _).
    now split.
Qed.

(** On startup both points are set: the first click sets nothing, the
    start point is still Shinjuku station and the click is answered by the
    warning that both points are set. *)
Lemma first_click_after_startup :
  App.startPoint (App.handleMapClick 35.7 139.8 App.initialState)
  = Some Samples.shinjuku
  /\ App.endPoint (App.handleMapClick 35.7 139.8 App.initialState)
     = Some Samples.shibuya
  /\ App.toasts (App.handleMapClick 35.7 139.8 App.initialState)
     = [App.ToastAlreadySet]
  /\ Some Samples.shinjuku <> Some (Spec.clickedPoint 35.7 139.8).
Proof. repeat split. discriminate. Qed.

(** After a reset the same two clicks set start and end, and a third is
    ignored. *)
Example clicks_after_reset :
  let st :=
    Spec.clickAll [(35.7, 139.8); (35.6, 139.7); (1, 2)]
      (App.handleReset App.initialState) in
  App.startPoint st = Some (Spec.clickedPoint 35.7 139.8)
  /\ App.endPoint st = Some (Spec.clickedPoint 35.6 139.7)
  /\ App.toasts st
     = [App.ToastResetGuide; App.ToastStartSet; App.ToastEndSet;
        App.ToastAlreadySet]
  /\ Point.name (Spec.clickedPoint 35.7 139.8) = Some "35.7000, 139.8000"%string.
Proof. repeat split. Qed.

(** ** Failed queries during a roll *)

Module RollFacts.

Section Roll.
Context {engine : JS.MathEngine} {format : JS.NumberFormat}.

(** A transport failure makes the search throw. *)
Lemma searchSpots_transport_failure (fetch : OverpassService.Fetch)
    (startPoint endPoint : Point.t) (radius : float) (category : Category)
    (error : string) :
  fetch (Spec.queryFor startPoint endPoint radius category) = JS.Throw error ->
  OverpassService.searchSpots fetch startPoint endPoint radius category
  = JS.Throw error.
Proof.
  intros Hfetch. unfold OverpassService.searchSpots, Spec.queryFor in *.
  cbn zeta. now rewrite Hfetch.
Qed.

(** So does a response that is not a success. *)
Lemma searchSpots_bad_status (fetch : OverpassService.Fetch)
    (startPoint endPoint : Point.t) (radius : float) (category : Category)
    (response : OverpassService.HttpResponse) :
  fetch (Spec.queryFor startPoint endPoint radius category)
  = JS.Return response ->
  OverpassService.ok response = false ->
  OverpassService.searchSpots fetch startPoint endPoint radius category
  = JS.Throw ("Overpass API error: "
              ++ pretty (OverpassService.status response))%string.
Proof.
  intros Hfetch Hok. unfold OverpassService.searchSpots, Spec.queryFor in *.
  cbn zeta. rewrite Hfetch. cbn. now rewrite Hok.
Qed.

(** A successful search returns the named elements as spots. *)
Lemma searchSpots_success (fetch : OverpassService.Fetch)
    (startPoint endPoint : Point.t) (radius : float) (category : Category)
    (response : OverpassService.HttpResponse) (data : OverpassResponse) :
  fetch (Spec.queryFor startPoint endPoint radius category)
  = JS.Return response ->
  OverpassService.ok response = true ->
  OverpassService.json response = JS.Return data ->
  OverpassService.searchSpots fetch startPoint endPoint radius category
  = JS.Return (OverpassService.convertToSpots (elements data)).
Proof.
  intros Hfetch Hok Hjson.
  unfold OverpassService.searchSpots, Spec.queryFor in *.
  cbn zeta. rewrite Hfetch. cbn. rewrite Hok. cbn. now rewrite Hjson.
Qed.

(** The loop over the selected points returns, whatever the searches do:
    each iteration adds the contribution of its search. *)
Lemma collectSpots_returns (net : nat -> OverpassService.Fetch)
    (searchRadius : float) (category : Category)
    (selectedMidPoints : list Point.t) : forall k allSpots,
  App.collectSpots net searchRadius category selectedMidPoints k allSpots
  = JS.Return
      (allSpots
       ++ Spec.aggregated net searchRadius category selectedMidPoints k).
Proof.
  induction selectedMidPoints as [|midPoint rest IH]; intros k allSpots.
  - cbn. now rewrite app_nil_r.
  - cbn [App.collectSpots Spec.aggregated].
    destruct (OverpassService.searchSpots (net k) midPoint midPoint
                searchRadius category) as [spots|error]; cbn.
    + rewrite IH. now rewrite app_assoc.
    + apply IH.
Qed.

Lemma rollBody_returns (env : App.RollEnv) (start end_ : Point.t)
    (st : App.State) :
  let candidates :=
    Spec.aggregated (App.network env)
      (OverpassService.calculateSearchRadius start end_)
      (App.selectedCategory st)
      (OverpassService.selectRandomMidPoints (App.rndMidPoints env)
         (OverpassService.calculateNearDestinationPoints start end_ 5) 3)
      0 in
  let shown := Spec.shownSpots env start end_ candidates in
  App.rollBody env start end_ st
  = JS.Return
      (if (length shown =? 0)%nat then App.toast st App.ToastNotFound
       else App.setSpots st shown
              (App.mergeHistory (App.allGachaHistory st) shown)).
Proof.
  intros candidates shown. unfold App.rollBody.
  rewrite collectSpots_returns. cbn [mbind JS.Exc_bind JS.bind app].
  fold candidates.
  change (OverpassService.selectRandomSpotsWithoutRating (App.rndSpots env)
            (OverpassService.addRatingsToSpots (App.uniqueSpots candidates)
               start end_) 3) with shown.
  now destruct (length shown =? 0)%nat.
Qed.

End Roll.

End RollFacts.

(** C9: during a roll, the failure of the query for one selected sample
    point (the transport fails, or the response is not a success) is caught:
    that point contributes no candidate, the candidates of the other points
    are aggregated, and the roll completes; no failed query raises the error
    of the roll. *)
Theorem roll_survives_failed_queries {engine : JS.MathEngine}
    {format : JS.NumberFormat} :
  (forall fetch point radius category,
     (forall error,
        fetch (Spec.queryFor point point radius category) = JS.Throw error ->
        Spec.contribution
          (OverpassService.searchSpots fetch point point radius category) = [])
     /\ (forall response,
           fetch (Spec.queryFor point point radius category)
           = JS.Return response ->
           OverpassService.ok response = false ->
           Spec.contribution
             (OverpassService.searchSpots fetch point point radius category)
           = []))
  /\ (forall net radius category selectedMidPoints,
        App.collectSpots net radius category selectedMidPoints 0 []
        = JS.Return (Spec.aggregated net radius category selectedMidPoints 0))
  /\ (forall env st start end_,
        App.startPoint st = Some start -> App.endPoint st = Some end_ ->
        let candidates :=
          Spec.aggregated (App.network env)
            (OverpassService.calculateSearchRadius start end_)
            (App.selectedCategory st)
            (OverpassService.selectRandomMidPoints (App.rndMidPoints env)
               (OverpassService.calculateNearDestinationPoints start end_ 5) 3)
            0 in
        let shown := Spec.shownSpots env start end_ candidates in
        let st' := App.handleGachaRoll env st in
        App.isLoading st' = false
        /\ App.gachaSpots st' = shown
        /\ (App.toasts st' = App.toasts st
            \/ App.toasts st' = App.toasts st ++ [App.ToastNotFound])).
Proof.
  split; [|split].
  - intros fetch point radius category. split.
    + intros error Hfetch.
      now rewrite (RollFacts.searchSpots_transport_failure _ _ _ _ _ _ Hfetch).
    + intros response Hfetch Hok.
      now rewrite (RollFacts.searchSpots_bad_status _ _ _ _ _ _ Hfetch Hok).
  - intros. exact (RollFacts.collectSpots_returns _ _ _ _ 0%nat []).
  - intros env st start end_ Hs He candidates shown st'. subst st'.
    unfold App.handleGachaRoll. rewrite Hs, He.
    rewrite RollFacts.rollBody_returns. cbn zeta.
    change (App.selectedCategory
              (App.setSpots (App.setIsLoading st true) []
                 (App.allGachaHistory st)))
      with (App.selectedCategory st).
    fold candidates. fold shown.
    destruct (length shown =? 0)%nat eqn:Hnone;
      cbn [App.setIsLoading App.toast App.setSpots App.isLoading
           App.gachaSpots App.toasts].
    + apply Nat.eqb_eq, nil_length_inv in Hnone. rewrite Hnone. auto.
    + auto.
Qed.

(** A roll on the default route whose second query is refused by the
    transport: it completes without an error, and shows the cafes found
    around the first and the third point. *)
Example roll_with_one_failed_query :
  let st := App.handleGachaRoll Samples.flakyRoll App.initialState in
  map Spot.id (App.gachaSpots st) = ["node_0"; "node_2"]%string
  /\ map Spot.stars (App.gachaSpots st) = [Some Star3; Some Star3]
  /\ App.toasts st = []
  /\ App.isLoading st = false.
Proof. vm_compute. repeat split. Qed.

(** When every query is answered with an error status the roll still
    completes; it reports that nothing was found. *)
Example roll_with_all_queries_failed :
  let st := App.handleGachaRoll Samples.busyRoll App.initialState in
  App.gachaSpots st = []
  /\ App.toasts st = [App.ToastNotFound]
  /\ App.isLoading st = false.
Proof. vm_compute. repeat split. Qed.

(** ** The Haversine distance *)

Module HaversineFacts.
Import Magnitude FloatFacts.

Definition oppClass (c : float_class) : float_class :=
  match c with
  | PNormal => NNormal | NNormal => PNormal
  | PSubn => NSubn | NSubn => PSubn
  | PZero => NZero | NZero => PZero
  | PInf => NInf | NInf => PInf
  | NaN => NaN
  end.

Lemma classify_opp x : classify (- x) = oppClass (classify x).
Proof.
  rewrite !classify_spec, opp_spec. unfold SF64classify, SFclassify.
  destruct (Prim2SF x) as [s|s| |s m e]; cbn [SFopp negb]; try reflexivity;
    try (destruct s; reflexivity).
  destruct s; cbn [negb]; destruct (Z.eqb (Z.pos (digits2_pos m)) prec);
    reflexivity.
Qed.

Lemma Prim2SF_PI : Prim2SF JS.PI = S754_finite false 7074237752028440 (-51).
Proof. reflexivity. Qed.

Lemma Prim2SF_90 : Prim2SF 90 = S754_finite false 6333186975989760 (-46).
Proof. reflexivity. Qed.

Lemma Prim2SF_180 : Prim2SF 180 = S754_finite false 6333186975989760 (-45).
Proof. reflexivity. Qed.

Lemma Prim2SF_1 : Prim2SF 1 = S754_finite false 4503599627370496 (-52).
Proof. reflexivity. Qed.

(** A product with zero is a zero, when the other factor is finite. *)
Lemma mul_zero_r x k : within x k -> exists s, Prim2SF (x * 0) = S754_zero s.
Proof.
  unfold within. rewrite mul_spec. change (Prim2SF 0) with (S754_zero false).
  destruct (Prim2SF x) as [s|s| |s m e]; simpl; try contradiction; eauto.
Qed.

Lemma add_zero_zero y s : Prim2SF y = S754_zero s -> 0 + y = 0.
Proof.
  intros Hy. apply Prim2SF_inj. rewrite add_spec, Hy.
  change (Prim2SF 0) with (S754_zero false). now destruct s.
Qed.

Lemma within_zero y s k : Prim2SF y = S754_zero s -> within y k.
Proof. unfold within. now intros ->. Qed.

(** A latitude whose angle in radians is finite is finite. *)
Lemma radians_finite x :
  Spec.finite (x * JS.PI / 180) = true -> exists k, within x k.
Proof.
  unfold Spec.finite, within.
  rewrite classify_spec, div_spec, mul_spec, Prim2SF_PI, Prim2SF_180.
  destruct (Prim2SF x) as [s|s| |s m e]; cbn [bexp].
  - now exists 0%Z.
  - now destruct s.
  - discriminate.
  - exists e. lia.
Qed.

(** NaN goes through the arithmetic. *)
Lemma Prim2SF_nan x : Prim2SF x = S754_nan -> x = nan.
Proof. intros H. now apply Prim2SF_inj. Qed.

Lemma mul_nan_l y : nan * y = nan.
Proof. apply Prim2SF_nan. rewrite mul_spec. reflexivity. Qed.

Lemma mul_nan_r x : x * nan = nan.
Proof. rewrite mul_comm. apply mul_nan_l. Qed.

Lemma add_nan_r x : x + nan = nan.
Proof.
  apply Prim2SF_nan. rewrite add_spec. change (Prim2SF nan) with S754_nan.
  now destruct (Prim2SF x) as [s|s| |s m e].
Qed.

Lemma div_nan_l y : nan / y = nan.
Proof. apply Prim2SF_nan. rewrite div_spec. reflexivity. Qed.

(** The difference of a number that is not finite with itself. *)
Lemma sub_diag_nan x : Spec.finite x = false -> x - x = nan.
Proof.
  unfold Spec.finite. rewrite classify_spec. intros H.
  apply Prim2SF_nan. rewrite sub_spec.
  unfold SF64classify, SFclassify in H.
  destruct (Prim2SF x) as [s|s| |s m e]; try reflexivity.
  - now destruct s.
  - now destruct s.
  - destruct s; now destruct (Z.eqb (Z.pos (digits2_pos m)) prec).
Qed.

Lemma within_finite x k : within x k -> Spec.finite x = true.
Proof.
  unfold within, Spec.finite. rewrite classify_spec.
  unfold SF64classify, SFclassify.
  destruct (Prim2SF x) as [s|s| |s m e]; cbn [bexp]; try contradiction;
    intros _.
  - now destruct s.
  - destruct s; now destruct (Z.eqb (Z.pos (digits2_pos m)) prec).
Qed.

Lemma finite_within x : Spec.finite x = true -> exists k, within x k.
Proof.
  unfold within, Spec.finite. rewrite classify_spec.
  unfold SF64classify, SFclassify.
  destruct (Prim2SF x) as [s|s| |s m e]; cbn [bexp].
  - now exists 0%Z.
  - now destruct s.
  - discriminate.
  - exists e. lia.
Qed.

Section Engine.
Context {engine : JS.MathEngine}.

Lemma sin_opp (Hodd : Spec.sinOdd engine) x : JS.sin (- x) = - JS.sin x.
Proof.
  unfold JS.sin. rewrite classify_opp.
  destruct (classify x) eqn:Hc; simpl; try reflexivity; apply Hodd.
Qed.

Lemma cos_within (Hrange : Spec.cosInRange engine) x k :
  within x k -> within (JS.cos x) (-52).
Proof.
  intros Hx. pose proof (within_finite x k Hx) as Hfin.
  assert (within (JS.cos_approx x) (-52)) as Happrox.
  { destruct (Hrange x Hfin) as [Hlo Hhi].
    exact (leb_within _ 1 _ _ Prim2SF_1 Hhi Hlo). }
  assert (within 1 (-52)) as Hone.
  { unfold within. rewrite Prim2SF_1. simpl. lia. }
  unfold JS.cos. unfold Spec.finite in Hfin.
  destruct (classify x); try assumption; discriminate.
Qed.

(** The sine of half the angle between two coordinates changes at most
    its sign when the coordinates are exchanged. *)
Lemma half_angle_swap (Hodd : Spec.sinOdd engine) x y :
  JS.sin ((x - y) * JS.PI / 180 / 2) = - JS.sin ((y - x) * JS.PI / 180 / 2)
  \/ JS.sin ((x - y) * JS.PI / 180 / 2) = JS.sin ((y - x) * JS.PI / 180 / 2).
Proof.
  destruct (sub_antisym x y) as [H|[H1 H2]].
  - left. rewrite H, mul_opp_l, !div_opp_l. now apply sin_opp.
  - right. now rewrite H1, H2.
Qed.

Lemma half_angle_square (Hodd : Spec.sinOdd engine) x y :
  JS.sin ((x - y) * JS.PI / 180 / 2) * JS.sin ((x - y) * JS.PI / 180 / 2)
  = JS.sin ((y - x) * JS.PI / 180 / 2) * JS.sin ((y - x) * JS.PI / 180 / 2).
Proof.
  destruct (half_angle_swap Hodd x y) as [-> | ->]; [|reflexivity].
  apply mul_opp_opp.
Qed.

Lemma half_angle_weighted (Hodd : Spec.sinOdd engine) c x y :
  c * JS.sin ((x - y) * JS.PI / 180 / 2) * JS.sin ((x - y) * JS.PI / 180 / 2)
  = c * JS.sin ((y - x) * JS.PI / 180 / 2)
    * JS.sin ((y - x) * JS.PI / 180 / 2).
Proof.
  destruct (half_angle_swap Hodd x y) as [-> | ->]; [|reflexivity].
  rewrite (mul_opp_r c). apply mul_opp_opp.
Qed.

Lemma calculateDistance_sym (Hodd : Spec.sinOdd engine) (p q : Point.t) :
  OverpassService.calculateDistance p q = OverpassService.calculateDistance q p.
Proof.
  unfold OverpassService.calculateDistance. cbn zeta.
  rewrite (half_angle_square Hodd (Point.lat q) (Point.lat p)).
  rewrite (half_angle_weighted Hodd _ (Point.lng q) (Point.lng p)).
  rewrite (mul_comm (JS.cos (Point.lat p * JS.PI / 180))).
  reflexivity.
Qed.

Lemma cos_not_finite x : Spec.finite x = false -> JS.cos x = nan.
Proof. unfold Spec.finite, JS.cos. now destruct (classify x). Qed.

Lemma calculateDistance_self (Hrange : Spec.cosInRange engine) (p : Point.t) :
  Spec.finiteCoordinates p = true ->
  OverpassService.calculateDistance p p = 0.
Proof.
  unfold Spec.finiteCoordinates. rewrite andb_true_iff.
  intros [Hangle Hfin].
  destruct (radians_finite _ Hangle) as [klat Hlat].
  destruct (finite_within _ Hfin) as [klng Hlng].
  destruct (finite_within _ Hangle) as [kangle Hwithin].
  pose proof (cos_within Hrange _ _ Hwithin) as Hcos.
  unfold OverpassService.calculateDistance. cbn zeta.
  rewrite (sub_diag _ _ Hlat), (sub_diag _ _ Hlng).
  set (c := JS.cos (Point.lat p * JS.PI / 180)) in *.
  change (JS.sin (0 * JS.PI / 180 / 2)) with 0.
  assert (within (c * c) 3) as Hcc.
  { apply (mul_within c c (-52) (-52)); try assumption;
      unfold emin, emax, prec; lia. }
  destruct (mul_zero_r _ _ Hcc) as [s1 H1].
  destruct (mul_zero_r _ 0 (within_zero _ _ 0 H1)) as [s2 H2].
  change (0 * 0) with 0. rewrite (add_zero_zero _ _ H2).
  reflexivity.
Qed.

(** With other coordinates the computation meets NaN and returns it,
    whatever the engine. *)
Lemma calculateDistance_self_nan (p : Point.t) :
  Spec.finiteCoordinates p = false ->
  OverpassService.calculateDistance p p = nan.
Proof.
  unfold Spec.finiteCoordinates. rewrite andb_false_iff.
  unfold OverpassService.calculateDistance. cbn zeta.
  intros [Hangle|Hfin].
  - rewrite (cos_not_finite _ Hangle).
    rewrite !mul_nan_l, add_nan_r. reflexivity.
  - rewrite (sub_diag_nan _ Hfin).
    rewrite !mul_nan_l, !div_nan_l.
    change (JS.sin nan) with nan.
    rewrite !mul_nan_r, add_nan_r. reflexivity.
Qed.

End Engine.
End HaversineFacts.

(** The reference engine has the two properties. *)
Lemma reference_sinOdd : Spec.sinOdd Reference.engine.
Proof.
  intros x. cbn [JS.sin_approx Reference.engine]. unfold Reference.sinPoly.
  cbn zeta. rewrite FloatFacts.mul_opp_opp. apply FloatFacts.mul_opp_l.
Qed.

Lemma reference_cosInRange : Spec.cosInRange Reference.engine.
Proof.
  intros x _. cbn [JS.cos_approx Reference.engine]. unfold Reference.cosPoly.
  cbn zeta.
  set (c := 1 - x * x / 2 * (1 - x * x / 12 * (1 - x * x / 30))).
  destruct (c <=? 1) eqn:Hhi; [|split; reflexivity].
  destruct (-1 <=? c) eqn:Hlo; [|split; reflexivity].
  split; assumption.
Qed.

(** C8: the Haversine distance (mean Earth radius 6371 km) is symmetric:
    it returns the same value for both orders of any two points; and the
    distance from a point to itself is 0, for every point whose coordinates
    are numbers.  The first holds on an engine whose sine is odd, the
    second on an engine whose cosine stays within -1..1. *)
Theorem haversine_symmetric_and_zero {engine : JS.MathEngine} :
  (Spec.sinOdd engine ->
   forall A B : Point.t,
     OverpassService.calculateDistance A B
     = OverpassService.calculateDistance B A)
  /\ (Spec.cosInRange engine ->
      forall A : Point.t,
        Spec.finiteCoordinates A = true ->
        OverpassService.calculateDistance A A = 0).
Proof.
  split.
  - intros Hodd A B. now apply HaversineFacts.calculateDistance_sym.
  - intros Hrange A HA. now apply HaversineFacts.calculateDistance_self.
Qed.

(** On the reference engine: Shinjuku and Shibuya stations are at the same
    distance in both orders, and Shinjuku is at distance 0 from itself. *)
Lemma haversine_symmetric_and_zero_witness :
  Spec.sinOdd Reference.engine
  /\ Spec.cosInRange Reference.engine
  /\ Spec.finiteCoordinates Samples.shinjuku = true
  /\ OverpassService.calculateDistance Samples.shinjuku Samples.shibuya
     = OverpassService.calculateDistance Samples.shibuya Samples.shinjuku
  /\ OverpassService.calculateDistance Samples.shinjuku Samples.shinjuku = 0.
Proof.
  assert (Spec.finiteCoordinates Samples.shinjuku = true) as Hvalid
    by reflexivity.
  destruct (@haversine_symmetric_and_zero Reference.engine) as [Hsym Hzero].
  exact (conj reference_sinOdd
           (conj reference_cosInRange
              (conj Hvalid
                 (conj (Hsym reference_sinOdd _ _)
                       (Hzero reference_cosInRange _ Hvalid))))).
Defined.

(** The coordinates need not lie on the globe: on the reference engine
    the distance from a point to itself is 0 at latitude 91 and at latitude
    -1e300 as well.  Where a coordinate is not a number, or the latitude is
    too large for its angle in radians, the result is NaN. *)
Example distance_to_itself :
  let at_ (lat : float) :=
    {| Point.lat := lat; Point.lng := 139.6917; Point.name := None |} in
  map (fun lat => OverpassService.calculateDistance (at_ lat) (at_ lat))
      [91; -1e300; 1e308; nan]
  = [0; 0; nan; nan]
  /\ map (fun lat => Spec.finiteCoordinates (at_ lat)) [91; -1e300; 1e308; nan]
     = [true; true; false; false]
  /\ Spec.finiteCoordinates Samples.nowhere = false
  /\ Spec.finiteCoordinates Samples.faraway = false.
Proof. repeat split. Qed.

Example distance_shinjuku_shibuya :
  OverpassService.calculateDistance Samples.shinjuku Samples.shibuya
  = 3.625769681729742
  /\ OverpassService.calculateSearchRadius Samples.shinjuku Samples.shibuya
     = 3000.
Proof. split; reflexivity. Qed.

(** * Further properties

    Properties of the same functions, and of the functions they call and
    are called by, beyond the statements of the specification. *)

(** ** The two interpolation functions *)

Module MidPointFacts.

Lemma counter_succ (k : nat) : forall i,
  Spec.counter i k + 1 = Spec.counter (i + 1) k.
Proof. induction k as [|k IH]; intros i; [reflexivity|]. simpl. apply IH. Qed.

(** The loop of [calculateMultipleMidPoints] visits the counters [i],
    [i + 1], ... and puts, at each, the point of the segment at parameter
    [counter / (count + 1)]. *)
Lemma multipleMidPointsLoop_points (start end_ : Point.t) (count : float)
    (n : nat) : forall i : float,
  OverpassService.multipleMidPointsLoop start end_ count n i
  = map (fun k => Spec.pointAt start end_ (Spec.counter i k / (count + 1)))
        (seq 0 n).
Proof.
  induction n as [|n IH]; intros i; [reflexivity|].
  cbn [OverpassService.multipleMidPointsLoop seq map]. f_equal.
  rewrite IH, <- seq_shift, map_map. reflexivity.
Qed.

End MidPointFacts.

(** X1: [calculateMultipleMidPoints] and [calculateNearDestinationPoints]
    return the same list for every pair of points and every count: [count]
    points, the one at index [k] at the parameter [c / (count + 1)] of the
    segment, where [c] is a counter started at 1 and incremented [k]
    times. *)
Theorem mid_points_agree (start end_ : Point.t) (count : nat) :
  OverpassService.calculateMultipleMidPoints start end_ count
  = OverpassService.calculateNearDestinationPoints start end_ count
  /\ length (OverpassService.calculateNearDestinationPoints start end_ count)
     = count
  /\ (forall k, (k < count)%nat ->
        OverpassService.calculateNearDestinationPoints start end_ count !! k
        = Some (Spec.pointAt start end_
                  (Spec.counter 1 k / (JS.ofNat count + 1)))).
Proof.
  unfold OverpassService.calculateMultipleMidPoints,
    OverpassService.calculateNearDestinationPoints.
  rewrite MidPointFacts.multipleMidPointsLoop_points, nearDestinationLoop_points.
  assert (forall k, Spec.counter 0 k + 1 = Spec.counter 1 k) as Hc.
  { intros k. now rewrite MidPointFacts.counter_succ. }
  split; [|split].
  - apply map_ext. intros k. now rewrite Hc.
  - now rewrite length_map, length_seq.
  - intros k Hk. rewrite list_lookup_fmap, lookup_seq_lt by exact Hk.
    simpl. now rewrite Hc.
Qed.

(** Three points between the two stations, by either function. *)
Example mid_points_of_default_route :
  OverpassService.calculateMultipleMidPoints Samples.shinjuku Samples.shibuya 3
  = [ Spec.pointAt Samples.shinjuku Samples.shibuya (1 / 4);
      Spec.pointAt Samples.shinjuku Samples.shibuya (2 / 4);
      Spec.pointAt Samples.shinjuku Samples.shibuya (3 / 4) ].
Proof. reflexivity. Qed.

(** ** The geometry of the route *)

Module SignFacts.
Import Sign FloatFacts.

(** Rounding keeps the sign. *)
Lemma binary_round_aux_signed s m e l :
  signed s (binary_round_aux prec emax s m e l).
Proof.
  unfold binary_round_aux.
  destruct (shr_fexp prec emax m e l) as [mrs' e'].
  destruct (shr_fexp prec emax _ e' loc_Exact) as [mrs'' e''].
  destruct (shr_m mrs''); simpl; try reflexivity.
  destruct (Z.leb e'' (emax - prec)); reflexivity.
Qed.

Lemma binary_round_signed s m e : signed s (binary_round prec emax s m e).
Proof.
  unfold binary_round. destruct (shl_align m e _) as [mz ez].
  apply binary_round_aux_signed.
Qed.

Lemma signed_zeroOrSigned s x : signed s x -> zeroOrSigned s x.
Proof. destruct x; simpl; auto. Qed.

Lemma zeroOrNaN_zeroOrSigned s x : zeroOrNaN x -> zeroOrSigned s x.
Proof. destruct x; simpl; tauto. Qed.

Lemma SFmul_square x : signed false (SF64mul x x).
Proof.
  destruct x as [s|s| |s m e]; simpl; try (destruct s; reflexivity); try exact I.
  replace (xorb s s) with false by (now destruct s).
  apply binary_round_aux_signed.
Qed.


Lemma SFadd_signed s x y :
  signed s x -> signed s y -> signed s (SF64add x y).
Proof.
  destruct x as [sx|sx| |sx mx ex], y as [sy|sy| |sy my ey]; simpl; intros; subst;
    try exact I; try reflexivity; try (destruct s; reflexivity).
  unfold binary_normalize.
  destruct s; simpl; apply binary_round_signed.
Qed.

Lemma SFadd_zeroOrSigned s x y :
  zeroOrSigned s x -> zeroOrSigned s y -> zeroOrSigned s (SF64add x y).
Proof.
  destruct x as [sx|sx| |sx mx ex], y as [sy|sy| |sy my ey]; simpl; intros; subst;
    try exact I; try reflexivity; try (destruct s; reflexivity);
    try (destruct sx, sy; exact I).
  unfold binary_normalize.
  destruct s; simpl; apply signed_zeroOrSigned, binary_round_signed.
Qed.

Lemma SFadd_zeroOrNaN x y :
  zeroOrNaN x -> zeroOrNaN y -> zeroOrNaN (SF64add x y).
Proof.
  destruct x as [sx|sx| |sx mx ex], y as [sy|sy| |sy my ey]; simpl; try tauto.
  destruct sx, sy; tauto.
Qed.

Lemma SFmul_zeroOrNaN_l x y : zeroOrNaN x -> zeroOrNaN (SF64mul x y).
Proof.
  destruct x as [sx|sx| |sx mx ex], y as [sy|sy| |sy my ey]; simpl; tauto.
Qed.

Lemma SFmul_zeroOrNaN_r x y : zeroOrNaN y -> zeroOrNaN (SF64mul x y).
Proof.
  destruct x as [sx|sx| |sx mx ex], y as [sy|sy| |sy my ey]; simpl; tauto.
Qed.

(** A number minus itself is [+0], or NaN when the number is not finite. *)
Lemma SFsub_self x : SF64sub x x = S754_zero false \/ SF64sub x x = S754_nan.
Proof.
  destruct x as [s|s| |s m e].
  - left. now destruct s.
  - right. now destruct s.
  - now right.
  - left. apply (SFsub_diag _ e). simpl. lia.
Qed.




Lemma SFltb_zero_zeroOrSigned x :
  zeroOrSigned true x -> SFltb (S754_zero false) x = false.
Proof. destruct x as [s|s| |s m e]; simpl; intros; subst; reflexivity. Qed.

Lemma SFltb_zeroOrSigned_zero x :
  zeroOrSigned false x -> SFltb x (S754_zero false) = false.
Proof. destruct x as [s|s| |s m e]; simpl; intros; subst; reflexivity. Qed.

End SignFacts.

Module RouteFacts.
Import Sign FloatFacts SignFacts.

Lemma nan_of_spec x : Prim2SF x = S754_nan -> x = nan.
Proof. intros H. apply Prim2SF_inj. now rewrite H. Qed.


Lemma sub_self x : zeroOrNaN (Prim2SF (x - x)).
Proof.
  rewrite sub_spec. destruct (SFsub_self (Prim2SF x)) as [-> | ->]; exact I.
Qed.

Lemma mul_zeroOrNaN_l x y :
  zeroOrNaN (Prim2SF x) -> zeroOrNaN (Prim2SF (x * y)).
Proof. rewrite mul_spec. apply SFmul_zeroOrNaN_l. Qed.

Lemma mul_zeroOrNaN_r x y :
  zeroOrNaN (Prim2SF y) -> zeroOrNaN (Prim2SF (x * y)).
Proof. rewrite mul_spec. apply SFmul_zeroOrNaN_r. Qed.

Lemma add_zeroOrNaN x y :
  zeroOrNaN (Prim2SF x) -> zeroOrNaN (Prim2SF y) -> zeroOrNaN (Prim2SF (x + y)).
Proof. rewrite add_spec. apply SFadd_zeroOrNaN. Qed.

Lemma add_zeroOrSigned s x y :
  zeroOrSigned s (Prim2SF x) -> zeroOrSigned s (Prim2SF y) ->
  zeroOrSigned s (Prim2SF (x + y)).
Proof. rewrite add_spec. apply SFadd_zeroOrSigned. Qed.

Lemma mul_square x : signed false (Prim2SF (x * x)).
Proof. rewrite mul_spec. apply SFmul_square. Qed.

Lemma sum_of_squares x y : signed false (Prim2SF (x * x + y * y)).
Proof. rewrite add_spec. apply SFadd_signed; apply mul_square. Qed.

(** Not below zero: NaN, a zero, or positive. *)
Lemma ltb_zero_r_false x :
  zeroOrSigned false (Prim2SF x) -> (x <? 0) = false.
Proof. rewrite ltb_spec. apply SFltb_zeroOrSigned_zero. Qed.

(** Not above zero: NaN, a zero, or negative. *)
Lemma ltb_zero_l_false x :
  zeroOrSigned true (Prim2SF x) -> (0 <? x) = false.
Proof. rewrite ltb_spec. apply SFltb_zero_zeroOrSigned. Qed.

(** A difference times the opposite difference is not above zero. *)
Lemma mul_opposite_differences x y :
  zeroOrSigned true (Prim2SF ((x - y) * (y - x))).
Proof.
  destruct (sub_antisym y x) as [H|[H1 H2]].
  - rewrite H, mul_opp_r, opp_spec.
    pose proof (mul_square (x - y)) as Hsq.
    destruct (Prim2SF ((x - y) * (x - y))) as [s|s| |s m e]; simpl in *;
      subst; auto.
  - rewrite H1, H2. exact I.
Qed.


(** With start and end at the same place the quotient is 0/0, or has a
    NaN operand. *)
Lemma calculateDistanceFromRoute_degenerate (spot p : Point.t) :
  OverpassService.calculateDistanceFromRoute spot p p = nan.
Proof.
  unfold OverpassService.calculateDistanceFromRoute. cbn zeta.
  apply nan_of_spec. rewrite mul_spec, div_spec, abs_spec, sqrt_spec.
  pose proof (sub_self (Point.lat p)) as HA.
  pose proof (sub_self (Point.lng p)) as HB.
  pose proof (sub_self (Point.lng p * Point.lat p)) as HC.
  set (A := Point.lat p - Point.lat p) in *.
  set (B := Point.lng p - Point.lng p) in *.
  set (C := Point.lng p * Point.lat p - Point.lng p * Point.lat p) in *.
  assert (zeroOrNaN (Prim2SF (A * Point.lng spot + B * Point.lat spot + C)))
    as Hnum.
  { repeat apply add_zeroOrNaN; try assumption; now apply mul_zeroOrNaN_l. }
  assert (zeroOrNaN (Prim2SF (A * A + B * B))) as Hden.
  { apply add_zeroOrNaN; now apply mul_zeroOrNaN_l. }
  destruct (Prim2SF (A * Point.lng spot + B * Point.lat spot + C));
    try contradiction;
    destruct (Prim2SF (A * A + B * B)); try contradiction; reflexivity.
Qed.

Lemma isBackward_degenerate (spot p : Point.t) :
  OverpassService.isBackward spot p p = false.
Proof.
  unfold OverpassService.isBackward. cbn zeta.
  pose proof (sub_self (Point.lat p)) as HA.
  pose proof (sub_self (Point.lng p)) as HB.
  set (A := Point.lat p - Point.lat p) in *.
  set (B := Point.lng p - Point.lng p) in *.
  rewrite ltb_zero_r_false.
  2:{ apply zeroOrNaN_zeroOrSigned, add_zeroOrNaN; now apply mul_zeroOrNaN_l. }
  rewrite ltb_zero_l_false; [reflexivity|].
  apply zeroOrNaN_zeroOrSigned, add_zeroOrNaN; now apply mul_zeroOrNaN_l.
Qed.

Lemma isBackward_start (startPoint endPoint : Point.t) :
  OverpassService.isBackward startPoint startPoint endPoint = false.
Proof.
  unfold OverpassService.isBackward. cbn zeta.
  rewrite ltb_zero_r_false.
  2:{ apply zeroOrNaN_zeroOrSigned, add_zeroOrNaN;
        apply mul_zeroOrNaN_r, sub_self. }
  rewrite ltb_zero_l_false; [reflexivity|].
  apply add_zeroOrSigned; apply mul_opposite_differences.
Qed.

Lemma isBackward_end (startPoint endPoint : Point.t) :
  OverpassService.isBackward endPoint startPoint endPoint = false.
Proof.
  unfold OverpassService.isBackward. cbn zeta.
  rewrite ltb_zero_r_false.
  2:{ apply signed_zeroOrSigned, sum_of_squares. }
  rewrite ltb_zero_l_false; [reflexivity|].
  apply zeroOrNaN_zeroOrSigned, add_zeroOrNaN; apply mul_zeroOrNaN_r, sub_self.
Qed.

End RouteFacts.


(** X3: when start and end are the same point, whatever its coordinates,
    no spot is backward and the distance of every spot from the route is
    NaN; a spot rated for such a route stores NaN as its distance and gets
    none of the three route penalties. *)
Theorem zero_length_route {engine : JS.MathEngine} (p : Point.t) :
  (forall spot : Point.t,
     OverpassService.calculateDistanceFromRoute spot p p = nan)
  /\ (forall spot : Point.t, OverpassService.isBackward spot p p = false)
  /\ (forall spots : list Spot.t,
        Forall (fun rated =>
                  let facts := Spec.factsOf rated p p in
                  Spot.distanceFromRoute rated = Some nan
                  /\ Spec.backward facts = false
                  /\ Spec.routeOver2500m facts = false
                  /\ Spec.routeOver1800m facts = false)
               (OverpassService.addRatingsToSpots spots p p)).
Proof.
  split; [intros; apply RouteFacts.calculateDistanceFromRoute_degenerate|].
  split; [intros; apply RouteFacts.isBackward_degenerate|].
  intros spots. apply Forall_forall. intros rated Hin.
  unfold OverpassService.addRatingsToSpots in Hin.
  apply list_elem_of_In, in_map_iff in Hin as (spot & <- & _).
  cbn [OverpassService.withRating OverpassService.withDistanceFromRoute
       Spot.distanceFromRoute Spec.factsOf Spec.backward Spec.routeOver2500m
       Spec.routeOver1800m].
  rewrite RouteFacts.calculateDistanceFromRoute_degenerate.
  rewrite RouteFacts.isBackward_degenerate. repeat split.
Qed.

(** A spot north of Shinjuku station, rated for the route from the
    station to itself: NaN as distance, no route penalty, 3 stars. *)
Example rating_on_zero_length_route :
  map (fun rated => (Spot.distanceFromRoute rated, Spot.stars rated,
                     Spot.debugInfo rated))
      (OverpassService.addRatingsToSpots [Samples.behindStart]
         Samples.shinjuku Samples.shinjuku)
  = [(Some nan, Some Star3, Some (Scored [] 100))].
Proof. reflexivity. Qed.

(** X4: the two ends of the route are never backward of it: [isBackward]
    is false for the start point and for the end point, whatever the
    coordinates. *)
Theorem route_ends_not_backward (startPoint endPoint : Point.t) :
  OverpassService.isBackward startPoint startPoint endPoint = false
  /\ OverpassService.isBackward endPoint startPoint endPoint = false.
Proof.
  split; [apply RouteFacts.isBackward_start|apply RouteFacts.isBackward_end].
Qed.

(** ** The centre of a search *)

Module HalfFacts.
Import Magnitude FloatFacts.

(** Rounding a canonical mantissa changes nothing. *)
Lemma binary_round_aux_canonical s m e :
  bounded prec emax m e = true ->
  binary_round_aux prec emax s (Z.pos m) e loc_Exact = S754_finite s m e.
Proof.
  unfold bounded, canonical_mantissa. rewrite andb_true_iff.
  intros [Hc He]. apply Z.eqb_eq in Hc.
  unfold binary_round_aux, shr_fexp.
  cbn [Zdigits2 shr_record_of_loc]. rewrite Hc, Z.sub_diag.
  cbn [shr shr_m loc_of_shr_record round_nearest_even Zdigits2 shr_record_of_loc].
  rewrite Hc, Z.sub_diag. cbn [shr shr_m]. now rewrite He.
Qed.

(** Rounding twice a canonical mantissa of full width, one exponent
    lower, gives the mantissa back. *)
Lemma binary_round_aux_double s m e :
  bounded prec emax m e = true ->
  Z.pos (digits2_pos m) = prec ->
  binary_round_aux prec emax s (Z.pos m~0) (e - 1) loc_Exact
  = S754_finite s m e.
Proof.
  unfold bounded, canonical_mantissa. rewrite andb_true_iff.
  intros [Hc He] Hd. apply Z.eqb_eq in Hc.
  assert (fexp prec emax (Z.pos (digits2_pos m~0) + (e - 1)) = e) as Hc'.
  { rewrite <- Hc at 2. f_equal. cbn [digits2_pos]. lia. }
  unfold binary_round_aux, shr_fexp.
  cbn [Zdigits2 shr_record_of_loc]. rewrite Hc'.
  replace (e - (e - 1))%Z with 1%Z by lia.
  cbn [shr SpecFloat.iter_pos shr_1 orb shr_m loc_of_shr_record
       round_nearest_even Zdigits2 shr_record_of_loc].
  replace (e - 1 + 1)%Z with e by lia.
  rewrite Hc, Z.sub_diag. cbn [shr shr_m]. now rewrite He.
Qed.


Lemma div_eucl_mul (q : Z) (b : positive) :
  Z.div_eucl (q * Z.pos b) (Z.pos b) = (q, 0%Z).
Proof.
  pose proof (Z.div_mul q (Z.pos b) ltac:(lia)) as Hq.
  pose proof (Z.mod_mul q (Z.pos b) ltac:(lia)) as Hr.
  unfold Z.div, Z.modulo in *.
  destruct (Z.div_eucl (q * Z.pos b) (Z.pos b)) as [q' r'].
  simpl in *. now subst.
Qed.

(** A quotient by 2 that comes out even. *)
Lemma SFdiv_core_two (m1 : positive) (e1 : Z) (k m' : positive) :
  let e' := Z.min (fexp prec emax (Z.pos (digits2_pos m1) + e1 - 2)) (e1 + 51) in
  (e1 + 51 - e' = Z.pos k)%Z ->
  (Z.pos m1 * 2 ^ Z.pos k = Z.pos m' * 2 ^ 52)%Z ->
  SFdiv_core_binary prec emax (Z.pos m1) e1 (Z.pos 4503599627370496) (-51)
  = (Z.pos m', e', loc_Exact).
Proof.
  intros e' Hk Hm. unfold SFdiv_core_binary.
  change (Zdigits2 (Z.pos 4503599627370496)) with 53%Z.
  cbn [Zdigits2].
  replace (Z.pos (digits2_pos m1) + e1 - (53 + -51))%Z
    with (Z.pos (digits2_pos m1) + e1 - 2)%Z by lia.
  replace (e1 - -51)%Z with (e1 + 51)%Z by lia.
  fold e'. rewrite Hk. rewrite Z.shiftl_mul_pow2 by lia. rewrite Hm.
  change (2 ^ 52)%Z with (Z.pos 4503599627370496).
  rewrite div_eucl_mul. reflexivity.
Qed.

Lemma SFadd_self s m e :
  bounded prec emax m e = true -> (e <= 970)%Z ->
  SF64add (S754_finite s m e) (S754_finite s m e)
  = if (Z.pos (digits2_pos m) =? prec)%Z then S754_finite s m (e + 1)
    else S754_finite s (m~0)%positive e.
Proof.
  intros Hb He.
  assert (bounded prec emax m e = true) as Hb' by exact Hb.
  unfold bounded, canonical_mantissa in Hb. rewrite andb_true_iff in Hb.
  destruct Hb as [Hc Hle]. apply Z.eqb_eq in Hc. apply Z.leb_le in Hle.
  unfold fexp, emin, prec, emax in Hc.
  unfold SF64add, SFadd. cbn zeta. rewrite Z.min_id.
  assert (shl_align m e e = (m, e)) as ->.
  { unfold shl_align. now rewrite Z.sub_diag. }
  cbn [fst].
  assert (cond_Zopp s (Z.pos m) + cond_Zopp s (Z.pos m)
          = cond_Zopp s (Z.pos m~0))%Z as ->.
  { destruct s; cbn [cond_Zopp]; lia. }
  assert (binary_normalize prec emax (cond_Zopp s (Z.pos m~0)) e false
          = binary_round prec emax s (m~0)%positive e) as ->.
  { now destruct s. }
  unfold binary_round.
  assert (shl_align (m~0)%positive e
            (fexp prec emax (Z.pos (digits2_pos m~0) + e))
          = ((m~0)%positive, e)) as ->.
  { unfold shl_align.
    assert (0 <= fexp prec emax (Z.pos (digits2_pos m~0) + e) - e)%Z as Hn.
    { unfold fexp, emin, prec, emax. cbn [digits2_pos]. lia. }
    destruct (fexp prec emax (Z.pos (digits2_pos m~0) + e) - e)%Z;
      (reflexivity || lia). }
  destruct (Z.eqb_spec (Z.pos (digits2_pos m)) prec) as [Hd|Hd].
  - replace e with (e + 1 - 1)%Z at 1 by lia.
    apply binary_round_aux_double; [|exact Hd].
    unfold bounded, canonical_mantissa. apply andb_true_iff. split.
    + apply Z.eqb_eq. unfold fexp, emin, prec, emax in *. lia.
    + apply Z.leb_le. unfold prec, emax. lia.
  - apply binary_round_aux_canonical.
    unfold bounded, canonical_mantissa. apply andb_true_iff. split.
    + apply Z.eqb_eq. cbn [digits2_pos].
      unfold fexp, emin, prec, emax in *. lia.
    + apply Z.leb_le. exact Hle.
Qed.

Lemma SFhalf_double (x : spec_float) :
  valid_binary x = true -> bexp x 970 ->
  SF64div (SF64add x x) (S754_finite false 4503599627370496 (-51)) = x.
Proof.
  unfold valid_binary.
  destruct x as [s|s| |s m e]; cbn [SpecFloat.valid_binary bexp];
    try contradiction; intros Hb He; try reflexivity.
  { now destruct s. }
  rewrite (SFadd_self s m e Hb He).
  assert (bounded prec emax m e = true) as Hb' by exact Hb.
  unfold bounded, canonical_mantissa in Hb. rewrite andb_true_iff in Hb.
  destruct Hb as [Hc Hle]. apply Z.eqb_eq in Hc. apply Z.leb_le in Hle.
  unfold fexp, emin, prec, emax in Hc.
  destruct (Z.eqb_spec (Z.pos (digits2_pos m)) prec) as [Hd|Hd];
    unfold prec in Hd; unfold SF64div, SFdiv; rewrite xorb_false_r.
  - destruct (Z.eq_dec e (-1074)%Z) as [Hmin|Hmin].
    + rewrite (SFdiv_core_two m (e + 1) 52 m).
      * replace (Z.min _ _) with e
          by (unfold fexp, emin, prec, emax; lia).
        now apply binary_round_aux_canonical.
      * unfold fexp, emin, prec, emax; lia.
      * reflexivity.
    + rewrite (SFdiv_core_two m (e + 1) 53 (m~0)%positive).
      * replace (Z.min _ _) with (e - 1)%Z
          by (unfold fexp, emin, prec, emax; lia).
        now apply binary_round_aux_double.
      * unfold fexp, emin, prec, emax; lia.
      * change (2 ^ 53)%Z with (2 * 2 ^ 52)%Z. lia.
  - rewrite (SFdiv_core_two (m~0)%positive e 51 m).
    + replace (Z.min _ _) with e
        by (cbn [digits2_pos]; unfold fexp, emin, prec, emax; lia).
      now apply binary_round_aux_canonical.
    + cbn [digits2_pos]. unfold fexp, emin, prec, emax; lia.
    + change (2 ^ 52)%Z with (2 * 2 ^ 51)%Z. lia.
Qed.

(** Half of the double of a number is the number, unless the double
    overflows. *)
Lemma half_double (x : float) : within x 970 -> (x + x) / 2 = x.
Proof.
  intros Hx. apply Prim2SF_inj. rewrite div_spec, add_spec.
  change (Prim2SF 2) with (S754_finite false 4503599627370496 (-51)).
  apply SFhalf_double; [apply Prim2SF_valid|exact Hx].
Qed.

End HalfFacts.


(** X5: a search whose two points are the same point is centred on that
    point: when the coordinates of [p] are of moderate size (at most 2^1022,
    so that doubling does not overflow) the mid point of [p] and [p] has
    exactly the latitude and the longitude of [p], and the query of
    [searchSpots] for [p] and [p] is the query for the bounding box around
    [p].  This is how a roll searches around each of its sample points. *)
Theorem search_centred_on_point {engine : JS.MathEngine}
    (p : Point.t) (radius : float) (category : Category) :
  Spec.moderate (Point.lat p) = true ->
  Spec.moderate (Point.lng p) = true ->
  let midPoint := OverpassService.calculateMidPoint p p in
  Point.lat midPoint = Point.lat p
  /\ Point.lng midPoint = Point.lng p
  /\ Spec.queryFor p p radius category
     = OverpassService.buildOverpassQuery
         (OverpassService.calculateBoundingBox p radius) category.
Proof.
  unfold Spec.moderate. rewrite !andb_true_iff. intros [Hlat1 Hlat2] [Hlng1 Hlng2].
  assert (Prim2SF 0x1p1022 = S754_finite false 4503599627370496 970) as Hc
    by reflexivity.
  pose proof (HalfFacts.half_double _
                (FloatFacts.leb_within _ _ _ _ Hc Hlat2 Hlat1)) as Hlat.
  pose proof (HalfFacts.half_double _
                (FloatFacts.leb_within _ _ _ _ Hc Hlng2 Hlng1)) as Hlng.
  cbn zeta. cbn [OverpassService.calculateMidPoint Point.lat Point.lng].
  split; [exact Hlat|]. split; [exact Hlng|].
  unfold Spec.queryFor, OverpassService.calculateBoundingBox.
  cbn [OverpassService.calculateMidPoint Point.lat Point.lng].
  now rewrite Hlat, Hlng.
Qed.

Lemma search_centred_on_point_witness :
  Spec.moderate (Point.lat Samples.shinjuku) = true
  /\ Spec.moderate (Point.lng Samples.shinjuku) = true
  /\ Point.lat (OverpassService.calculateMidPoint Samples.shinjuku
                  Samples.shinjuku) = 35.6896
  /\ Point.lng (OverpassService.calculateMidPoint Samples.shinjuku
                  Samples.shinjuku) = 139.6917.
Proof.
  destruct (search_centred_on_point Samples.shinjuku 3000 restaurant
              eq_refl eq_refl) as (Hlat & Hlng & _).
  exact (conj eq_refl (conj eq_refl (conj Hlat Hlng))).
Defined.

(** Beyond that size the mid point of a point and itself is no longer
    the point: the sum overflows. *)
Example mid_point_of_faraway :
  Spec.moderate (Point.lat Samples.faraway) = false
  /\ Point.lat (OverpassService.calculateMidPoint Samples.faraway
                  Samples.faraway) = infinity.
Proof. split; reflexivity. Qed.

(** ** Bounds on the rating *)

Module ScoreFacts.

(** The score of the heuristic stays between -45 and 100. *)
Lemma score_range (f : Spec.Facts) : (-45 <= Spec.score f <= 100)%Z.
Proof.
  unfold Spec.score.
  destruct (Spec.backward f), (Spec.routeOver2500m f), (Spec.routeOver1800m f),
    (Spec.chain f), (Spec.nearStart f), (Spec.noOpeningHours f),
    (Spec.noPhone f), (Spec.noWebsite f); lia.
Qed.

Lemma stars_value (z : Z) :
  (starsValue (Spec.stars z) = 3 <-> 70 <= z)%Z
  /\ (starsValue (Spec.stars z) = 1 <-> z < 30)%Z.
Proof.
  unfold Spec.stars.
  destruct (Z.leb_spec 70 z); [simpl; lia|].
  destruct (Z.leb_spec 30 z); simpl; lia.
Qed.

Section Score.
Context {engine : JS.MathEngine}.

(** The rating of a spot that is not a major chain, with its trace: the
    listed penalties add up to what the score lost. *)
Lemma calculateSpotRating_scored (spot : Spot.t) (startPoint endPoint : Point.t) :
  Spot.isMajorChain spot <> Some true ->
  let facts := Spec.factsOf spot startPoint endPoint in
  exists trace,
    OverpassService.calculateSpotRating spot startPoint endPoint
    = {| OverpassService.ratingStars := Spec.stars (Spec.score facts);
         OverpassService.ratingDebugInfo :=
           Scored trace (JS.ofZ (Spec.score facts)) |}
    /\ (Spec.score facts = 100 - Z.of_nat (sum_list_with Spec.points trace))%Z.
Proof.
  intros Hmajor facts. subst facts.
  unfold OverpassService.calculateSpotRating, Spec.factsOf.
  rewrite RatingFacts.chain_truthy.
  rewrite bool_decide_eq_false_2 by exact Hmajor.
  rewrite !RatingFacts.exceeds_or_zero by reflexivity.
  rewrite !RatingFacts.missing_not_truthy, RatingFacts.chain_truthy.
  unfold Spec.score; cbn [Spec.backward Spec.routeOver2500m
    Spec.routeOver1800m Spec.chain Spec.nearStart Spec.noOpeningHours
    Spec.noPhone Spec.noWebsite].
  repeat match goal with
  | |- context [OverpassService.isBackward ?a ?b ?c] =>
      destruct (OverpassService.isBackward a b c)
  | |- context [Spec.exceeds ?o ?km] => destruct (Spec.exceeds o km)
  | |- context [bool_decide ?P] => destruct (bool_decide P)
  | |- context [PrimFloat.leb (OverpassService.calculateDistance ?a ?b) ?c] =>
      destruct (PrimFloat.leb (OverpassService.calculateDistance a b) c)
  | |- context [Spec.missing ?o] => destruct (Spec.missing o)
  end;
    (eexists; split; reflexivity).
Qed.

(** The stars of any spot, major chain or not. *)
Lemma calculateSpotRating_stars (spot : Spot.t) (startPoint endPoint : Point.t) :
  OverpassService.ratingStars
    (OverpassService.calculateSpotRating spot startPoint endPoint)
  = if JS.truthyBool (Spot.isMajorChain spot) then Star1
    else Spec.stars (Spec.score (Spec.factsOf spot startPoint endPoint)).
Proof.
  destruct (JS.truthyBool (Spot.isMajorChain spot)) eqn:Hmajor.
  - unfold OverpassService.calculateSpotRating. now rewrite Hmajor.
  - destruct (calculateSpotRating_scored spot startPoint endPoint)
      as (trace & -> & _); [|reflexivity].
    intros H. rewrite H in Hmajor. discriminate.
Qed.

End Score.
End ScoreFacts.

(** X6: a spot that is backward of the route never gets 3 stars: it is
    rated 1 or 2 stars, whatever its other attributes. *)
Theorem backward_spot_below_three_stars {engine : JS.MathEngine}
    (spot : Spot.t) (startPoint endPoint : Point.t) :
  OverpassService.isBackward (Spot.asPoint spot) startPoint endPoint = true ->
  (starsValue
     (OverpassService.ratingStars
        (OverpassService.calculateSpotRating spot startPoint endPoint))
   <= 2)%Z.
Proof.
  intros Hback. rewrite ScoreFacts.calculateSpotRating_stars.
  destruct (JS.truthyBool (Spot.isMajorChain spot)); [simpl; lia|].
  set (facts := Spec.factsOf spot startPoint endPoint).
  assert (Spec.score facts <= 60)%Z as Hscore.
  { unfold Spec.score. replace (Spec.backward facts) with true by now symmetry.
    destruct (Spec.routeOver2500m facts), (Spec.routeOver1800m facts),
      (Spec.chain facts), (Spec.nearStart facts), (Spec.noOpeningHours facts),
      (Spec.noPhone facts), (Spec.noWebsite facts); lia. }
  pose proof (ScoreFacts.stars_value (Spec.score facts)) as [H3 _].
  destruct (Spec.stars (Spec.score facts)); simpl in *; lia.
Qed.

(** The cafe behind Shinjuku station is backward of the route to Shibuya:
    with nothing else against it, it has 2 stars. *)
Lemma backward_spot_below_three_stars_witness :
  OverpassService.isBackward (Spot.asPoint Samples.behindStart)
    Samples.shinjuku Samples.shibuya = true
  /\ (starsValue
        (OverpassService.ratingStars
           (OverpassService.calculateSpotRating Samples.behindStart
              Samples.shinjuku Samples.shibuya))
      <= 2)%Z.
Proof.
  assert (OverpassService.isBackward (Spot.asPoint Samples.behindStart)
            Samples.shinjuku Samples.shibuya = true) as Hback by reflexivity.
  exact (conj Hback
           (backward_spot_below_three_stars Samples.behindStart
              Samples.shinjuku Samples.shibuya Hback)).
Defined.

(** X7: a spot gets 1 star only for being a chain, backward of the route
    or near the start: a spot that is no chain, not backward and farther
    than 0.3 km from the start gets at least 2 stars, however far from the
    route it is and whatever metadata it lacks. *)
Theorem independent_spot_at_least_two_stars {engine : JS.MathEngine}
    (spot : Spot.t) (startPoint endPoint : Point.t) :
  Spot.isMajorChain spot <> Some true ->
  Spot.isChain spot <> Some true ->
  OverpassService.isBackward (Spot.asPoint spot) startPoint endPoint = false ->
  (OverpassService.calculateDistance (Spot.asPoint spot) startPoint <=? 0.3)
  = false ->
  (2 <= starsValue
          (OverpassService.ratingStars
             (OverpassService.calculateSpotRating spot startPoint endPoint)))%Z.
Proof.
  intros Hmajor Hchain Hback Hnear.
  rewrite ScoreFacts.calculateSpotRating_stars.
  rewrite RatingFacts.chain_truthy, bool_decide_eq_false_2 by exact Hmajor.
  set (facts := Spec.factsOf spot startPoint endPoint).
  assert (40 <= Spec.score facts)%Z as Hscore.
  { unfold Spec.score.
    replace (Spec.backward facts) with false by now symmetry.
    replace (Spec.nearStart facts) with false by now symmetry.
    replace (Spec.chain facts) with false
      by (symmetry; now apply bool_decide_eq_false_2).
    destruct (Spec.routeOver2500m facts), (Spec.routeOver1800m facts),
      (Spec.noOpeningHours facts), (Spec.noPhone facts),
      (Spec.noWebsite facts); lia. }
  pose proof (ScoreFacts.stars_value (Spec.score facts)) as [_ H1].
  destruct (Spec.stars (Spec.score facts)); simpl in *; lia.
Qed.

Lemma independent_spot_at_least_two_stars_witness :
  Spot.isMajorChain Samples.kissaten <> Some true
  /\ Spot.isChain Samples.kissaten <> Some true
  /\ OverpassService.isBackward (Spot.asPoint Samples.kissaten)
       Samples.shinjuku Samples.shibuya = false
  /\ (OverpassService.calculateDistance (Spot.asPoint Samples.kissaten)
        Samples.shinjuku <=? 0.3) = false
  /\ (2 <= starsValue
             (OverpassService.ratingStars
                (OverpassService.calculateSpotRating Samples.kissaten
                   Samples.shinjuku Samples.shibuya)))%Z.
Proof.
  assert (Spot.isMajorChain Samples.kissaten <> Some true) as Hmajor
    by discriminate.
  assert (Spot.isChain Samples.kissaten <> Some true) as Hchain
    by discriminate.
  assert (OverpassService.isBackward (Spot.asPoint Samples.kissaten)
            Samples.shinjuku Samples.shibuya = false) as Hback by reflexivity.
  assert ((OverpassService.calculateDistance (Spot.asPoint Samples.kissaten)
             Samples.shinjuku <=? 0.3) = false) as Hnear by reflexivity.
  exact (conj Hmajor (conj Hchain (conj Hback (conj Hnear
           (independent_spot_at_least_two_stars Samples.kissaten
              Samples.shinjuku Samples.shibuya Hmajor Hchain Hback Hnear))))).
Defined.

(** X8: the debug trace of a rating accounts for its score: for a spot
    that is not a major chain the score is 100 minus the points of the
    penalties the trace lists (40 backward, 30 far from the route, 20
    slightly far, 20 chain, 25 near the start, 10 for each missing piece of
    metadata), it lies between -45 and 100, and the stars are those of this
    score. *)
Theorem score_accounts_for_listed_penalties {engine : JS.MathEngine}
    (spot : Spot.t) (startPoint endPoint : Point.t) :
  Spot.isMajorChain spot <> Some true ->
  exists (trace : list Penalty) (score : Z),
    OverpassService.calculateSpotRating spot startPoint endPoint
    = {| OverpassService.ratingStars := Spec.stars score;
         OverpassService.ratingDebugInfo := Scored trace (JS.ofZ score) |}
    /\ (score = 100 - Z.of_nat (sum_list_with Spec.points trace))%Z
    /\ (-45 <= score <= 100)%Z.
Proof.
  intros Hmajor.
  destruct (ScoreFacts.calculateSpotRating_scored spot startPoint endPoint Hmajor)
    as (trace & Hrating & Hsum).
  exists trace, (Spec.score (Spec.factsOf spot startPoint endPoint)).
  split; [exact Hrating|]. split; [exact Hsum|]. apply ScoreFacts.score_range.
Qed.

Lemma score_accounts_for_listed_penalties_witness :
  Spot.isMajorChain Samples.behindStart <> Some true
  /\ exists (trace : list Penalty) (score : Z),
       OverpassService.calculateSpotRating Samples.behindStart
         Samples.shinjuku Samples.shibuya
       = {| OverpassService.ratingStars := Spec.stars score;
            OverpassService.ratingDebugInfo := Scored trace (JS.ofZ score) |}
       /\ (score = 100 - Z.of_nat (sum_list_with Spec.points trace))%Z
       /\ (-45 <= score <= 100)%Z.
Proof.
  assert (Spot.isMajorChain Samples.behindStart <> Some true) as Hmajor
    by discriminate.
  exact (conj Hmajor
           (score_accounts_for_listed_penalties Samples.behindStart
              Samples.shinjuku Samples.shibuya Hmajor)).
Defined.

(** The lowest score: a general chain behind the start, far from the
    route, close to the start point and without metadata. *)
Example lowest_score :
  let spot :=
    Samples.spotWith "node_4" "スターバックス" 35.6892 139.6917
      (Some true) (Some false) None None None in
  let rating :=
    OverpassService.calculateSpotRating
      (OverpassService.withDistanceFromRoute spot 3)
      {| Point.lat := 35.6897; Point.lng := 139.6917; Point.name := None |}
      {| Point.lat := 35.6907; Point.lng := 139.6917; Point.name := None |} in
  OverpassService.ratingStars rating = Star1
  /\ Spec.scoreOf rating = Some (-45).
Proof. split; reflexivity. Qed.

(** ** Rated spots *)

Module RatedFacts.
Section Rated.
Context {engine : JS.MathEngine}.

Lemma addRatingsToSpots_ids (spots : list Spot.t) (s e : Point.t) :
  map Spot.id (OverpassService.addRatingsToSpots spots s e) = map Spot.id spots.
Proof.
  unfold OverpassService.addRatingsToSpots. rewrite map_map. reflexivity.
Qed.

Lemma addRatingsToSpots_rated (spots : list Spot.t) (s e : Point.t) :
  Forall Spec.rated (OverpassService.addRatingsToSpots spots s e).
Proof.
  unfold OverpassService.addRatingsToSpots. apply Forall_forall.
  intros spot Hin. apply list_elem_of_In, in_map_iff in Hin as (x & <- & _).
  unfold Spec.rated. cbn. eauto.
Qed.

(** Whatever stars, distance and debug text a spot carried before are
    ignored. *)
Lemma addRatingsToSpots_overwrites (spots : list Spot.t) (s e : Point.t)
    (d : float) (r : OverpassService.Rating) :
  OverpassService.addRatingsToSpots
    (map (fun spot =>
            OverpassService.withRating
              (OverpassService.withDistanceFromRoute spot d) r) spots) s e
  = OverpassService.addRatingsToSpots spots s e.
Proof.
  unfold OverpassService.addRatingsToSpots. rewrite map_map.
  apply map_ext. intros spot. reflexivity.
Qed.

Lemma addRatingsToSpots_again (spots : list Spot.t) (s e : Point.t) :
  OverpassService.addRatingsToSpots
    (OverpassService.addRatingsToSpots spots s e) s e
  = OverpassService.addRatingsToSpots spots s e.
Proof.
  unfold OverpassService.addRatingsToSpots. rewrite map_map.
  apply map_ext. intros spot. reflexivity.
Qed.

End Rated.
End RatedFacts.

(** X9: [addRatingsToSpots] keeps the spots, their order, identifiers and
    positions, and gives each one its stars, its distance from the route
    and its debug text; the stars are those that the attributes of the
    rated spot itself give (1 for a major chain, else the stars of its
    score); whatever stars, distance and debug text the spots carried
    before are overwritten, so rating again for the same route changes
    nothing. *)
Theorem ratings_are_recomputed {engine : JS.MathEngine}
    (spots : list Spot.t) (startPoint endPoint : Point.t) :
  let ratedSpots :=
    OverpassService.addRatingsToSpots spots startPoint endPoint in
  map Spot.id ratedSpots = map Spot.id spots
  /\ map Spot.asPoint ratedSpots = map Spot.asPoint spots
  /\ Forall Spec.rated ratedSpots
  /\ Forall (fun rated =>
               Spot.stars rated
               = Some (if JS.truthyBool (Spot.isMajorChain rated) then Star1
                       else Spec.stars
                              (Spec.score
                                 (Spec.factsOf rated startPoint endPoint))))
            ratedSpots
  /\ (forall (d : float) (r : OverpassService.Rating),
        OverpassService.addRatingsToSpots
          (map (fun spot =>
                  OverpassService.withRating
                    (OverpassService.withDistanceFromRoute spot d) r) spots)
          startPoint endPoint
        = ratedSpots)
  /\ OverpassService.addRatingsToSpots ratedSpots startPoint endPoint
     = ratedSpots.
Proof.
  intros ratedSpots. subst ratedSpots.
  split; [apply RatedFacts.addRatingsToSpots_ids|].
  split.
  { unfold OverpassService.addRatingsToSpots. rewrite map_map. reflexivity. }
  split; [apply RatedFacts.addRatingsToSpots_rated|].
  split.
  { apply Forall_forall. intros rated Hin.
    unfold OverpassService.addRatingsToSpots in Hin.
    apply list_elem_of_In, in_map_iff in Hin as (spot & <- & _).
    cbn [OverpassService.withRating Spot.stars].
    rewrite ScoreFacts.calculateSpotRating_stars. reflexivity. }
  split; [intros; apply RatedFacts.addRatingsToSpots_overwrites|].
  apply RatedFacts.addRatingsToSpots_again.
Qed.

(** ** Conversion of API elements *)

Module ChainFacts.

Lemma truthyString_Some (o : option string) :
  JS.truthyString o = true ->
  exists s, o = Some s /\ s <> ""%string /\ JS.orString o "" = s.
Proof.
  destruct o as [s|]; simpl; [|discriminate].
  destruct (String.eqb_spec s ""); simpl; [discriminate|]. eauto.
Qed.

(** [find] returns the first element that [some] would stop at. *)
Lemma find_existsb {A} (p : A -> bool) (l : list A) :
  match find p l with
  | Some x => In x l /\ p x = true /\ existsb p l = true
  | None => existsb p l = false
  end.
Proof.
  induction l as [|x l IH]; simpl; [reflexivity|].
  destruct (p x) eqn:Hx; [auto|]. simpl.
  destruct (find p l); [|exact IH]. tauto.
Qed.

(** Every major chain is on the list of common chains. *)
Lemma majorChains_common (major : string) :
  In major OverpassService.majorChains -> In major OverpassService.commonChains.
Proof.
  intros Hin.
  assert (forallb (fun major =>
                     existsb (String.eqb major) OverpassService.commonChains)
                  OverpassService.majorChains = true) as Hall
    by (vm_compute; reflexivity).
  rewrite forallb_forall in Hall. specialize (Hall major Hin).
  apply existsb_exists in Hall as (chain & Hchain & Heq).
  apply String.eqb_eq in Heq. now subst.
Qed.

Lemma detectChain_isChain (tags : gmap string string) :
  OverpassService.chainIsChain (OverpassService.detectChain tags)
  = JS.truthyString (tags !! "brand")
    || JS.truthyString (tags !! "operator")
    || existsb (fun chain => JS.includes (JS.orString (tags !! "name") "") chain)
         OverpassService.commonChains.
Proof.
  unfold OverpassService.detectChain.
  destruct (JS.truthyString (tags !! "brand")); [reflexivity|].
  destruct (JS.truthyString (tags !! "operator")); [reflexivity|]. cbn zeta.
  pose proof (find_existsb
    (fun chain => JS.includes (JS.orString (tags !! "name") "") chain)
    OverpassService.commonChains) as H.
  destruct (find _ OverpassService.commonChains).
  - simpl. symmetry. apply H.
  - simpl. symmetry. exact H.
Qed.

(** The three fields of a detection fit together. *)
Lemma detectChain_coherent (tags : gmap string string) :
  let info := OverpassService.detectChain tags in
  (OverpassService.chainIsChain info = true
   <-> is_Some (OverpassService.chainChainName info))
  /\ is_Some (OverpassService.chainIsMajorChain info)
  /\ (OverpassService.chainIsMajorChain info = Some true ->
      OverpassService.chainIsChain info = true).
Proof.
  assert (forall (b : bool) (n : option string) (m : bool),
            (b = true <-> is_Some n) ->
            (m = true -> b = true) ->
            let info :=
              {| OverpassService.chainIsChain := b;
                 OverpassService.chainChainName := n;
                 OverpassService.chainIsMajorChain := Some m |} in
            (OverpassService.chainIsChain info = true
             <-> is_Some (OverpassService.chainChainName info))
            /\ is_Some (OverpassService.chainIsMajorChain info)
            /\ (OverpassService.chainIsMajorChain info = Some true ->
                OverpassService.chainIsChain info = true)) as Hshape.
  { intros b n m Hn Hm. simpl. split; [exact Hn|]. split; [eauto|].
    intros [= ->]. now apply Hm. }
  unfold OverpassService.detectChain.
  destruct (JS.truthyString (tags !! "brand"));
    [apply Hshape; [split; eauto|reflexivity]|].
  destruct (JS.truthyString (tags !! "operator"));
    [apply Hshape; [split; eauto|reflexivity]|].
  cbn zeta.
  match goal with |- context [find ?p ?l] => destruct (find p l) end.
  - apply Hshape; [split; eauto|reflexivity].
  - apply Hshape; [|discriminate]. split; [discriminate|now intros []].
Qed.

End ChainFacts.

(** X10: chain detection.  A spot is flagged as a chain exactly when it has
    a non-empty brand tag, or a non-empty operator tag, or a name that
    contains one of the listed common chains; a brand tag decides the chain
    name and the major-chain flag before the operator and the name are
    looked at; a chain has a chain name and only a chain can be a major
    chain; and a name that contains a major chain always makes a chain. *)
Theorem chain_detection (tags : gmap string string) :
  let info := OverpassService.detectChain tags in
  let name := JS.orString (tags !! "name") "" in
  OverpassService.chainIsChain info
  = JS.truthyString (tags !! "brand")
    || JS.truthyString (tags !! "operator")
    || existsb (fun chain => JS.includes name chain) OverpassService.commonChains
  /\ (JS.truthyString (tags !! "brand") = true ->
      OverpassService.chainChainName info = tags !! "brand"
      /\ OverpassService.chainIsMajorChain info
         = Some (OverpassService.isMajorChain
                   (JS.orString (tags !! "brand") "")))
  /\ (OverpassService.chainIsChain info = true
      <-> is_Some (OverpassService.chainChainName info))
  /\ is_Some (OverpassService.chainIsMajorChain info)
  /\ (OverpassService.chainIsMajorChain info = Some true ->
      OverpassService.chainIsChain info = true)
  /\ (forall major,
        In major OverpassService.majorChains ->
        JS.includes name major = true ->
        OverpassService.chainIsChain info = true).
Proof.
  intros info name. subst info name.
  split; [apply ChainFacts.detectChain_isChain|].
  split.
  { intros Hbrand. unfold OverpassService.detectChain. rewrite Hbrand. simpl.
    apply ChainFacts.truthyString_Some in Hbrand as (s & -> & Hs & _).
    split; [|reflexivity]. simpl.
    destruct (String.eqb_spec s ""); [contradiction|reflexivity]. }
  destruct (ChainFacts.detectChain_coherent tags) as (Hname & Hsome & Hmajor).
  repeat split; try apply Hname; try assumption.
  intros major Hin Hincl. rewrite ChainFacts.detectChain_isChain.
  apply orb_true_iff. right. apply existsb_exists.
  exists major. split; [now apply ChainFacts.majorChains_common|exact Hincl].
Qed.

(** A name that contains a common chain before a major one is a chain
    but no major chain; the same text as brand is a major chain; and a
    brand that is on no list still makes a chain, whatever the name. *)
Example chain_by_name_and_by_brand :
  OverpassService.detectChain {[ "name" := "Starbucks KFC"%string ]}
  = {| OverpassService.chainIsChain := true;
       OverpassService.chainChainName := Some "Starbucks"%string;
       OverpassService.chainIsMajorChain := Some false |}
  /\ OverpassService.detectChain {[ "brand" := "Starbucks KFC"%string ]}
     = {| OverpassService.chainIsChain := true;
          OverpassService.chainChainName := Some "Starbucks KFC"%string;
          OverpassService.chainIsMajorChain := Some true |}
  /\ OverpassService.detectChain
       {[ "brand" := "町のパン屋"%string; "name" := "McDonald's"%string ]}
     = {| OverpassService.chainIsChain := true;
          OverpassService.chainChainName := Some "町のパン屋"%string;
          OverpassService.chainIsMajorChain := Some false |}.
Proof. repeat split. Qed.

Module ConvertFacts.
Section Convert.
Context {format : JS.NumberFormat}.

Lemma convertToSpots_elem_of (elements : list OverpassElement.t)
    (spot : Spot.t) :
  spot ∈ OverpassService.convertToSpots elements
  <-> exists element,
        element ∈ elements
        /\ JS.truthyString (OverpassElement.tags element !! "name") = true
        /\ spot = OverpassService.convertElement element.
Proof.
  unfold OverpassService.convertToSpots. rewrite list_elem_of_In, in_map_iff.
  split.
  - intros (element & <- & Hin). exists element.
    apply list_elem_of_In, list_elem_of_filter in Hin as [Hname Hin].
    repeat split; [exact Hin|now apply Is_true_eq_true].
  - intros (element & Hin & Hname & ->). exists element.
    split; [reflexivity|]. apply list_elem_of_In, list_elem_of_filter.
    split; [now apply Is_true_eq_left|exact Hin].
Qed.

Lemma convertToSpots_length (elements : list OverpassElement.t) :
  (length (OverpassService.convertToSpots elements) <= length elements)%nat.
Proof.
  unfold OverpassService.convertToSpots. rewrite length_map.
  apply length_filter.
Qed.

End Convert.
End ConvertFacts.

(** X11: [convertToSpots] keeps exactly the elements that have a
    non-empty name tag: every spot is the conversion of such an element,
    its name is that tag (the fallback name is never used) and is not
    empty, it is unrated, and its chain flags are set and fit together;
    every element with a non-empty name has its spot in the result, and
    there are no more spots than elements. *)
Theorem converted_spots_are_named {format : JS.NumberFormat}
    (elements : list OverpassElement.t) :
  let spots := OverpassService.convertToSpots elements in
  (forall spot, spot ∈ spots ->
     exists element,
       element ∈ elements
       /\ spot = OverpassService.convertElement element
       /\ OverpassElement.tags element !! "name" = Some (Spot.name spot)
       /\ Spot.name spot <> ""%string
       /\ Spot.stars spot = None
       /\ Spot.distanceFromRoute spot = None
       /\ Spot.debugInfo spot = None
       /\ is_Some (Spot.isChain spot)
       /\ is_Some (Spot.isMajorChain spot)
       /\ (Spot.isMajorChain spot = Some true -> Spot.isChain spot = Some true))
  /\ (forall element,
        element ∈ elements ->
        JS.truthyString (OverpassElement.tags element !! "name") = true ->
        OverpassService.convertElement element ∈ spots)
  /\ (length spots <= length elements)%nat.
Proof.
  intros spots. subst spots.
  split; [|split; [|apply ConvertFacts.convertToSpots_length]].
  - intros spot Hin.
    apply ConvertFacts.convertToSpots_elem_of in Hin
      as (element & Hin & Hname & ->).
    exists element. split; [exact Hin|]. split; [reflexivity|].
    apply ChainFacts.truthyString_Some in Hname as (s & Htag & Hs & _).
    destruct (ChainFacts.detectChain_coherent (OverpassElement.tags element))
      as (_ & Hsome & Hmajor).
    cbn [OverpassService.convertElement Spot.name Spot.stars
         Spot.distanceFromRoute Spot.debugInfo Spot.isChain Spot.isMajorChain].
    rewrite Htag. simpl.
    destruct (String.eqb_spec s ""); [contradiction|].
    repeat split; eauto.
    intros H. now rewrite (Hmajor H).
  - intros element Hin Hname.
    apply ConvertFacts.convertToSpots_elem_of. now exists element.
Qed.

Module NumberFacts.

Lemma digits2_pos_log2 (m : positive) :
  Z.pos (digits2_pos m) = (Z.log2 (Z.pos m) + 1)%Z.
Proof.
  assert (forall p, digits2_pos p = Pos.size p) as Hsize.
  { induction p as [p IH|p IH|]; simpl; now rewrite ?IH. }
  destruct m as [m|m|]; simpl; rewrite ?Hsize; lia.
Qed.

(** The mantissa and the exponent of a double are determined by its
    value. *)
Lemma canonical_unique (m1 m2 : positive) (e1 e2 c : Z) :
  canonical_mantissa prec emax m1 e1 = true ->
  canonical_mantissa prec emax m2 e2 = true ->
  (0 <= e1 + c)%Z -> (0 <= e2 + c)%Z ->
  (Z.pos m1 * 2 ^ (e1 + c) = Z.pos m2 * 2 ^ (e2 + c))%Z ->
  m1 = m2 /\ e1 = e2.
Proof.
  unfold canonical_mantissa. rewrite !Z.eqb_eq, !digits2_pos_log2.
  intros H1 H2 Hc1 Hc2 Heq.
  assert (Z.log2 (Z.pos m1) + e1 = Z.log2 (Z.pos m2) + e2)%Z as Hlog.
  { apply (f_equal Z.log2) in Heq.
    rewrite !Z.log2_mul_pow2 in Heq by lia. lia. }
  assert (e1 = e2) as <-.
  { rewrite <- H1, <- H2. f_equal. lia. }
  split; [|reflexivity].
  apply Z.mul_cancel_r in Heq; [congruence|].
  apply Z.pow_nonzero; lia.
Qed.

(** The integer a finite double denotes, against its mantissa. *)
Lemma toInteger_finite (x : float) (s : bool) (m : positive) (e z : Z) :
  Prim2SF x = S754_finite s m e -> JS.toInteger x = Some z ->
  exists a : Z,
    (0 < a)%Z /\ z = cond_Zopp s a
    /\ (Z.pos m * 2 ^ Z.max e 0 = a * 2 ^ Z.max (- e) 0)%Z.
Proof.
  unfold JS.toInteger. intros ->.
  destruct (Z.leb_spec 0 e) as [He|He].
  - intros [= <-]. exists (Z.pos m * 2 ^ e)%Z.
    rewrite Z.max_l, Z.max_r by lia. rewrite Z.pow_0_r.
    repeat split; [|lia]. apply Z.mul_pos_pos; [lia|]. apply Z.pow_pos_nonneg; lia.
  - destruct (Z.eqb_spec (Z.pos m mod 2 ^ (- e)) 0) as [Hmod|]; [|discriminate].
    intros [= <-]. exists (Z.pos m / 2 ^ (- e))%Z.
    rewrite Z.max_r, Z.max_l by lia. rewrite Z.pow_0_r.
    assert (0 < 2 ^ (- e))%Z as Hpow by (apply Z.pow_pos_nonneg; lia).
    pose proof (Z.div_mod (Z.pos m) (2 ^ (- e)) ltac:(lia)) as Hdm.
    rewrite Hmod in Hdm.
    repeat split; [|lia].
    destruct (Z.pos m / 2 ^ (- e))%Z eqn:Hq; lia.
Qed.

(** Two numbers that denote integers denote the same one exactly when
    they are equal ([===]). *)
Lemma toInteger_eqb (x y : float) (zx zy : Z) :
  JS.toInteger x = Some zx -> JS.toInteger y = Some zy ->
  (zx = zy <-> (x =? y) = true).
Proof.
  intros Hx Hy. rewrite FloatAxioms.eqb_spec. unfold SFeqb.
  pose proof (Prim2SF_valid x) as Vx. pose proof (Prim2SF_valid y) as Vy.
  destruct (Prim2SF x) as [sx|sx| |sx mx ex] eqn:Px;
    try (unfold JS.toInteger in Hx; rewrite Px in Hx; discriminate);
  destruct (Prim2SF y) as [sy|sy| |sy my ey] eqn:Py;
    try (unfold JS.toInteger in Hy; rewrite Py in Hy; discriminate).
  - unfold JS.toInteger in Hx, Hy. rewrite Px in Hx. rewrite Py in Hy.
    injection Hx as <-. injection Hy as <-. now split.
  - unfold JS.toInteger in Hx. rewrite Px in Hx. injection Hx as <-.
    destruct (toInteger_finite _ _ _ _ _ Py Hy) as (a & Ha & -> & _).
    simpl. split; [destruct sy; simpl; lia|now destruct sy].
  - unfold JS.toInteger in Hy. rewrite Py in Hy. injection Hy as <-.
    destruct (toInteger_finite _ _ _ _ _ Px Hx) as (a & Ha & -> & _).
    simpl. split; [destruct sx; simpl; lia|now destruct sx].
  - destruct (toInteger_finite _ _ _ _ _ Px Hx) as (a & Ha & -> & Hva).
    destruct (toInteger_finite _ _ _ _ _ Py Hy) as (b & Hb & -> & Hvb).
    unfold valid_binary in Vx, Vy. cbn [SpecFloat.valid_binary] in Vx, Vy.
    unfold bounded in Vx, Vy.
    apply andb_true_iff in Vx as [Cx _]. apply andb_true_iff in Vy as [Cy _].
    split.
    + intros Heq.
      assert (sx = sy /\ a = b) as [<- <-].
      { destruct sx, sy; simpl in Heq; split; try reflexivity; lia. }
      destruct (canonical_unique mx my ex ey (Z.max (- ex) 0 + Z.max (- ey) 0)
                  Cx Cy ltac:(lia) ltac:(lia)) as [<- <-].
      { replace (ex + (Z.max (- ex) 0 + Z.max (- ey) 0))%Z
          with (Z.max ex 0 + Z.max (- ey) 0)%Z by lia.
        replace (ey + (Z.max (- ex) 0 + Z.max (- ey) 0))%Z
          with (Z.max ey 0 + Z.max (- ex) 0)%Z by lia.
        rewrite !Z.pow_add_r by lia. rewrite !Z.mul_assoc, Hva, Hvb. ring. }
      simpl. rewrite Z.compare_refl, Pos.compare_cont_refl.
      now destruct sx.
    + simpl. intros Hcmp.
      assert (sx = sy /\ ex = ey /\ mx = my) as (<- & <- & <-).
      { destruct sx, sy; try discriminate;
          destruct (ex ?= ey)%Z eqn:He; try discriminate;
          apply Z.compare_eq in He;
          destruct (Pos.compare_cont Eq mx my) eqn:Hm; try discriminate;
          apply Pos.compare_eq in Hm; auto. }
      assert (Some (cond_Zopp sx a) = Some (cond_Zopp sx b)) as Hab.
      { rewrite <- Hx, <- Hy. unfold JS.toInteger. now rewrite Px, Py. }
      now injection Hab.
Qed.

Lemma safeInteger_eqb (x y : float) :
  is_Some (JS.safeInteger x) -> is_Some (JS.safeInteger y) ->
  (JS.safeInteger x = JS.safeInteger y <-> (x =? y) = true).
Proof.
  unfold JS.safeInteger. intros [zx Hx] [zy Hy].
  destruct (JS.toInteger x) as [a|] eqn:Ha; [|discriminate].
  destruct (JS.toInteger y) as [b|] eqn:Hb; [|discriminate].
  rewrite <- (toInteger_eqb x y a b Ha Hb).
  destruct (Z.abs a <=? 9007199254740991)%Z; [|discriminate].
  destruct (Z.abs b <=? 9007199254740991)%Z; [|discriminate].
  split; [now intros [= ->]|now intros ->].
Qed.

End NumberFacts.

Module IdentifierFacts.
Import Stdlib.Strings.Ascii.

Lemma list_ascii_app (a b : string) :
  String.list_ascii_of_string (a ++ b)
  = String.list_ascii_of_string a ++ String.list_ascii_of_string b.
Proof. induction a as [|c a IH]; simpl; [reflexivity|]. now rewrite IH. Qed.

(** The digits of a number, put in front of [s]. *)
Lemma pretty_N_go_chars (x : N) : forall (s : string) (c : ascii),
  In c (String.list_ascii_of_string (pretty_N_go x s)) ->
  In c (String.list_ascii_of_string s)
  \/ In c (String.list_ascii_of_string "0123456789").
Proof.
  induction (N.lt_wf_0 x) as [x _ IH]; intros s c Hc.
  assert (x = 0 \/ 0 < x)%N as [->|Hpos] by lia.
  - left. exact Hc.
  - rewrite pretty_N_go_step in Hc by exact Hpos.
    apply IH in Hc; [|now apply N.div_lt].
    destruct Hc as [Hc|Hc]; [|now right].
    simpl in Hc. destruct Hc as [<-|Hc]; [right|now left].
    unfold pretty_N_char.
    repeat match goal with
    | |- context [match ?n with _ => _ end] => destruct n
    end; simpl; tauto.
Qed.

Lemma pretty_N_chars (x : N) (c : ascii) :
  In c (String.list_ascii_of_string (pretty x)) ->
  In c (String.list_ascii_of_string "0123456789").
Proof.
  unfold pretty, pretty_N. destruct (decide (x = 0%N)).
  - simpl. intros [<-|[]]. now left.
  - intros Hc. apply pretty_N_go_chars in Hc as [[]|Hc]. exact Hc.
Qed.

Lemma pretty_Z_chars (z : Z) (c : ascii) :
  In c (String.list_ascii_of_string (pretty z)) ->
  In c (String.list_ascii_of_string "-0123456789").
Proof.
  destruct z as [|p|p]; unfold pretty, pretty_Z.
  - simpl. intros [<-|[]]. right. now left.
  - intros Hc. right. now apply (pretty_N_chars (Npos p)).
  - simpl. intros [<-|Hc]; [now left|].
    right. now apply (pretty_N_chars (Npos p)).
Qed.

(** The decimal text of an integer has no underscore. *)
Lemma pretty_Z_no_underscore (z : Z) :
  ~ In "_"%char (String.list_ascii_of_string (pretty z)).
Proof.
  intros Hc. apply pretty_Z_chars in Hc. simpl in Hc.
  repeat destruct Hc as [Hc|Hc]; try discriminate. exact Hc.
Qed.

(** A text is cut at its last underscore in one way only. *)
Lemma cut_at_underscore (t1 : string) : forall (t2 d1 d2 : string),
  (t1 ++ String "_" d1 = t2 ++ String "_" d2)%string ->
  ~ In "_"%char (String.list_ascii_of_string d1) ->
  ~ In "_"%char (String.list_ascii_of_string d2) ->
  t1 = t2 /\ d1 = d2.
Proof.
  induction t1 as [|c t1 IH]; intros [|c' t2] d1 d2 Heq H1 H2; simpl in Heq.
  - injection Heq as ->. now split.
  - injection Heq as <- ->. exfalso. apply H1.
    rewrite list_ascii_app. apply in_or_app. right. now left.
  - injection Heq as -> <-. exfalso. apply H2.
    rewrite list_ascii_app. apply in_or_app. right. now left.
  - injection Heq as <- Heq. destruct (IH _ _ _ Heq H1 H2) as [-> ->].
    now split.
Qed.

Section Identifier.
Context {format : JS.NumberFormat}.

Lemma numberToString_safe (x : float) (z : Z) :
  JS.safeInteger x = Some z -> JS.numberToString x = pretty z.
Proof. unfold JS.numberToString. now intros ->. Qed.

Lemma convertElement_id_safe (element : OverpassElement.t) (z : Z) :
  JS.safeInteger (OverpassElement.id element) = Some z ->
  Spot.id (OverpassService.convertElement element)
  = (OverpassElement.type element ++ "_" ++ pretty z)%string.
Proof.
  intros Hz. cbn [OverpassService.convertElement Spot.id].
  now rewrite (numberToString_safe _ _ Hz).
Qed.

Lemma convertElement_id_inj (e1 e2 : OverpassElement.t) :
  is_Some (JS.safeInteger (OverpassElement.id e1)) ->
  is_Some (JS.safeInteger (OverpassElement.id e2)) ->
  Spot.id (OverpassService.convertElement e1)
  = Spot.id (OverpassService.convertElement e2) ->
  OverpassElement.type e1 = OverpassElement.type e2
  /\ JS.safeInteger (OverpassElement.id e1)
     = JS.safeInteger (OverpassElement.id e2).
Proof.
  intros [z1 Hz1] [z2 Hz2].
  rewrite (convertElement_id_safe _ _ Hz1), (convertElement_id_safe _ _ Hz2).
  rewrite Hz1, Hz2. intros Heq.
  apply cut_at_underscore in Heq as [Htype Hid];
    try apply pretty_Z_no_underscore.
  split; [exact Htype|]. f_equal. now apply (inj pretty).
Qed.

End Identifier.

Lemma NoDup_map_inj {A B C} (f : A -> B) (g : A -> C) (l : list A) :
  (forall x y, In x l -> In y l -> g x = g y -> f x = f y) ->
  NoDup (map f l) -> NoDup (map g l).
Proof.
  induction l as [|x l IH]; simpl; intros Hinj; [constructor|].
  intros Hnd. apply NoDup_cons in Hnd as [Hx Hnd].
  apply NoDup_cons. split; [|apply IH; auto].
  intros Hin. apply Hx.
  apply list_elem_of_In, in_map_iff in Hin as (y & Heq & Hy).
  rewrite (Hinj x y); auto. apply list_elem_of_In, in_map, Hy.
Qed.

End IdentifierFacts.

(** ** Deduplication again *)

Module UniqueFacts.

Lemma firstOccurrences_NoDup_id (spots : list Spot.t) : forall seen,
  NoDup (map Spot.id spots) ->
  (forall i : string, i ∈ map Spot.id spots -> i ∉ seen) ->
  Spec.firstOccurrences seen spots = spots.
Proof.
  induction spots as [|x spots IH]; intros seen Hnd Hnew; [reflexivity|].
  simpl in *. apply NoDup_cons in Hnd as [Hx Hnd].
  rewrite bool_decide_eq_false_2 by (apply Hnew; now left).
  f_equal. apply IH; [exact Hnd|].
  intros i Hi. rewrite elem_of_app, list_elem_of_singleton.
  intros [Hseen| ->]; [|contradiction].
  revert Hseen. apply Hnew. now right.
Qed.

Lemma uniqueSpots_NoDup_id (spots : list Spot.t) :
  NoDup (map Spot.id spots) -> App.uniqueSpots spots = spots.
Proof.
  intros Hnd. rewrite DedupFacts.uniqueSpots_firstOccurrences.
  apply firstOccurrences_NoDup_id; [exact Hnd|].
  intros i _. apply not_elem_of_nil.
Qed.

Lemma uniqueSpots_NoDup (spots : list Spot.t) :
  NoDup (map Spot.id (App.uniqueSpots spots)).
Proof.
  rewrite DedupFacts.uniqueSpots_firstOccurrences.
  apply WalkFacts.firstOccurrences_NoDup.
Qed.

End UniqueFacts.

(** X12: deduplication by identifier changes a list exactly when an
    identifier is repeated in it, and once done it has nothing left to do:
    the result is the input if and only if the identifiers of the input are
    pairwise different, and deduplicating twice is deduplicating once. *)
Theorem dedupe_fixed_points (spots : list Spot.t) :
  (App.uniqueSpots spots = spots <-> NoDup (map Spot.id spots))
  /\ App.uniqueSpots (App.uniqueSpots spots) = App.uniqueSpots spots.
Proof.
  split.
  - split; [|apply UniqueFacts.uniqueSpots_NoDup_id].
    intros <-. apply UniqueFacts.uniqueSpots_NoDup.
  - apply UniqueFacts.uniqueSpots_NoDup_id, UniqueFacts.uniqueSpots_NoDup.
Qed.

(** X13: the identifier of a spot names its API element as long as the
    number of the element is a safe integer (an integer of absolute value
    at most 2^53 - 1, with -0 counted as 0): the identifier is then the
    type, an underscore and the decimal digits of the number; two such
    elements get the same identifier exactly when they have the same type
    and the same number, where the same number is the same integer, which
    for such numbers is equality ([===]); so elements with safe numbers that
    differ pairwise in type or number become spots with pairwise different
    identifiers, which deduplication by identifier leaves as they are. *)
Theorem spot_identifier_names_element {format : JS.NumberFormat} :
  (forall (element : OverpassElement.t) (z : Z),
     JS.safeInteger (OverpassElement.id element) = Some z ->
     Spot.id (OverpassService.convertElement element)
     = (OverpassElement.type element ++ "_" ++ pretty z)%string)
  /\ (forall e1 e2 : OverpassElement.t,
        is_Some (JS.safeInteger (OverpassElement.id e1)) ->
        is_Some (JS.safeInteger (OverpassElement.id e2)) ->
        (Spot.id (OverpassService.convertElement e1)
         = Spot.id (OverpassService.convertElement e2)
         <-> OverpassElement.type e1 = OverpassElement.type e2
             /\ JS.safeInteger (OverpassElement.id e1)
                = JS.safeInteger (OverpassElement.id e2))
        /\ (JS.safeInteger (OverpassElement.id e1)
            = JS.safeInteger (OverpassElement.id e2)
            <-> (OverpassElement.id e1 =? OverpassElement.id e2) = true))
  /\ (forall elements : list OverpassElement.t,
        Forall (fun element =>
                  is_Some (JS.safeInteger (OverpassElement.id element)))
               elements ->
        NoDup (map (fun element =>
                      (OverpassElement.type element,
                       JS.safeInteger (OverpassElement.id element)))
                   elements) ->
        NoDup (map Spot.id (OverpassService.convertToSpots elements))
        /\ App.uniqueSpots (OverpassService.convertToSpots elements)
           = OverpassService.convertToSpots elements).
Proof.
  split; [apply IdentifierFacts.convertElement_id_safe|]. split.
  - intros e1 e2 [z1 Hz1] [z2 Hz2].
    split; [|apply NumberFacts.safeInteger_eqb; eauto]. split.
    + apply IdentifierFacts.convertElement_id_inj; eauto.
    + intros [Htype Hid].
      rewrite (IdentifierFacts.convertElement_id_safe _ _ Hz1),
        (IdentifierFacts.convertElement_id_safe _ _ Hz2), Htype.
      rewrite Hz1, Hz2 in Hid. now injection Hid as ->.
  - intros elements Hsafe Hnd.
    assert (NoDup (map Spot.id (OverpassService.convertToSpots elements)))
      as Hids.
    { unfold OverpassService.convertToSpots. rewrite map_map.
      apply (IdentifierFacts.NoDup_map_inj
               (fun element =>
                  (OverpassElement.type element,
                   JS.safeInteger (OverpassElement.id element)))).
      - intros x y Hx Hy Heq.
        apply list_elem_of_In, list_elem_of_filter in Hx as [_ Hx].
        apply list_elem_of_In, list_elem_of_filter in Hy as [_ Hy].
        rewrite Forall_forall in Hsafe.
        destruct (IdentifierFacts.convertElement_id_inj x y
                    (Hsafe _ Hx) (Hsafe _ Hy) Heq) as [-> ->].
        reflexivity.
      - apply (sublist_NoDup _ _ Hnd).
        apply fmap_sublist, sublist_filter. }
    split; [exact Hids|]. now apply UniqueFacts.uniqueSpots_NoDup_id.
Qed.

(** A number that is not a safe integer is printed with the fewest digits
    that read back as it, in exponential form from 10^21 on; and the
    numerals 2^53 and 2^53 + 1 are the same number, so the two elements
    they would name are one. *)
Example identifier_of_large_number :
  map (fun id =>
         Spot.id (OverpassService.convertElement
                    (Samples.cafeElement id "喫茶" 35.6738 139.6967)))
      [1234567890123; 1e21; 9007199254740992; 9007199254740993; -0]
  = ["node_1234567890123"; "node_1e+21"; "node_9007199254740992";
     "node_9007199254740992"; "node_0"]%string
  /\ map JS.safeInteger [1234567890123; 1e21; 9007199254740992; -0]
     = [Some 1234567890123%Z; None; None; Some 0%Z].
Proof. split; vm_compute; reflexivity. Qed.

(** ** Description and address *)

Module TextFacts.

Lemma join_cons_nonempty (sep p : string) (rest : list string) :
  p <> ""%string -> JS.join sep (p :: rest) <> ""%string.
Proof.
  intros Hp. destruct rest as [|q rest]; simpl; [exact Hp|].
  destruct p; [contradiction|discriminate].
Qed.

(** [if (tag) parts.push(text)], by the truthiness of the tag. *)
Lemma pushIf_truthy (tag : option string) (text : string -> string)
    (parts : list string) :
  OverpassService.pushIf tag text parts
  = if JS.truthyString tag
    then parts ++ [text (JS.orString tag "")]
    else parts.
Proof.
  destruct tag as [s|]; simpl; [|reflexivity].
  destruct (String.eqb s ""); reflexivity.
Qed.

Lemma orString_nonempty (o : option string) :
  JS.truthyString o = true -> JS.orString o "" <> ""%string.
Proof.
  intros H. apply ChainFacts.truthyString_Some in H as (s & -> & Hs & ->).
  exact Hs.
Qed.

Lemma generateDescription_empty (tags : gmap string string) :
  OverpassService.generateDescription tags = ""%string
  <-> JS.truthyString (tags !! "amenity") = false
      /\ JS.truthyString (tags !! "tourism") = false
      /\ JS.truthyString (tags !! "cuisine") = false
      /\ JS.truthyString (tags !! "shop") = false.
Proof.
  unfold OverpassService.generateDescription. cbn zeta.
  rewrite !pushIf_truthy.
  pose proof (orString_nonempty (tags !! "amenity")) as Ha.
  pose proof (orString_nonempty (tags !! "tourism")) as Ht.
  destruct (JS.truthyString (tags !! "amenity")),
    (JS.truthyString (tags !! "tourism")),
    (JS.truthyString (tags !! "cuisine")),
    (JS.truthyString (tags !! "shop")); cbn [app];
    (split; [|intros (? & ? & ? & ?); (discriminate || reflexivity)]);
    intros H; try (now repeat split); exfalso; revert H;
    apply join_cons_nonempty; auto; discriminate.
Qed.

Lemma extractAddress_empty (tags : gmap string string) :
  OverpassService.extractAddress tags = ""%string
  <-> JS.truthyString (tags !! "addr:full") = false
      /\ JS.truthyString (tags !! "addr:housenumber") = false
      /\ JS.truthyString (tags !! "addr:street") = false
      /\ JS.truthyString (tags !! "addr:city") = false.
Proof.
  unfold OverpassService.extractAddress. cbn zeta.
  rewrite !pushIf_truthy.
  pose proof (orString_nonempty (tags !! "addr:full")) as Hf.
  pose proof (orString_nonempty (tags !! "addr:housenumber")) as Hh.
  pose proof (orString_nonempty (tags !! "addr:street")) as Hs.
  pose proof (orString_nonempty (tags !! "addr:city")) as Hc.
  destruct (JS.truthyString (tags !! "addr:full")).
  { split; [intros H; now apply Hf in H|intros []; discriminate]. }
  destruct (JS.truthyString (tags !! "addr:housenumber")),
    (JS.truthyString (tags !! "addr:street")),
    (JS.truthyString (tags !! "addr:city")); cbn [app];
    (split; [|intros (? & ? & ? & ?); (discriminate || reflexivity)]);
    intros H; try (now repeat split); exfalso; revert H;
    apply join_cons_nonempty; auto.
Qed.

Lemma extractAddress_full (tags : gmap string string) :
  JS.truthyString (tags !! "addr:full") = true ->
  tags !! "addr:full" = Some (OverpassService.extractAddress tags).
Proof.
  intros Hfull. unfold OverpassService.extractAddress. rewrite Hfull.
  apply ChainFacts.truthyString_Some in Hfull as (s & Htag & _ & ->).
  exact Htag.
Qed.

End TextFacts.

(** X14: the description of a spot is empty exactly when its element has
    none of the tags amenity, tourism, cuisine and shop with a non-empty
    value, and its address is empty exactly when it has none of the four
    address tags; a non-empty [addr:full] tag is the address, whatever the
    other address tags say. *)
Theorem description_and_address_presence (tags : gmap string string) :
  (OverpassService.generateDescription tags = ""%string
   <-> JS.truthyString (tags !! "amenity") = false
       /\ JS.truthyString (tags !! "tourism") = false
       /\ JS.truthyString (tags !! "cuisine") = false
       /\ JS.truthyString (tags !! "shop") = false)
  /\ (OverpassService.extractAddress tags = ""%string
      <-> JS.truthyString (tags !! "addr:full") = false
          /\ JS.truthyString (tags !! "addr:housenumber") = false
          /\ JS.truthyString (tags !! "addr:street") = false
          /\ JS.truthyString (tags !! "addr:city") = false)
  /\ (JS.truthyString (tags !! "addr:full") = true ->
      tags !! "addr:full" = Some (OverpassService.extractAddress tags)).
Proof.
  split; [apply TextFacts.generateDescription_empty|].
  split; [apply TextFacts.extractAddress_empty|apply TextFacts.extractAddress_full].
Qed.

Example description_and_address_of_a_restaurant :
  let tags : gmap string string :=
    {[ "name" := "そば処"; "amenity" := "restaurant"; "cuisine" := "soba";
       "addr:housenumber" := "1-2-3"; "addr:city" := "渋谷区" ]}%string in
  OverpassService.generateDescription tags = "restaurant | 料理: soba"%string
  /\ OverpassService.extractAddress tags = "1-2-3 渋谷区"%string.
Proof. split; reflexivity. Qed.

(** ** The query and the categories *)

Module SelectorFacts.

Lemma selectors_within_all (category : Category)
    (selector : OverpassService.Selector) :
  In selector (OverpassService.selectorsFor category) ->
  In selector (OverpassService.selectorsFor all).
Proof. destruct category; simpl; tauto. Qed.

Lemma all_within_selectors (selector : OverpassService.Selector) :
  In selector (OverpassService.selectorsFor all) ->
  exists category,
    category <> all /\ In selector (OverpassService.selectorsFor category).
Proof.
  simpl. intros H.
  repeat destruct H as [<-|H]; try contradiction;
    [exists restaurant|exists cafe|exists restaurant|exists tourist_attraction
    |exists tourist_attraction|exists gas_station|exists shop];
    (split; [discriminate|simpl; tauto]).
Qed.

(** The rule [determineCategory] applies, read off its result. *)
Lemma determineCategory_rule (tags : gmap string string) :
  match OverpassService.determineCategory tags with
  | restaurant =>
      tags !! "amenity" = Some "restaurant"%string
      \/ tags !! "amenity" = Some "fast_food"%string
      \/ (tags !! "amenity" <> Some "cafe"%string
          /\ tags !! "amenity" <> Some "fuel"%string
          /\ tags !! "tourism" <> Some "attraction"%string
          /\ tags !! "tourism" <> Some "museum"%string
          /\ JS.truthyString (tags !! "shop") = false)
  | cafe => tags !! "amenity" = Some "cafe"%string
  | tourist_attraction =>
      tags !! "tourism" = Some "attraction"%string
      \/ tags !! "tourism" = Some "museum"%string
  | gas_station => tags !! "amenity" = Some "fuel"%string
  | shop => JS.truthyString (tags !! "shop") = true
  | all => False
  end.
Proof.
  unfold OverpassService.determineCategory.
  repeat case_bool_decide; simpl; auto.
  destruct (JS.truthyString (tags !! "shop")) eqn:Hshop; auto 10.
Qed.

Lemma truthy_is_Some (tag : option string) :
  JS.truthyString tag = true -> is_Some tag.
Proof. destruct tag; [eauto|discriminate]. Qed.

Lemma falsy_is_Some (tag : option string) :
  JS.truthyString tag = false -> is_Some tag -> tag = Some ""%string.
Proof.
  intros Hfalse [s ->]. simpl in Hfalse.
  destruct (String.eqb_spec s ""); [congruence|discriminate].
Qed.

(** A spot of a category other than restaurant passes a filter of the
    query for that category. *)
Lemma category_matched (tags : gmap string string) (category : Category) :
  category <> restaurant ->
  OverpassService.determineCategory tags = category ->
  exists selector,
    In selector (OverpassService.selectorsFor category)
    /\ Spec.matches tags selector.
Proof.
  intros Hne <-. pose proof (determineCategory_rule tags) as Hrule.
  destruct (OverpassService.determineCategory tags);
    [contradiction| | | | |contradiction].
  - destruct Hrule as [H|H];
      [exists {| OverpassService.key := "tourism";
                 OverpassService.value := Some "attraction"%string |}
      |exists {| OverpassService.key := "tourism";
                 OverpassService.value := Some "museum"%string |}];
      (split; [simpl; tauto|exact H]).
  - exists {| OverpassService.key := "amenity";
              OverpassService.value := Some "fuel"%string |}.
    split; [simpl; tauto|exact Hrule].
  - exists {| OverpassService.key := "shop"; OverpassService.value := None |}.
    split; [simpl; tauto|]. now apply truthy_is_Some.
  - exists {| OverpassService.key := "amenity";
              OverpassService.value := Some "cafe"%string |}.
    split; [simpl; tauto|exact Hrule].
Qed.

Lemma matched_restaurant (tags : gmap string string)
    (selector : OverpassService.Selector) :
  In selector (OverpassService.selectorsFor restaurant) ->
  Spec.matches tags selector ->
  OverpassService.determineCategory tags = restaurant.
Proof.
  unfold Spec.matches, OverpassService.determineCategory. simpl.
  intros [<-|[<-|[]]]; simpl; intros ->; reflexivity.
Qed.

Lemma matched_cafe (tags : gmap string string)
    (selector : OverpassService.Selector) :
  In selector (OverpassService.selectorsFor cafe) ->
  Spec.matches tags selector ->
  OverpassService.determineCategory tags = cafe.
Proof.
  unfold Spec.matches, OverpassService.determineCategory. simpl.
  intros [<-|[]]; simpl; intros ->; reflexivity.
Qed.

Lemma matched_tourist_attraction (tags : gmap string string)
    (selector : OverpassService.Selector) :
  In selector (OverpassService.selectorsFor tourist_attraction) ->
  Spec.matches tags selector ->
  In (OverpassService.determineCategory tags)
     [restaurant; cafe; tourist_attraction].
Proof.
  unfold Spec.matches, OverpassService.determineCategory. simpl.
  intros [<-|[<-|[]]]; simpl; intros ->;
    repeat case_bool_decide; simpl; auto.
Qed.

Lemma matched_gas_station (tags : gmap string string)
    (selector : OverpassService.Selector) :
  In selector (OverpassService.selectorsFor gas_station) ->
  Spec.matches tags selector ->
  In (OverpassService.determineCategory tags)
     [tourist_attraction; gas_station].
Proof.
  unfold Spec.matches, OverpassService.determineCategory. simpl.
  intros [<-|[]]; simpl; intros ->;
    repeat case_bool_decide; simpl; auto; congruence.
Qed.

(** The elements that pass a filter of the query for [all]. *)
Lemma matched_all (tags : gmap string string) :
  (exists selector,
     In selector (OverpassService.selectorsFor all)
     /\ Spec.matches tags selector)
  <-> OverpassService.determineCategory tags <> restaurant
      \/ tags !! "amenity" = Some "restaurant"%string
      \/ tags !! "amenity" = Some "fast_food"%string
      \/ tags !! "shop" = Some ""%string.
Proof.
  split.
  - intros (selector & Hin & Hm).
    pose proof (determineCategory_rule tags) as Hrule.
    destruct (OverpassService.determineCategory tags);
      try (left; discriminate).
    destruct Hrule as [H|[H|(Hcafe & Hfuel & Hattraction & Hmuseum & Hshop)]];
      [tauto|tauto|].
    unfold Spec.matches in Hm. simpl in Hin.
    repeat destruct Hin as [<-|Hin]; try contradiction; simpl in Hm;
      try congruence; [tauto|tauto|].
    right. right. right. now apply falsy_is_Some.
  - intros [Hne|[H|[H|H]]].
    + destruct (category_matched tags _ Hne eq_refl) as (selector & Hin & Hm).
      exists selector. split; [|exact Hm].
      now apply (selectors_within_all (OverpassService.determineCategory tags)).
    + exists {| OverpassService.key := "amenity";
                OverpassService.value := Some "restaurant"%string |}.
      split; [simpl; tauto|exact H].
    + exists {| OverpassService.key := "amenity";
                OverpassService.value := Some "fast_food"%string |}.
      split; [simpl; tauto|exact H].
    + exists {| OverpassService.key := "shop"; OverpassService.value := None |}.
      split; [simpl; tauto|]. unfold Spec.matches. simpl. rewrite H. eauto.
Qed.

End SelectorFacts.

(** X15: the filters of the query and the rules of [determineCategory].
    The query for [all] is made of the filters of the five other categories
    and of nothing else.  A spot whose category is not restaurant passes a
    filter of the query for its category.  An element that passes a filter
    of the restaurant query, or of the cafe query, becomes a spot of that
    category; one that passes a filter of the tourist attraction query
    becomes a restaurant, a cafe or a tourist attraction; one that passes
    the filter of the gas station query becomes a tourist attraction or a
    gas station.  An element passes a filter of the query for [all]
    exactly when its category is not restaurant, or its amenity is
    restaurant or fast_food, or its shop tag is empty: the last is the one
    case where the category falls back to restaurant on an element the
    query returns. *)
Theorem query_filters_and_categories :
  (forall category selector,
     In selector (OverpassService.selectorsFor category) ->
     In selector (OverpassService.selectorsFor all))
  /\ (forall selector,
        In selector (OverpassService.selectorsFor all) ->
        exists category,
          category <> all
          /\ In selector (OverpassService.selectorsFor category))
  /\ (forall tags category,
        category <> restaurant ->
        OverpassService.determineCategory tags = category ->
        exists selector,
          In selector (OverpassService.selectorsFor category)
          /\ Spec.matches tags selector)
  /\ (forall tags selector,
        In selector (OverpassService.selectorsFor restaurant) ->
        Spec.matches tags selector ->
        OverpassService.determineCategory tags = restaurant)
  /\ (forall tags selector,
        In selector (OverpassService.selectorsFor cafe) ->
        Spec.matches tags selector ->
        OverpassService.determineCategory tags = cafe)
  /\ (forall tags selector,
        In selector (OverpassService.selectorsFor tourist_attraction) ->
        Spec.matches tags selector ->
        In (OverpassService.determineCategory tags)
           [restaurant; cafe; tourist_attraction])
  /\ (forall tags selector,
        In selector (OverpassService.selectorsFor gas_station) ->
        Spec.matches tags selector ->
        In (OverpassService.determineCategory tags)
           [tourist_attraction; gas_station])
  /\ (forall tags,
        (exists selector,
           In selector (OverpassService.selectorsFor all)
           /\ Spec.matches tags selector)
        <-> OverpassService.determineCategory tags <> restaurant
            \/ tags !! "amenity" = Some "restaurant"%string
            \/ tags !! "amenity" = Some "fast_food"%string
            \/ tags !! "shop" = Some ""%string)
  /\ (forall box category,
        OverpassService.selectors
          (OverpassService.buildOverpassQuery box category)
        = OverpassService.selectorsFor category
        /\ OverpassService.bbox
             (OverpassService.buildOverpassQuery box category) = box).
Proof.
  split; [apply SelectorFacts.selectors_within_all|].
  split; [apply SelectorFacts.all_within_selectors|].
  split; [apply SelectorFacts.category_matched|].
  split; [apply SelectorFacts.matched_restaurant|].
  split; [apply SelectorFacts.matched_cafe|].
  split; [apply SelectorFacts.matched_tourist_attraction|].
  split; [apply SelectorFacts.matched_gas_station|].
  split; [apply SelectorFacts.matched_all|].
  intros box category. split; reflexivity.
Qed.

(** An element with an empty shop tag passes the filter of the shop query
    and of the query for [all], and becomes a restaurant. *)
Example empty_shop_tag :
  let tags : gmap string string := {[ "shop" := ""%string ]} in
  Spec.matches tags {| OverpassService.key := "shop";
                       OverpassService.value := None |}
  /\ OverpassService.determineCategory tags = restaurant.
Proof. split; [now exists ""%string|reflexivity]. Qed.

(** For the other categories the filter does not decide the category: a
    fuel station that is tagged as a museum, and a shop that is tagged as a
    fuel station, pass the filters of the gas station and of the shop query
    and become spots of another category. *)
Example filter_does_not_fix_category :
  let museum : gmap string string :=
    {[ "amenity" := "fuel"; "tourism" := "museum" ]}%string in
  let kiosk : gmap string string :=
    {[ "shop" := "kiosk"; "amenity" := "fuel" ]}%string in
  Spec.matches museum {| OverpassService.key := "amenity";
                         OverpassService.value := Some "fuel"%string |}
  /\ OverpassService.determineCategory museum = tourist_attraction
  /\ Spec.matches kiosk {| OverpassService.key := "shop";
                           OverpassService.value := None |}
  /\ OverpassService.determineCategory kiosk = gas_station.
Proof.
  intros museum kiosk.
  split; [reflexivity|]. split; [reflexivity|].
  split; [now exists "kiosk"%string|reflexivity].
Qed.

(** ** The outcome of a search *)

Module SearchFacts.
Section Search.
Context {engine : JS.MathEngine} {format : JS.NumberFormat}.

Lemma searchSpots_returns (fetch : OverpassService.Fetch)
    (startPoint endPoint : Point.t) (radius : float) (category : Category)
    (spots : list Spot.t) :
  OverpassService.searchSpots fetch startPoint endPoint radius category
  = JS.Return spots
  <-> exists response data,
        fetch (Spec.queryFor startPoint endPoint radius category)
        = JS.Return response
        /\ OverpassService.ok response = true
        /\ OverpassService.json response = JS.Return data
        /\ spots = OverpassService.convertToSpots (elements data).
Proof.
  split.
  - unfold OverpassService.searchSpots, Spec.queryFor. cbn zeta.
    destruct (fetch _) as [response|error]; cbn; [|discriminate].
    destruct (OverpassService.ok response) eqn:Hok; cbn; [|discriminate].
    destruct (OverpassService.json response) as [data|error] eqn:Hjson; cbn;
      [|discriminate].
    intros [= <-]. now exists response, data.
  - intros (response & data & Hfetch & Hok & Hjson & ->).
    now apply RollFacts.searchSpots_success with response.
Qed.

(** A success whose body does not parse makes the search throw. *)
Lemma searchSpots_unparsable (fetch : OverpassService.Fetch)
    (startPoint endPoint : Point.t) (radius : float) (category : Category)
    (response : OverpassService.HttpResponse) (error : string) :
  fetch (Spec.queryFor startPoint endPoint radius category)
  = JS.Return response ->
  OverpassService.ok response = true ->
  OverpassService.json response = JS.Throw error ->
  OverpassService.searchSpots fetch startPoint endPoint radius category
  = JS.Throw error.
Proof.
  intros Hfetch Hok Hjson.
  unfold OverpassService.searchSpots, Spec.queryFor in *.
  cbn zeta. rewrite Hfetch. cbn. rewrite Hok. cbn. now rewrite Hjson.
Qed.


End Search.
End SearchFacts.

(** X16: a search returns spots exactly when the request is answered by a
    success whose body parses, and the spots are then the conversion of the
    elements of the body; in particular a success whose body does not parse
    makes the search throw the parse error, and a roll catches this failure
    like the others: the point contributes no candidate. *)
Theorem search_outcome {engine : JS.MathEngine} {format : JS.NumberFormat}
    (fetch : OverpassService.Fetch) (startPoint endPoint : Point.t)
    (radius : float) (category : Category) :
  let result :=
    OverpassService.searchSpots fetch startPoint endPoint radius category in
  let query := Spec.queryFor startPoint endPoint radius category in
  (forall spots,
     result = JS.Return spots
     <-> exists response data,
           fetch query = JS.Return response
           /\ OverpassService.ok response = true
           /\ OverpassService.json response = JS.Return data
           /\ spots = OverpassService.convertToSpots (elements data))
  /\ (forall response error,
        fetch query = JS.Return response ->
        OverpassService.ok response = true ->
        OverpassService.json response = JS.Throw error ->
        result = JS.Throw error /\ Spec.contribution result = []).
Proof.
  intros result query. subst result query. split.
  - intros spots. apply SearchFacts.searchSpots_returns.
  - intros response error Hfetch Hok Hjson.
    now rewrite (SearchFacts.searchSpots_unparsable _ _ _ _ _ _ _
                   Hfetch Hok Hjson).
Qed.

(** ** The search radius again *)

Module MonotoneFacts.
Import FloatFacts.

Lemma searchRadiusFor_monotone (d1 d2 : float) :
  (d1 <=? d2) = true ->
  (OverpassService.searchRadiusFor d1 <=? OverpassService.searchRadiusFor d2)
  = true.
Proof.
  intros Hle. unfold OverpassService.searchRadiusFor.
  destruct (d2 <=? 1) eqn:H1.
  { rewrite (leb_trans _ _ _ Hle H1). reflexivity. }
  destruct (d2 <=? 3) eqn:H3.
  { destruct (d1 <=? 1); [reflexivity|].
    rewrite (leb_trans _ _ _ Hle H3). reflexivity. }
  destruct (d2 <=? 10) eqn:H10.
  { destruct (d1 <=? 1); [reflexivity|]. destruct (d1 <=? 3); [reflexivity|].
    rewrite (leb_trans _ _ _ Hle H10). reflexivity. }
  destruct (d2 <=? 20) eqn:H20.
  { destruct (d1 <=? 1); [reflexivity|]. destruct (d1 <=? 3); [reflexivity|].
    destruct (d1 <=? 10); [reflexivity|].
    rewrite (leb_trans _ _ _ Hle H20). reflexivity. }
  destruct (d1 <=? 1); [reflexivity|]. destruct (d1 <=? 3); [reflexivity|].
  destruct (d1 <=? 10); [reflexivity|]. destruct (d1 <=? 20); reflexivity.
Qed.

End MonotoneFacts.

(** X17: the search radius never shrinks when the route gets longer: for
    distances [d1 <= d2] the radius for [d1] is at most the radius for
    [d2]; and it does not depend on the direction of the route, on an
    engine whose sine is odd. *)
Theorem search_radius_monotone {engine : JS.MathEngine} :
  (forall d1 d2 : float,
     (d1 <=? d2) = true ->
     (OverpassService.searchRadiusFor d1 <=? OverpassService.searchRadiusFor d2)
     = true)
  /\ (Spec.sinOdd engine ->
      forall startPoint endPoint : Point.t,
        OverpassService.calculateSearchRadius startPoint endPoint
        = OverpassService.calculateSearchRadius endPoint startPoint).
Proof.
  split; [apply MonotoneFacts.searchRadiusFor_monotone|].
  intros Hodd startPoint endPoint. unfold OverpassService.calculateSearchRadius.
  now rewrite (HaversineFacts.calculateDistance_sym Hodd).
Qed.

(** ** The history of a session *)

Module HistoryFacts.

(** The test of [mergeHistory]: some spot of [prev] has the identifier. *)
Lemma known_spec (prev : list Spot.t) (spot : Spot.t) :
  existsb (fun existingSpot => String.eqb (Spot.id existingSpot) (Spot.id spot))
          prev = true
  <-> Spot.id spot ∈ map Spot.id prev.
Proof.
  rewrite existsb_exists. split.
  - intros (x & Hin & Heq). apply String.eqb_eq in Heq. rewrite <- Heq.
    apply list_elem_of_In, in_map, Hin.
  - intros Hin. apply list_elem_of_In, in_map_iff in Hin as (x & Heq & Hin).
    exists x. split; [exact Hin|]. now apply String.eqb_eq.
Qed.

Lemma newSpots_ids (prev selectedSpots : list Spot.t) (i : string) :
  let fresh spot :=
    negb (existsb (fun existingSpot =>
                     String.eqb (Spot.id existingSpot) (Spot.id spot)) prev) in
  i ∈ map Spot.id (List.filter fresh selectedSpots)
  <-> i ∈ map Spot.id selectedSpots /\ i ∉ map Spot.id prev.
Proof.
  intros fresh. split.
  - intros Hi. apply list_elem_of_In, in_map_iff in Hi as (x & <- & Hin).
    apply filter_In in Hin as [Hin Hfresh].
    split; [apply list_elem_of_In, in_map, Hin|].
    unfold fresh in Hfresh. apply negb_true_iff in Hfresh.
    intros Hknown. apply known_spec in Hknown. congruence.
  - intros [Hi Hnew]. apply list_elem_of_In, in_map_iff in Hi as (x & <- & Hin).
    apply list_elem_of_In, in_map, filter_In. split; [exact Hin|].
    unfold fresh. apply negb_true_iff.
    destruct (existsb _ prev) eqn:Hknown; [|reflexivity].
    apply known_spec in Hknown. contradiction.
Qed.

Lemma filter_ids_NoDup (p : Spot.t -> bool) (l : list Spot.t) :
  NoDup (map Spot.id l) -> NoDup (map Spot.id (List.filter p l)).
Proof.
  induction l as [|x l IH]; simpl; [auto|].
  intros Hnd. apply NoDup_cons in Hnd as [Hx Hnd].
  destruct (p x); simpl; [|auto].
  apply NoDup_cons. split; [|auto].
  intros Hin. apply Hx.
  apply list_elem_of_In, in_map_iff in Hin as (y & Heq & Hin).
  apply filter_In in Hin as [Hin _].
  rewrite <- Heq. apply list_elem_of_In, in_map, Hin.
Qed.

Lemma filter_nothing {A} (p : A -> bool) (l : list A) :
  (forall x, In x l -> p x = false) -> List.filter p l = [].
Proof.
  induction l as [|x l IH]; simpl; [auto|]. intros H.
  rewrite (H x) by now left. apply IH. intros y Hy. apply H. now right.
Qed.

Lemma mergeHistory_prefix (prev selectedSpots : list Spot.t) :
  prev `prefix_of` App.mergeHistory prev selectedSpots.
Proof. unfold App.mergeHistory. eexists. reflexivity. Qed.

Lemma mergeHistory_ids (prev selectedSpots : list Spot.t) (i : string) :
  i ∈ map Spot.id (App.mergeHistory prev selectedSpots)
  <-> i ∈ map Spot.id prev \/ i ∈ map Spot.id selectedSpots.
Proof.
  unfold App.mergeHistory. cbn zeta. rewrite map_app, elem_of_app.
  rewrite (newSpots_ids prev selectedSpots i).
  destruct (decide (i ∈ map Spot.id prev)); tauto.
Qed.

Lemma mergeHistory_NoDup (prev selectedSpots : list Spot.t) :
  NoDup (map Spot.id prev) -> NoDup (map Spot.id selectedSpots) ->
  NoDup (map Spot.id (App.mergeHistory prev selectedSpots)).
Proof.
  intros Hprev Hsel. unfold App.mergeHistory. cbn zeta.
  rewrite map_app. apply NoDup_app. split; [exact Hprev|]. split.
  - intros i Hi Hnew. apply (newSpots_ids prev selectedSpots i) in Hnew. tauto.
  - now apply filter_ids_NoDup.
Qed.

(** Merging the same spots again adds nothing. *)
Lemma mergeHistory_again (prev selectedSpots : list Spot.t) :
  App.mergeHistory (App.mergeHistory prev selectedSpots) selectedSpots
  = App.mergeHistory prev selectedSpots.
Proof.
  unfold App.mergeHistory at 1. cbn zeta.
  rewrite filter_nothing; [apply app_nil_r|].
  intros spot Hin. apply negb_false_iff, known_spec, mergeHistory_ids.
  right. apply list_elem_of_In, in_map, Hin.
Qed.

Lemma mergeHistory_Forall (P : Spot.t -> Prop) (prev selectedSpots : list Spot.t) :
  Forall P prev -> Forall P selectedSpots ->
  Forall P (App.mergeHistory prev selectedSpots).
Proof.
  intros Hprev Hsel. unfold App.mergeHistory. cbn zeta.
  apply Forall_app. split; [exact Hprev|].
  apply Forall_forall. intros spot Hin.
  apply list_elem_of_In, filter_In in Hin as [Hin _].
  apply list_elem_of_In in Hin. revert spot Hin. now apply Forall_forall.
Qed.

End HistoryFacts.

(** X18: the history update of a roll.  The old history stays where it
    is, as a prefix of the new one; the identifiers of the new history are
    those of the old one and of the selected spots; a selected spot whose
    identifier is in the history already is not added, so merging the same
    spots again changes nothing; and when neither the old history nor the
    selected spots repeat an identifier, the new history repeats none. *)
Theorem history_merge (prev selectedSpots : list Spot.t) :
  let history := App.mergeHistory prev selectedSpots in
  prev `prefix_of` history
  /\ (forall i : string,
        i ∈ map Spot.id history
        <-> i ∈ map Spot.id prev \/ i ∈ map Spot.id selectedSpots)
  /\ App.mergeHistory history selectedSpots = history
  /\ (NoDup (map Spot.id prev) -> NoDup (map Spot.id selectedSpots) ->
      NoDup (map Spot.id history)).
Proof.
  intros history. subst history.
  split; [apply HistoryFacts.mergeHistory_prefix|].
  split; [apply HistoryFacts.mergeHistory_ids|].
  split; [apply HistoryFacts.mergeHistory_again|].
  apply HistoryFacts.mergeHistory_NoDup.
Qed.

(** The merge tests the new spots against the old history only: a list of
    selected spots that repeats an identifier puts it into the history
    twice.  In a roll the selected spots come out of the deduplication. *)
Example history_merge_needs_distinct_spots :
  map Spot.id (App.mergeHistory [Samples.kissaten]
                 [Samples.burgerChain; Samples.kissaten; Samples.burgerChain])
  = ["node_1"; "node_2"; "node_2"]%string.
Proof. reflexivity. Qed.

(** ** What a roll shows *)

Module SelectionFacts.

(** A selection takes its items from the input, none more often than the
    input has it. *)
Lemma selected_submseteq {A} (rnd : OverpassService.Draws) (l : list A)
    (count : nat) :
  ShuffleFacts.selected rnd l count ⊆+ l.
Proof.
  unfold ShuffleFacts.selected. destruct (length l <=? count)%nat; [reflexivity|].
  etransitivity; [apply submseteq_take|].
  apply Permutation_submseteq, ShuffleFacts.shuffleFrom_Permutation.
Qed.

Lemma selected_length {A} (rnd : OverpassService.Draws) (l : list A)
    (count : nat) :
  length (ShuffleFacts.selected rnd l count) = Nat.min count (length l).
Proof.
  unfold ShuffleFacts.selected.
  destruct (Nat.leb_spec (length l) count); [lia|].
  rewrite length_take, ShuffleFacts.shuffleFrom_length. lia.
Qed.

Lemma submseteq_ids_NoDup (l k : list Spot.t) :
  l ⊆+ k -> NoDup (map Spot.id k) -> NoDup (map Spot.id l).
Proof.
  intros Hsub Hnd.
  assert (map Spot.id l ⊆+ map Spot.id k) as Hids by now apply fmap_submseteq.
  apply submseteq_Permutation in Hids as [rest Hrest].
  rewrite Hrest in Hnd. now apply NoDup_app in Hnd as [Hnd _].
Qed.

End SelectionFacts.

(** X19: a random selection only takes items of its input: the selected
    sample points, and the selected spots, are items of the input, none
    taken more often than the input has it; their number is [count] or the
    length of the input, whichever is smaller; and spots with pairwise
    different identifiers are selected with pairwise different
    identifiers. *)
Theorem selection_takes_from_input (rnd : OverpassService.Draws)
    (count : nat) :
  (forall midPoints : list Point.t,
     let selected :=
       OverpassService.selectRandomMidPoints rnd midPoints count in
     selected ⊆+ midPoints
     /\ length selected = Nat.min count (length midPoints))
  /\ (forall spots : list Spot.t,
        let selected :=
          OverpassService.selectRandomSpotsWithoutRating rnd spots count in
        selected ⊆+ spots
        /\ length selected = Nat.min count (length spots)
        /\ (NoDup (map Spot.id spots) -> NoDup (map Spot.id selected))).
Proof.
  split.
  - intros midPoints selected. subst selected.
    change (OverpassService.selectRandomMidPoints rnd midPoints count)
      with (ShuffleFacts.selected rnd midPoints count).
    split; [apply SelectionFacts.selected_submseteq
           |apply SelectionFacts.selected_length].
  - intros spots selected. subst selected.
    change (OverpassService.selectRandomSpotsWithoutRating rnd spots count)
      with (ShuffleFacts.selected rnd spots count).
    split; [apply SelectionFacts.selected_submseteq|].
    split; [apply SelectionFacts.selected_length|].
    apply SelectionFacts.submseteq_ids_NoDup,
      SelectionFacts.selected_submseteq.
Qed.

Module GachaFacts.
Section Gacha.
Context {engine : JS.MathEngine} {format : JS.NumberFormat}.

Lemma uniqueSpots_nil (spots : list Spot.t) :
  App.uniqueSpots spots = [] <-> spots = [].
Proof.
  rewrite DedupFacts.uniqueSpots_firstOccurrences.
  destruct spots as [|x spots]; [tauto|]. simpl. split; discriminate.
Qed.

Lemma shownSpots_length env start end_ candidates :
  length (Spec.shownSpots env start end_ candidates)
  = Nat.min 3 (length (App.uniqueSpots candidates)).
Proof.
  unfold Spec.shownSpots.
  change (OverpassService.selectRandomSpotsWithoutRating ?r ?l ?c)
    with (ShuffleFacts.selected r l c).
  rewrite SelectionFacts.selected_length.
  unfold OverpassService.addRatingsToSpots. now rewrite length_map.
Qed.

Lemma shownSpots_submseteq env start end_ candidates :
  Spec.shownSpots env start end_ candidates
  ⊆+ OverpassService.addRatingsToSpots (App.uniqueSpots candidates) start end_.
Proof. apply SelectionFacts.selected_submseteq. Qed.

Lemma shownSpots_NoDup env start end_ candidates :
  NoDup (map Spot.id (Spec.shownSpots env start end_ candidates)).
Proof.
  eapply SelectionFacts.submseteq_ids_NoDup; [apply shownSpots_submseteq|].
  rewrite RatedFacts.addRatingsToSpots_ids.
  apply UniqueFacts.uniqueSpots_NoDup.
Qed.

Lemma shownSpots_ids env start end_ candidates (i : string) :
  i ∈ map Spot.id (Spec.shownSpots env start end_ candidates) ->
  i ∈ map Spot.id candidates.
Proof.
  intros Hi.
  assert (map Spot.id (Spec.shownSpots env start end_ candidates)
          ⊆+ map Spot.id (OverpassService.addRatingsToSpots
                            (App.uniqueSpots candidates) start end_)) as Hsub
    by apply fmap_submseteq, shownSpots_submseteq.
  apply (elem_of_submseteq _ _ _ Hi) in Hsub.
  rewrite RatedFacts.addRatingsToSpots_ids in Hsub.
  rewrite DedupFacts.uniqueSpots_firstOccurrences in Hsub.
  now apply WalkFacts.firstOccurrences_ids in Hsub as [Hsub _].
Qed.

Lemma shownSpots_rated env start end_ candidates :
  Forall Spec.rated (Spec.shownSpots env start end_ candidates).
Proof.
  apply Forall_forall. intros spot Hin.
  pose proof (elem_of_submseteq _ _ _ Hin
                (shownSpots_submseteq env start end_ candidates)) as Hin'.
  exact (proj1 (Forall_forall _ _)
           (RatedFacts.addRatingsToSpots_rated _ start end_) spot Hin').
Qed.

(** The state a roll ends in, when both points are set. *)
Lemma handleGachaRoll_returns (env : App.RollEnv) (st : App.State)
    (start end_ : Point.t) :
  App.startPoint st = Some start -> App.endPoint st = Some end_ ->
  let shown :=
    Spec.shownSpots env start end_ (Spec.candidates env st start end_) in
  App.handleGachaRoll env st
  = App.setIsLoading
      (if (length shown =? 0)%nat
       then App.toast (App.setSpots (App.setIsLoading st true) []
                         (App.allGachaHistory st)) App.ToastNotFound
       else App.setSpots (App.setIsLoading st true) shown
              (App.mergeHistory (App.allGachaHistory st) shown))
      false.
Proof.
  intros Hs He shown. unfold App.handleGachaRoll. rewrite Hs, He.
  rewrite RollFacts.rollBody_returns. cbn zeta.
  change (App.selectedCategory
            (App.setSpots (App.setIsLoading st true) []
               (App.allGachaHistory st)))
    with (App.selectedCategory st).
  fold (Spec.candidates env st start end_). fold shown.
  destruct (length shown =? 0)%nat; reflexivity.
Qed.

(** Without both points a roll returns at once. *)
Lemma handleGachaRoll_idle (env : App.RollEnv) (st : App.State) :
  App.startPoint st = None \/ App.endPoint st = None ->
  App.handleGachaRoll env st = st.
Proof.
  intros [Hs|He]; unfold App.handleGachaRoll.
  - now rewrite Hs.
  - rewrite He. now destruct (App.startPoint st).
Qed.

Lemma roll_shown (env : App.RollEnv) (st : App.State) (start end_ : Point.t) :
  App.startPoint st = Some start -> App.endPoint st = Some end_ ->
  let st' := App.handleGachaRoll env st in
  let candidates := Spec.candidates env st start end_ in
  length (App.gachaSpots st') = Nat.min 3 (length (App.uniqueSpots candidates))
  /\ NoDup (map Spot.id (App.gachaSpots st'))
  /\ (forall i : string,
        i ∈ map Spot.id (App.gachaSpots st') -> i ∈ map Spot.id candidates)
  /\ Forall Spec.rated (App.gachaSpots st')
  /\ App.startPoint st' = Some start
  /\ App.endPoint st' = Some end_
  /\ App.selectedCategory st' = App.selectedCategory st
  /\ App.isLoading st' = false.
Proof.
  intros Hs He st' candidates. subst st'.
  rewrite (handleGachaRoll_returns env st start end_ Hs He).
  cbn zeta. fold candidates.
  pose proof (shownSpots_length env start end_ candidates) as Hlen.
  pose proof (shownSpots_NoDup env start end_ candidates) as Hnd.
  pose proof (shownSpots_ids env start end_ candidates) as Hids.
  pose proof (shownSpots_rated env start end_ candidates) as Hrated.
  set (shown := Spec.shownSpots env start end_ candidates) in *.
  destruct (length shown =? 0)%nat eqn:Hnone;
    cbn [App.setIsLoading App.toast App.setSpots App.gachaSpots
         App.startPoint App.endPoint App.selectedCategory App.isLoading].
  - apply Nat.eqb_eq in Hnone. rewrite <- Hlen, Hnone.
    repeat split; try assumption; try constructor.
    intros i Hi. now apply elem_of_nil in Hi.
  - repeat split; assumption.
Qed.

Lemma roll_history (env : App.RollEnv) (st : App.State) :
  let st' := App.handleGachaRoll env st in
  App.allGachaHistory st `prefix_of` App.allGachaHistory st'
  /\ (NoDup (map Spot.id (App.allGachaHistory st)) ->
      NoDup (map Spot.id (App.allGachaHistory st')))
  /\ (Forall Spec.rated (App.allGachaHistory st) ->
      Forall Spec.rated (App.allGachaHistory st'))
  /\ (is_Some (App.startPoint st) -> is_Some (App.endPoint st) ->
      forall i : string,
        i ∈ map Spot.id (App.allGachaHistory st')
        <-> i ∈ map Spot.id (App.allGachaHistory st)
            \/ i ∈ map Spot.id (App.gachaSpots st')).
Proof.
  intros st'. subst st'.
  destruct (App.startPoint st) as [start|] eqn:Hs.
  2:{ rewrite handleGachaRoll_idle by now left.
      split; [reflexivity|]. split; [auto|]. split; [auto|].
      intros [x Hx]. discriminate. }
  destruct (App.endPoint st) as [end_|] eqn:He.
  2:{ rewrite handleGachaRoll_idle by now right.
      split; [reflexivity|]. split; [auto|]. split; [auto|].
      intros _ [x Hx]. discriminate. }
  rewrite (handleGachaRoll_returns env st start end_ Hs He).
  cbn zeta.
  pose proof (shownSpots_NoDup env start end_
                (Spec.candidates env st start end_)) as Hnd.
  pose proof (shownSpots_rated env start end_
                (Spec.candidates env st start end_)) as Hrated.
  set (shown := Spec.shownSpots env start end_ _) in *.
  destruct (length shown =? 0)%nat eqn:Hnone;
    cbn [App.setIsLoading App.toast App.setSpots App.gachaSpots
         App.allGachaHistory].
  - split; [reflexivity|]. split; [auto|]. split; [auto|].
    intros _ _ i. simpl. rewrite elem_of_nil. tauto.
  - split; [apply HistoryFacts.mergeHistory_prefix|].
    split; [intros Hprev; now apply HistoryFacts.mergeHistory_NoDup|].
    split; [intros Hprev; now apply HistoryFacts.mergeHistory_Forall|].
    intros _ _ i. apply HistoryFacts.mergeHistory_ids.
Qed.

End Gacha.
End GachaFacts.

(** X20: what a roll shows, when both points are set: as many spots as
    the searches found with different identifiers, but at most 3; no
    identifier twice; only spots that one of the searches returned; each
    with its stars, distance from the route and debug text.  The roll
    leaves start, end and category as they are and ends with the loading
    flag cleared. *)
Theorem roll_shows_distinct_rated_spots {engine : JS.MathEngine}
    {format : JS.NumberFormat} (env : App.RollEnv) (st : App.State)
    (start end_ : Point.t) :
  App.startPoint st = Some start -> App.endPoint st = Some end_ ->
  let st' := App.handleGachaRoll env st in
  let candidates := Spec.candidates env st start end_ in
  length (App.gachaSpots st') = Nat.min 3 (length (App.uniqueSpots candidates))
  /\ NoDup (map Spot.id (App.gachaSpots st'))
  /\ (forall i : string,
        i ∈ map Spot.id (App.gachaSpots st') -> i ∈ map Spot.id candidates)
  /\ Forall Spec.rated (App.gachaSpots st')
  /\ App.startPoint st' = Some start
  /\ App.endPoint st' = Some end_
  /\ App.selectedCategory st' = App.selectedCategory st
  /\ App.isLoading st' = false.
Proof. apply GachaFacts.roll_shown. Qed.

(** The roll of the samples whose second request fails: two distinct
    candidates, both shown. *)
Lemma roll_shows_distinct_rated_spots_witness :
  App.startPoint App.initialState = Some Samples.shinjuku
  /\ App.endPoint App.initialState = Some Samples.shibuya
  /\ length (App.gachaSpots
               (App.handleGachaRoll Samples.flakyRoll App.initialState))
     = Nat.min 3
         (length (App.uniqueSpots
                    (Spec.candidates Samples.flakyRoll App.initialState
                       Samples.shinjuku Samples.shibuya)))
  /\ NoDup (map Spot.id
              (App.gachaSpots
                 (App.handleGachaRoll Samples.flakyRoll App.initialState))).
Proof.
  destruct (roll_shows_distinct_rated_spots Samples.flakyRoll App.initialState
              Samples.shinjuku Samples.shibuya eq_refl eq_refl)
    as (Hlen & Hnd & _).
  exact (conj eq_refl (conj eq_refl (conj Hlen Hnd))).
Defined.

(** X21: what a roll does to the history, in any state: the old history
    stays as a prefix of the new one; a history without repeated
    identifiers stays without; and when both points are set the identifiers
    of the new history are those of the old history and of the spots the
    roll shows. *)
Theorem roll_extends_history {engine : JS.MathEngine}
    {format : JS.NumberFormat} (env : App.RollEnv) (st : App.State) :
  let st' := App.handleGachaRoll env st in
  App.allGachaHistory st `prefix_of` App.allGachaHistory st'
  /\ (NoDup (map Spot.id (App.allGachaHistory st)) ->
      NoDup (map Spot.id (App.allGachaHistory st')))
  /\ (is_Some (App.startPoint st) -> is_Some (App.endPoint st) ->
      forall i : string,
        i ∈ map Spot.id (App.allGachaHistory st')
        <-> i ∈ map Spot.id (App.allGachaHistory st)
            \/ i ∈ map Spot.id (App.gachaSpots st')).
Proof.
  destruct (GachaFacts.roll_history env st) as (Hprefix & Hnd & _ & Hids).
  exact (conj Hprefix (conj Hnd Hids)).
Qed.

(** Rolling twice with the same answers: the second roll shows the same
    spots and adds nothing to the history. *)
Example roll_twice :
  let once := App.handleGachaRoll Samples.flakyRoll App.initialState in
  let twice := App.handleGachaRoll Samples.flakyRoll once in
  map Spot.id (App.allGachaHistory once) = ["node_0"; "node_2"]%string
  /\ map Spot.id (App.gachaSpots twice) = ["node_0"; "node_2"]%string
  /\ map Spot.id (App.allGachaHistory twice) = ["node_0"; "node_2"]%string.
Proof. vm_compute. repeat split. Qed.

(** X22: a roll reports that nothing was found exactly when its searches
    returned no spot at all.  With both points set and no candidate, the
    roll shows nothing, raises the not-found toast and leaves the history
    as it is; with at least one candidate it shows at least one spot and
    raises no toast. *)
Theorem roll_reports_not_found {engine : JS.MathEngine}
    {format : JS.NumberFormat} (env : App.RollEnv) (st : App.State)
    (start end_ : Point.t) :
  App.startPoint st = Some start -> App.endPoint st = Some end_ ->
  let st' := App.handleGachaRoll env st in
  let candidates := Spec.candidates env st start end_ in
  (candidates = [] ->
   App.gachaSpots st' = []
   /\ App.toasts st' = App.toasts st ++ [App.ToastNotFound]
   /\ App.allGachaHistory st' = App.allGachaHistory st)
  /\ (candidates <> [] ->
      (0 < length (App.gachaSpots st'))%nat
      /\ App.toasts st' = App.toasts st).
Proof.
  intros Hs He st' candidates. subst st'.
  rewrite (GachaFacts.handleGachaRoll_returns env st start end_ Hs He).
  cbn zeta. fold candidates.
  pose proof (GachaFacts.shownSpots_length env start end_ candidates) as Hlen.
  pose proof (GachaFacts.uniqueSpots_nil candidates) as Hnil.
  set (shown := Spec.shownSpots env start end_ candidates) in *.
  split.
  - intros Hnone. rewrite (proj2 Hnil Hnone) in Hlen. simpl in Hlen.
    rewrite Hlen. cbn. repeat split.
  - intros Hsome.
    assert (0 < length (App.uniqueSpots candidates))%nat as Hpos.
    { destruct (App.uniqueSpots candidates) eqn:Hu; [|simpl; lia].
      exfalso. apply Hsome. apply GachaFacts.uniqueSpots_nil. exact Hu. }
    destruct (Nat.eqb_spec (length shown) 0) as [Hzero|Hzero]; [lia|].
    cbn. split; [lia|reflexivity].
Qed.

(** The roll of the samples whose requests are all refused: nothing to
    show, and the not-found toast. *)
Lemma roll_reports_not_found_witness :
  App.startPoint App.initialState = Some Samples.shinjuku
  /\ App.endPoint App.initialState = Some Samples.shibuya
  /\ Spec.candidates Samples.busyRoll App.initialState
       Samples.shinjuku Samples.shibuya = []
  /\ App.gachaSpots (App.handleGachaRoll Samples.busyRoll App.initialState)
     = []
  /\ App.toasts (App.handleGachaRoll Samples.busyRoll App.initialState)
     = App.toasts App.initialState ++ [App.ToastNotFound].
Proof.
  assert (Spec.candidates Samples.busyRoll App.initialState
            Samples.shinjuku Samples.shibuya = []) as Hnone by reflexivity.
  destruct (proj1 (roll_reports_not_found Samples.busyRoll App.initialState
                     Samples.shinjuku Samples.shibuya eq_refl eq_refl) Hnone)
    as (Hshown & Htoasts & _).
  exact (conj eq_refl (conj eq_refl (conj Hnone (conj Hshown Htoasts)))).
Defined.

(** ** The requests of a roll *)

Module RequestFacts.
Section Requests.
Context {engine : JS.MathEngine} {format : JS.NumberFormat}.



End Requests.
End RequestFacts.



(** ** Rolls without a route *)

(** X24: without both points a roll does nothing at all: the state it
    returns is the state it got, with no loading flag raised, no toast and
    no request sent.  This is the case after a reset, and still after the
    first click that follows it. *)
Theorem roll_needs_both_points {engine : JS.MathEngine}
    {format : JS.NumberFormat} (env : App.RollEnv) (st : App.State) :
  App.startPoint st = None \/ App.endPoint st = None ->
  App.handleGachaRoll env st = st
  /\ App.handleGachaRoll env (App.handleReset st) = App.handleReset st
  /\ (forall lat lng,
        App.handleGachaRoll env
          (App.handleMapClick lat lng (App.handleReset st))
        = App.handleMapClick lat lng (App.handleReset st)).
Proof.
  intros Hnone. split; [now apply GachaFacts.handleGachaRoll_idle|].
  split; [apply GachaFacts.handleGachaRoll_idle; now left|].
  intros lat lng. apply GachaFacts.handleGachaRoll_idle. now right.
Qed.

Lemma roll_needs_both_points_witness :
  (App.startPoint (App.handleReset App.initialState) = None
   \/ App.endPoint (App.handleReset App.initialState) = None)
  /\ App.handleGachaRoll Samples.flakyRoll (App.handleReset App.initialState)
     = App.handleReset App.initialState.
Proof.
  assert (App.startPoint (App.handleReset App.initialState) = None
          \/ App.endPoint (App.handleReset App.initialState) = None) as Hnone
    by (left; reflexivity).
  exact (conj Hnone
           (proj1 (roll_needs_both_points Samples.flakyRoll
                     (App.handleReset App.initialState) Hnone))).
Defined.

(** ** The states of a session *)

Module ReachFacts.
Section Reach.
Context {engine : JS.MathEngine} {format : JS.NumberFormat}.

Lemma consistent_initial : Spec.consistent App.initialState.
Proof.
  repeat split; simpl; try constructor; try lia.
  intros i Hi. now apply elem_of_nil in Hi.
Qed.

Lemma consistent_roll (env : App.RollEnv) (st : App.State) :
  Spec.consistent st -> Spec.consistent (App.handleGachaRoll env st).
Proof.
  intros Hinv.
  destruct (App.startPoint st) as [start|] eqn:Hs;
    [|now rewrite GachaFacts.handleGachaRoll_idle by now left].
  destruct (App.endPoint st) as [end_|] eqn:He;
    [|now rewrite GachaFacts.handleGachaRoll_idle by now right].
  destruct (GachaFacts.roll_shown env st start end_ Hs He)
    as (Hlen & Hnd & _ & Hrated & _ & _ & _ & Hload).
  destruct (GachaFacts.roll_history env st) as (_ & Hhist & Hold & Hids).
  destruct Hinv as (_ & _ & _ & Hprev & _ & _ & Hprevrated).
  split; [exact Hload|].
  split; [rewrite Hlen; lia|].
  split; [exact Hnd|]. split; [now apply Hhist|].
  split; [|split; [exact Hrated|now apply Hold]].
  intros i Hi. apply Hids; [rewrite Hs; eauto|rewrite He; eauto|now right].
Qed.

Lemma consistent_handle (st : App.State) (event : Spec.Event) :
  Spec.consistent st -> Spec.consistent (Spec.handle st event).
Proof.
  intros Hinv. destruct event as [lat lng| |env|category]; simpl.
  - unfold App.handleMapClick.
    destruct (App.startPoint st); [destruct (App.endPoint st)|]; exact Hinv.
  - repeat split; simpl; try constructor; try lia.
    + apply Hinv.
    + intros i Hi. now apply elem_of_nil in Hi.
  - now apply consistent_roll.
  - exact Hinv.
Qed.

Lemma consistent_run (events : list Spec.Event) : forall st,
  Spec.consistent st -> Spec.consistent (Spec.run events st).
Proof.
  induction events as [|event events IH]; intros st Hinv; [exact Hinv|].
  apply IH, consistent_handle, Hinv.
Qed.

End Reach.
End ReachFacts.

(** X25: every state of a session is consistent.  Whatever sequence of
    map clicks, resets, rolls and category choices the user makes from the
    state the application starts in, and whatever the network answers and
    the random draws are: nothing is left loading, at most 3 spots are
    shown, neither the shown spots nor the history repeat an identifier,
    every shown spot is in the history, and all of them carry their
    rating. *)
Theorem session_states_consistent {engine : JS.MathEngine}
    {format : JS.NumberFormat} (events : list Spec.Event) :
  Spec.consistent (Spec.run events App.initialState).
Proof. apply ReachFacts.consistent_run, ReachFacts.consistent_initial. Qed.

(** A session: a roll, a change of category, a reset, two clicks and a
    roll on the new route. *)
Example session_of_two_rolls :
  let st :=
    Spec.run [ Spec.Roll Samples.flakyRoll; Spec.ChooseCategory cafe;
               Spec.Reset; Spec.Click 35.69 139.70; Spec.Click 35.66 139.70;
               Spec.Roll Samples.flakyRoll ]
      App.initialState in
  map Spot.id (App.gachaSpots st) = ["node_0"; "node_2"]%string
  /\ map Spot.id (App.allGachaHistory st) = ["node_0"; "node_2"]%string
  /\ App.selectedCategory st = cafe
  /\ App.toasts st
     = [App.ToastResetGuide; App.ToastStartSet; App.ToastEndSet].
Proof. vm_compute. repeat split. Qed.
